(** * Eternal deck builder: card model, sheet parsing, search engine, scout

    A shallow embedding of the deterministic parts of the deck-building
    assistant:
      - [src/data/models.py]         the [Card] record and its derived flags,
      - [src/data/sheets_client.py]  the row-to-card mapper and the card cache,
      - [src/rag/search_engine.py]   the hybrid search and its filter chain,
      - [src/agents/strategy_scout.py] the pool collection and its ordering.

    Conventions of the embedding.
      - A Python [str] is a [string] of one-byte characters; the case
        conversions, [strip], [split] and [isdigit] are the ASCII ones.
      - A Python [int] is a [Z]; a Python [float] is a binary64 [float].
      - A [dict] is a [gmap], a [set] a [gset]; an ordered dict whose order is
        iterated is an association list.
      - A call that may raise returns in the monad [py]. *)

From Stdlib Require Import ZArith String Ascii List Sorted PrimFloat DecimalString.
From stdpp Require Import gmap strings list.

Open Scope string_scope.
Open Scope Z_scope.
Open Scope list_scope.

(** ** Python values and primitives *)

Module Py.

(** Exceptions that the modelled code can raise. [StoreError] stands for
    any failure of the embedding model or of the vector store. *)
Inductive exn := AttributeError | ValueError | StoreError.

Inductive py (A : Type) : Type :=
| Return (a : A)
| Raise (e : exn).
Arguments Return {A} a.
Arguments Raise {A} e.

#[export] Instance py_ret : MRet py := fun A a => Return a.
#[export] Instance py_bind : MBind py := fun A B k m =>
  match m with
  | Return a => k a
  | Raise e => Raise e
  end.

(** [try: m  except Exception: h] *)
Definition try_except {A} (m : py A) (h : exn -> py A) : py A :=
  match m with
  | Return a => Return a
  | Raise e => h e
  end.

(** *** Characters *)

Definition code (c : ascii) : N := N_of_ascii c.

Definition isupper_ascii (c : ascii) : bool :=
  ((65 <=? code c) && (code c <=? 90))%N.
Definition islower_ascii (c : ascii) : bool :=
  ((97 <=? code c) && (code c <=? 122))%N.
Definition isdigit_ascii (c : ascii) : bool :=
  ((48 <=? code c) && (code c <=? 57))%N.

(** Whitespace of [str.strip] and [str.split] below code 128. *)
Definition isspace (c : ascii) : bool :=
  (((9 <=? code c) && (code c <=? 13)) || ((28 <=? code c) && (code c <=? 32)))%N.

Definition lower_ascii (c : ascii) : ascii :=
  if isupper_ascii c then ascii_of_N (code c + 32) else c.
Definition upper_ascii (c : ascii) : ascii :=
  if islower_ascii c then ascii_of_N (code c - 32) else c.

(** *** Strings *)

Fixpoint map_string (f : ascii -> ascii) (s : string) : string :=
  match s with
  | EmptyString => EmptyString
  | String c s' => String (f c) (map_string f s')
  end.

(** [s.lower()] and [s.upper()] *)
Definition lower : string -> string := map_string lower_ascii.
Definition upper : string -> string := map_string upper_ascii.

(** [bool(s)] for a string. *)
Definition truthy (s : string) : bool :=
  match s with
  | EmptyString => false
  | String _ _ => true
  end.

(** [needle in hay] for strings: [needle] occurs as a contiguous run. *)
Fixpoint contains (needle hay : string) : bool :=
  String.prefix needle hay ||
  match hay with
  | EmptyString => false
  | String _ hay' => contains needle hay'
  end.

Fixpoint lstrip (s : string) : string :=
  match s with
  | EmptyString => EmptyString
  | String c s' => if isspace c then lstrip s' else s
  end.

Definition rev_string (s : string) : string :=
  string_of_list_ascii (rev (list_ascii_of_string s)).

Definition rstrip (s : string) : string := rev_string (lstrip (rev_string s)).

(** [s.strip()] *)
Definition strip (s : string) : string := rstrip (lstrip s).

(** [s.split()]: the maximal runs of non-whitespace characters.  [cur] is
    the run being read, most recent character first. *)
Fixpoint split_go (cur : list ascii) (s : string) : list string :=
  let flush := match cur with
               | [] => []
               | _ => [string_of_list_ascii (rev cur)]
               end in
  match s with
  | EmptyString => flush
  | String c s' =>
      if isspace c then flush ++ split_go [] s' else split_go (c :: cur) s'
  end.
Definition split (s : string) : list string := split_go [] s.

(** [sep.join(parts)] *)
Fixpoint join (sep : string) (parts : list string) : string :=
  match parts with
  | [] => ""
  | [p] => p
  | p :: rest => p +:+ sep +:+ join sep rest
  end.

(** [s.isdigit()] *)
Definition isdigit (s : string) : bool :=
  truthy s && forallb isdigit_ascii (list_ascii_of_string s).

(** [str(n)] for an integer. *)
Definition str_of_int (n : Z) : string := NilEmpty.string_of_int (Z.to_int n).

(** *** [int(s)] for a string

    Surrounding whitespace is dropped, one sign is allowed, and the digits
    may be grouped by single underscores. *)

Definition digit_value (c : ascii) : Z := Z.of_N (code c - 48).

(** [digits_go after_digit acc cs]: reads digits and single underscores;
    [after_digit] tells whether the previous character was a digit. *)
Fixpoint digits_go (after_digit : bool) (acc : Z) (cs : list ascii) : option Z :=
  match cs with
  | [] => if after_digit then Some acc else None
  | c :: cs' =>
      if isdigit_ascii c then digits_go true (10 * acc + digit_value c) cs'
      else if Ascii.eqb c "_" && after_digit then digits_go false acc cs'
      else None
  end.

Definition int_of_str (s : string) : py Z :=
  let body := list_ascii_of_string (strip s) in
  let '(sign, ds) :=
    match body with
    | c :: rest =>
        if Ascii.eqb c "-" then (-1, rest)
        else if Ascii.eqb c "+" then (1, rest)
        else (1, body)
    | [] => (1, body)
    end in
  match digits_go false 0 ds with
  | Some n => Return (sign * n)
  | None => Raise ValueError
  end.

(** [bool(o)] for an optional list: [None] and [[]] are false. *)
Definition truthy_list {A} (o : option (list A)) : bool :=
  match o with
  | Some (_ :: _) => true
  | _ => false
  end.

(** The elements of an optional list ([None] has none). *)
Definition items {A} (o : option (list A)) : list A := default [] o.

(** [l[:n]] for any integer [n]: a negative [n] counts from the end. *)
Definition slice_to {A} (n : Z) (l : list A) : list A :=
  if 0 <=? n then take (Z.to_nat n) l
  else take (length l - Z.to_nat (- n)) l.

End Py.

Import Py.

(** ** [src/config.py] *)

Module Config.

(** [FACTION_SYMBOLS], in the insertion order of [FACTIONS]. *)
Definition FACTION_SYMBOLS : list (string * string) :=
  [ ("Fire", "{F}"); ("Time", "{T}"); ("Justice", "{J}");
    ("Primal", "{P}"); ("Shadow", "{S}") ].

(** [d.get(k)] on an ordered dict. *)
Fixpoint dict_get (d : list (string * string)) (k : string) : option string :=
  match d with
  | [] => None
  | (k', v) :: d' => if String.eqb k' k then Some v else dict_get d' k
  end.

(** [d.values()] *)
Definition dict_values (d : list (string * string)) : list string := d.*2.

End Config.

(** ** [src/data/models.py] *)

Module Models.

Record Card := {
  name : string;
  cost : Z;
  influence : string;
  type : string;
  card_text : string;
  rarity : string;
  deck_buildable : bool;
  set_number : string;
  attack : option Z;
  health : option Z;
  eternal_id : option string;
  image_url : option string;
  unit_types : list string;
  set_name : option string;
}.

(** [re.sub(r'<[^>]+>', '', text)].  A match starts at a ['<'] and runs to
    the first ['>'] after it, provided at least one character lies between
    them; matches are removed left to right.  [pending] is [None] outside a
    candidate tag and [Some buf] inside one, [buf] holding the characters
    read since its ['<'], most recent first. *)
Fixpoint sub_tags (pending : option (list ascii)) (s : string) : string :=
  match s with
  | EmptyString =>
      match pending with
      | None => ""
      | Some buf => String "<" (string_of_list_ascii (rev buf))
      end
  | String c s' =>
      match pending with
      | None =>
          if Ascii.eqb c "<" then sub_tags (Some []) s'
          else String c (sub_tags None s')
      | Some [] =>
          if Ascii.eqb c ">" then String "<" (String ">" (sub_tags None s'))
          else sub_tags (Some [c]) s'
      | Some buf =>
          if Ascii.eqb c ">" then sub_tags None s'
          else sub_tags (Some (c :: buf)) s'
      end
  end.

(** The [card_text] validator: tags removed, whitespace runs collapsed. *)
Definition clean_html_from_card_text (v : string) : string :=
  if negb (truthy v) then ""
  else
    let cleaned := sub_tags None v in
    join " " (split cleaned).

(** The [Card] constructor as [_parse_card_row] calls it: the validator runs
    on [card_text]; [unit_types] and [set_name] take their defaults. *)
Definition Card_init (name : string) (cost : Z) (type : string)
    (card_text rarity : string) (deck_buildable : bool)
    (influence set_number : string) (eternal_id : option string)
    (attack health : option Z) (image_url : option string) : Card :=
  {| name := name; cost := cost; influence := influence; type := type;
     card_text := clean_html_from_card_text card_text; rarity := rarity;
     deck_buildable := deck_buildable; set_number := set_number;
     attack := attack; health := health; eternal_id := eternal_id;
     image_url := image_url; unit_types := []; set_name := None |}.

Definition is_power (c : Card) : bool := String.eqb (lower (type c)) "power".
Definition is_unit (c : Card) : bool := String.eqb (lower (type c)) "unit".
Definition is_spell (c : Card) : bool := String.eqb (lower (type c)) "spell".

Definition is_sigil (c : Card) : bool :=
  is_power c && contains "sigil" (lower (name c)).

Definition faction_count (c : Card) : nat :=
  if negb (truthy (influence c)) then 0%nat
  else
    let factions : gset string :=
      fold_left (fun acc symbol =>
                   if contains symbol (influence c) then acc ∪ {[symbol]} else acc)
                ["{F}"; "{T}"; "{J}"; "{P}"; "{S}"] ∅ in
    size factions.

Definition market_patterns : list string :=
  ["your market"; "from your market"; "in your market"].

Definition can_access_market (c : Card) : bool :=
  if negb (truthy (card_text c)) then false
  else
    let text_lower := lower (card_text c) in
    existsb (fun pattern => contains pattern text_lower) market_patterns.

End Models.

(** ** [src/data/models.py]: decks *)

Module Decks.
Import Models.

Record DeckCard := {
  card : Card;
  quantity : Z;
}.

(** The [DeckCard] constructor: [quantity] is validated to lie in 1..4; the
    validation error is a [ValueError]. *)
Definition DeckCard_init (card : Card) (quantity : Z) : py DeckCard :=
  if (1 <=? quantity) && (quantity <=? 4)
  then Return {| card := card; quantity := quantity |}
  else Raise ValueError.

Record Deck := {
  name : string;
  description : option string;
  main_deck : list DeckCard;
  market : option (list Card);
  format : string;
  archetype : option string;
}.

(** [sum(dc.quantity for dc in self.main_deck if keep(dc))] *)
Definition sum_quantity (keep : DeckCard -> bool) (l : list DeckCard) : Z :=
  fold_left (fun acc dc => if keep dc then acc + quantity dc else acc) l 0.

Definition total_cards (self : Deck) : Z :=
  sum_quantity (fun _ => true) (main_deck self).
Definition power_count (self : Deck) : Z :=
  sum_quantity (fun dc => is_power (card dc)) (main_deck self).
Definition unit_count (self : Deck) : Z :=
  sum_quantity (fun dc => is_unit (card dc)) (main_deck self).
Definition spell_count (self : Deck) : Z :=
  sum_quantity (fun dc => is_spell (card dc)) (main_deck self).

Definition has_market_access (self : Deck) : bool :=
  existsb (fun dc => can_access_market (card dc)) (main_deck self).

(** The dictionary that [get_curve] fills, cost to number of cards. *)
Definition curve_dict (self : Deck) : gmap Z Z :=
  fold_left (fun curve dc =>
               if negb (is_power (card dc)) then
                 let cost := cost (card dc) in
                 <[cost := default 0 (curve !! cost) + quantity dc]> curve
               else curve)
            (main_deck self) ∅.

(** [sorted(items)] on (key, value) pairs with distinct keys: by key. *)
Fixpoint insert_item (x : Z * Z) (l : list (Z * Z)) : list (Z * Z) :=
  match l with
  | [] => [x]
  | y :: l' => if x.1 <=? y.1 then x :: l else y :: insert_item x l'
  end.

(** [get_curve]: the items of the dictionary in ascending order of cost. *)
Definition get_curve (self : Deck) : list (Z * Z) :=
  foldr insert_item [] (map_to_list (curve_dict self)).

(** The symbol table local to [get_factions]. *)
Definition faction_symbols : list (string * string) :=
  [ ("{F}", "Fire"); ("{T}", "Time"); ("{J}", "Justice");
    ("{P}", "Primal"); ("{S}", "Shadow") ].

Definition get_factions (self : Deck) : gmap string Z :=
  fold_left (fun factions dc =>
               fold_left (fun factions '(symbol, name) =>
                            if contains symbol (influence (card dc)) then
                              <[name := default 0 (factions !! name) + quantity dc]> factions
                            else factions)
                         faction_symbols factions)
            (main_deck self) ∅.

End Decks.

(** ** [src/data/sheets_client.py] *)

Module Sheets.
Import Models.

(** A cell of [get_all_records()]: text, or a number where the text of the
    cell reads as one. *)
Inductive cell :=
| CStr (s : string)
| CInt (n : Z).

(** A row: [Dict[str, Any]], column header to cell. *)
Abbreviation row := (gmap string cell).

(** [bool(v)] *)
Definition cell_truthy (v : cell) : bool :=
  match v with
  | CStr s => truthy s
  | CInt n => negb (n =? 0)
  end.

(** [bool(row.get(k))] *)
Definition get_truthy (r : row) (k : string) : bool :=
  match r !! k with
  | Some v => cell_truthy v
  | None => false
  end.

(** [row.get(k, d)] *)
Definition get (r : row) (k : string) (d : cell) : cell := default d (r !! k).

(** [v.upper()] and [v.strip()]: methods of [str] only. *)
Definition cell_upper (v : cell) : py string :=
  match v with
  | CStr s => Return (upper s)
  | CInt _ => Raise AttributeError
  end.
Definition cell_strip (v : cell) : py string :=
  match v with
  | CStr s => Return (strip s)
  | CInt _ => Raise AttributeError
  end.

(** [str(v)] and [int(v)] *)
Definition cell_str (v : cell) : string :=
  match v with
  | CStr s => s
  | CInt n => str_of_int n
  end.
Definition cell_int (v : cell) : py Z :=
  match v with
  | CStr s => int_of_str s
  | CInt n => Return n
  end.

(** [int(row[k]) if row.get(k) and str(row[k]).isdigit() else None] *)
Definition optional_stat (r : row) (k : string) : py (option Z) :=
  match r !! k with
  | Some v =>
      if cell_truthy v && isdigit (cell_str v) then n ← cell_int v; mret (Some n)
      else mret None
  | None => mret None
  end.

(** The [card_data] dictionary and the [Card] built from it: the body of
    the [try] block.  [row['Name']] is present where this is reached. *)
Definition build_card (r : row) : py Card :=
  name ← cell_strip (get r "Name" (CStr ""));
  cost ← cell_int (get r "Cost" (CInt 0));
  type ← cell_strip (get r "Type" (CStr "Unknown"));
  card_text ← cell_strip (get r "CardText" (CStr ""));
  rarity ← cell_strip (get r "Rarity" (CStr "Common"));
  influence ← cell_strip (get r "Influence" (CStr ""));
  let set_number := strip (cell_str (get r "SetNumber" (CStr ""))) in
  let eternal_id := strip (cell_str (get r "EternalID" (CStr ""))) in
  attack ← optional_stat r "Attack";
  health ← optional_stat r "Health";
  image ← cell_strip (get r "ImageUrl" (CStr ""));
  let image_url := if truthy image then Some image else None in
  mret (Card_init name cost type card_text rarity true influence set_number
                  (Some eternal_id) attack health image_url).

Definition _parse_card_row (r : row) : py (option Card) :=
  deck_buildable ← cell_upper (get r "DeckBuildable" (CStr ""));
  if negb (String.eqb deck_buildable "TRUE") then mret None
  else if negb (get_truthy r "Name") then mret None
  else try_except (card ← build_card r; mret (Some card))
                  (fun _ => mret None).

(** The client: its cache and the flag that guards loading. *)
Record GoogleSheetsClient := {
  _cards_cache : list Card;
  _cache_loaded : bool;
}.

(** [GoogleSheetsClient()] *)
Definition client_init : GoogleSheetsClient :=
  {| _cards_cache := []; _cache_loaded := false |}.

(** What the spreadsheet service answers to one load: [None] when no
    connection is made, otherwise the outcome of [get_all_records()]. *)
Definition sheet_reply := option (py (list row)).

(** The loop of [_load_all_cards]: parsed cards are appended one by one; a
    row that raises stops the loop with the cache as it is by then. *)
Fixpoint load_rows (rows : list row) (cache : list Card) : py unit * list Card :=
  match rows with
  | [] => (Return (), cache)
  | r :: rows' =>
      match _parse_card_row r with
      | Raise e => (Raise e, cache)
      | Return None => load_rows rows' cache
      | Return (Some card) => load_rows rows' (cache ++ [card])
      end
  end.

Definition _load_all_cards (reply : sheet_reply) (self : GoogleSheetsClient)
  : bool * GoogleSheetsClient :=
  match reply with
  | None => (false, self)
  | Some (Raise _) => (false, self)
  | Some (Return all_records) =>
      match load_rows all_records (_cards_cache self) with
      | (Return _, cache) => (true, {| _cards_cache := cache; _cache_loaded := true |})
      | (Raise _, cache) =>
          (false, {| _cards_cache := cache; _cache_loaded := _cache_loaded self |})
      end
  end.

(** [get_all_cards]: the returned copy and the client afterwards. *)
Definition get_all_cards (reply : sheet_reply) (self : GoogleSheetsClient)
  : list Card * GoogleSheetsClient :=
  let self' := if negb (_cache_loaded self) then (_load_all_cards reply self).2
               else self in
  (_cards_cache self', self').

(** The clients that a run can reach: a fresh one, and any client after one
    more [get_all_cards]. *)
Inductive reachable : GoogleSheetsClient -> Prop :=
| reach_init : reachable client_init
| reach_get reply self : reachable self -> reachable (get_all_cards reply self).2.

(** The guard that opens every reader of the cache:
    [if not self._cache_loaded: self._load_all_cards()]. *)
Definition ensure_loaded (reply : sheet_reply) (self : GoogleSheetsClient)
  : GoogleSheetsClient :=
  if negb (_cache_loaded self) then (_load_all_cards reply self).2 else self.

(** [bool(o)] for an optional string argument. *)
Definition arg_truthy (o : option string) : bool :=
  match o with
  | Some s => truthy s
  | None => false
  end.

(** The symbol table local to [search_cards]. *)
Definition faction_symbols : list (string * string) :=
  [ ("Fire", "{F}"); ("Time", "{T}"); ("Justice", "{J}");
    ("Primal", "{P}"); ("Shadow", "{S}") ].

(** [faction_symbols.get(f, f)] *)
Definition symbol_or_self (f : string) : string :=
  default f (Config.dict_get faction_symbols f).

(** The filter chain of [search_cards], on the cache it reads. *)
Definition search_cards_in (cache : list Card)
    (name card_type : option string) (cost_max : option Z)
    (factions : option (list string)) (rarity text_contains : option string)
  : list Card :=
  let results := cache in
  let results :=
    if arg_truthy name then
      let name_lower := lower (default "" name) in
      filter (fun c => contains name_lower (lower (Models.name c))) results
    else results in
  let results :=
    if arg_truthy card_type then
      let type_lower := lower (default "" card_type) in
      filter (fun c => type_lower = lower (type c)) results
    else results in
  let results :=
    match cost_max with
    | Some m => filter (fun c => cost c ≤ m) results
    | None => results
    end in
  let results :=
    if truthy_list factions then
      let symbols_to_check := symbol_or_self <$> items factions in
      filter (fun c => Exists (fun symbol => contains symbol (influence c))
                              symbols_to_check) results
    else results in
  let results :=
    if arg_truthy rarity then
      let rarity_lower := lower (default "" rarity) in
      filter (fun c => rarity_lower = lower (Models.rarity c)) results
    else results in
  let results :=
    if arg_truthy text_contains then
      let text_lower := lower (default "" text_contains) in
      filter (fun c => contains text_lower (lower (card_text c))) results
    else results in
  results.

Definition search_cards (reply : sheet_reply) (self : GoogleSheetsClient)
    (name card_type : option string) (cost_max : option Z)
    (factions : option (list string)) (rarity text_contains : option string)
  : list Card * GoogleSheetsClient :=
  let self' := ensure_loaded reply self in
  (search_cards_in (_cards_cache self') name card_type cost_max factions
                   rarity text_contains, self').

(** The loop of [get_card_by_name]: the first card of that name. *)
Fixpoint first_named (cache : list Card) (name_lower : string) : option Card :=
  match cache with
  | [] => None
  | card :: rest =>
      if String.eqb (lower (name card)) name_lower then Some card
      else first_named rest name_lower
  end.

Definition get_card_by_name (reply : sheet_reply) (self : GoogleSheetsClient)
    (name : string) : option Card * GoogleSheetsClient :=
  let self' := ensure_loaded reply self in
  (first_named (_cards_cache self') (lower name), self').

Definition get_market_access_cards (reply : sheet_reply) (self : GoogleSheetsClient)
  : list Card * GoogleSheetsClient :=
  let self' := ensure_loaded reply self in
  (filter (fun c => can_access_market c) (_cards_cache self'), self').

End Sheets.

(** ** [src/rag/search_engine.py] *)

Module Search.
Import Config Models.

Record SearchFilters := {
  allowed_factions : option (list string);
  max_factions_per_card : option Z;
  format : string;
  max_rarity : option string;
  archetype : option string;
  min_cost : option Z;
  max_cost : option Z;
  card_types : option (list string);
  unit_types : option (list string);
  must_include : option (list string);
  must_exclude : option (list string);
  include_market : bool;
  market_access_only : bool;
}.

(** [SearchFilters()] *)
Definition default_filters : SearchFilters :=
  {| allowed_factions := None; max_factions_per_card := None;
     format := "Throne"; max_rarity := None; archetype := None;
     min_cost := None; max_cost := None; card_types := None;
     unit_types := None; must_include := None; must_exclude := None;
     include_market := true; market_access_only := false |}.

(** The result record; the wall-clock field [search_time] is left out. *)
Record SearchResult := {
  cards : list Card;
  total_found : Z;
  query : string;
  query_interpretation : string;
  filters_applied : SearchFilters;
  used_chromadb : bool;
}.

(** The [where] dictionary handed to the vector store: each key is absent
    ([None]) or bound. *)
Record where_clause := {
  where_type : option (list string);
  where_rarity : option (list string);
  where_can_access_market : option bool;
}.

(** [where_clause if where_clause else None] *)
Definition where_or_none (w : where_clause) : option where_clause :=
  match where_type w, where_rarity w, where_can_access_market w with
  | None, None, None => None
  | _, _, _ => Some w
  end.

(** The engine.  [collection_query query n where] stands for embedding the
    query and asking the vector store for [n] neighbours: it yields the
    metadata dictionaries of [results['metadatas'][0]], or raises. *)
Record SearchEngine := {
  chromadb_available : bool;
  collection_query : string -> Z -> option where_clause -> py (list (gmap string string));
  all_cards : list Card;
}.

(** [{card.name.lower(): card for card in self.all_cards}]: a later card
    replaces an earlier one under the same key. *)
Definition cards_by_name (self : SearchEngine) : gmap string Card :=
  fold_left (fun d card => <[lower (name card) := card]> d) (all_cards self) ∅.

(** [l.index(x)] *)
Fixpoint list_index (x : string) (l : list string) : py nat :=
  match l with
  | [] => Raise ValueError
  | y :: l' => if String.eqb y x then Return 0%nat
               else i ← list_index x l'; mret (S i)
  end.

Definition rarities : list string := ["Common"; "Uncommon"; "Rare"; "Legendary"].

Definition _filter_by_factions (cards : list Card) (filters : SearchFilters) : list Card :=
  if negb (truthy_list (allowed_factions filters)) then cards
  else
    let allowed_symbols : gset string :=
      fold_left (fun acc faction =>
                   match dict_get FACTION_SYMBOLS faction with
                   | Some symbol => if truthy symbol then acc ∪ {[symbol]} else acc
                   | None => acc
                   end)
                (items (allowed_factions filters)) ∅ in
    fold_left (fun results card =>
                 let card_factions : gset string :=
                   fold_left (fun acc symbol =>
                                if contains symbol (influence card)
                                then acc ∪ {[symbol]} else acc)
                             (dict_values FACTION_SYMBOLS) ∅ in
                 if decide (card_factions ⊆ allowed_symbols) then
                   match max_factions_per_card filters with
                   | None => results ++ [card]
                   | Some m =>
                       if (m =? 0) || (Z.of_nat (size card_factions) <=? m)
                       then results ++ [card] else results
                   end
                 else results)
              cards [].

Definition _apply_post_filters (cards : list Card) (filters : SearchFilters) : list Card :=
  let results := cards in
  let results := match min_cost filters with
                 | Some m => filter (fun c => m ≤ cost c) results
                 | None => results
                 end in
  let results := match max_cost filters with
                 | Some m => filter (fun c => cost c ≤ m) results
                 | None => results
                 end in
  let results :=
    if truthy_list (unit_types filters) then
      let unit_types_lower := lower <$> items (unit_types filters) in
      filter (fun c => Exists (fun ut => lower ut ∈ unit_types_lower)
                              (Models.unit_types c)) results
    else results in
  let results :=
    if truthy_list (allowed_factions filters) then _filter_by_factions results filters
    else results in
  results.

Definition _semantic_search_with_filters (self : SearchEngine) (query : string)
    (filters : SearchFilters) (n_results : Z) : py (list Card) :=
  let w_type := if truthy_list (card_types filters) then card_types filters else None in
  w_rarity ← match max_rarity filters with
             | Some r =>
                 if truthy r then
                   max_idx ← list_index r rarities;
                   mret (Some (take (max_idx + 1) rarities))
                 else mret None
             | None => mret None
             end;
  let w_market := if market_access_only filters then Some true
                  else if negb (include_market filters) then Some false
                  else None in
  let clause := {| where_type := w_type; where_rarity := w_rarity;
                  where_can_access_market := w_market |} in
  let search_multiplier := if truthy_list (allowed_factions filters) then 3 else 2 in
  metadatas ← collection_query self query
                 (Z.min (n_results * search_multiplier) 1000) (where_or_none clause);
  let cards :=
    omap (fun metadata : gmap string string =>
            match metadata !! "name" with
            | Some card_name =>
                if truthy card_name then cards_by_name self !! lower card_name
                else None
            | None => None
            end) metadatas in
  mret (_apply_post_filters cards filters).

Definition _browse_with_filters (self : SearchEngine) (filters : SearchFilters)
    (n_results : Z) : list Card :=
  let results := all_cards self in
  slice_to n_results (_apply_post_filters results filters).

Definition _simple_search_with_filters (self : SearchEngine) (query : string)
    (filters : SearchFilters) (n_results : Z) : list Card :=
  let query_lower := lower query in
  let results :=
    filter (fun card => contains query_lower (lower (name card)) ||
                        contains query_lower (lower (card_text card)))
           (all_cards self) in
  _apply_post_filters results filters.

Definition _ensure_must_include (self : SearchEngine) (results : list Card)
    (must_include : list string) : list Card :=
  let result_names : gset string := list_to_set ((fun c => lower (name c)) <$> results) in
  fold_left (fun results required_name =>
               let required_lower := lower required_name in
               if decide (required_lower ∉ result_names) then
                 match cards_by_name self !! required_lower with
                 | Some card => card :: results
                 | None => results
                 end
               else results)
            must_include results.

Definition _apply_exclusions (results : list Card) (must_exclude : list string) : list Card :=
  let exclude_lower : gset string := list_to_set (lower <$> must_exclude) in
  filter (fun c => lower (name c) ∉ exclude_lower) results.

(** The strategy decision of [search]: the path taken, with the
    interpretation text and the [used_chromadb] flag it sets. *)
Definition search_strategy (self : SearchEngine) (query : string)
    (filters : SearchFilters) (n_results : Z) : py (list Card * string * bool) :=
  if negb (truthy query) && negb (truthy_list (must_include filters)) then
    mret (_browse_with_filters self filters n_results, "Browsing com filtros", false)
  else if chromadb_available self && truthy query then
    results ← _semantic_search_with_filters self query filters n_results;
    mret (results, "Busca semântica: '" +:+ query +:+ "'", true)
  else
    mret (_simple_search_with_filters self query filters n_results,
          "Busca simples: '" +:+ query +:+ "'", false).

Definition search (self : SearchEngine) (query : string)
    (filters : option SearchFilters) (n_results : Z) : py SearchResult :=
  let filters := default default_filters filters in
  '(results, interpretation, used) ← search_strategy self query filters n_results;
  let results := if truthy_list (must_include filters)
                 then _ensure_must_include self results (items (must_include filters))
                 else results in
  let results := if truthy_list (must_exclude filters)
                 then _apply_exclusions results (items (must_exclude filters))
                 else results in
  let final_results := slice_to n_results results in
  mret {| cards := final_results;
          total_found := Z.of_nat (length results);
          query := query;
          query_interpretation := interpretation;
          filters_applied := filters;
          used_chromadb := used |}.

Definition get_card_by_name (self : SearchEngine) (name : string) : option Card :=
  cards_by_name self !! lower name.

Definition get_cards_by_names (self : SearchEngine) (names : list string) : list Card :=
  fold_left (fun cards name =>
               match get_card_by_name self name with
               | Some card => cards ++ [card]
               | None => cards
               end)
            names [].

End Search.

(** ** [src/agents/strategy_scout.py] *)

Module Scout.
Import Models Search.

Record StrategyAnalysis := {
  archetype : string;
  speed : string;
  primary_faction : option string;
  secondary_factions : list string;
  key_mechanics : list string;
  tribal_focus : option string;
  must_include_cards : list string;
  market_preference : bool;
  preferred_win_conditions : list string;
  confidence_score : float;
  interpretation_notes : string;
}.

(** The answer of the language model, as far as the agent reads it. *)
Record RunResponse := { content : string }.

(** One entry of the query list. *)
Record search_query := { q_query : string; q_purpose : string }.

Definition _parse_ai_response (response : RunResponse) (initial : StrategyAnalysis)
  : StrategyAnalysis :=
  initial.

(** The [try] block that ends [_analyze_strategy]: [run] is the outcome of
    the model call, [initial_analysis] the result of the pattern pass. *)
Definition refine_analysis (run : py RunResponse) (initial_analysis : StrategyAnalysis)
  : StrategyAnalysis :=
  match run with
  | Return response => _parse_ai_response response initial_analysis
  | Raise _ => initial_analysis
  end.

(** [bool(o)] for an optional string. *)
Definition truthy_opt (o : option string) : bool :=
  match o with
  | Some s => truthy s
  | None => false
  end.

Definition _create_base_filters (strategy : StrategyAnalysis)
    (additional_filters : option SearchFilters) : SearchFilters :=
  let filters := default default_filters additional_filters in
  let factions_ :=
    if negb (truthy_list (allowed_factions filters)) && truthy_opt (primary_faction strategy)
    then Some (option_list (primary_faction strategy) ++ secondary_factions strategy)
    else allowed_factions filters in
  let include_market_ :=
    if negb (market_preference strategy) then false else include_market filters in
  let unit_types_ :=
    if truthy_opt (tribal_focus strategy) && negb (truthy_list (Search.unit_types filters))
    then Some (option_list (tribal_focus strategy))
    else Search.unit_types filters in
  let max_cost_ :=
    match max_cost filters with
    | None =>
        if String.eqb (archetype strategy) "aggro" then Some 5
        else if String.eqb (archetype strategy) "control" then Some 12
        else None
    | Some m => Some m
    end in
  {| allowed_factions := factions_;
     max_factions_per_card := max_factions_per_card filters;
     format := format filters;
     max_rarity := max_rarity filters;
     Search.archetype := Search.archetype filters;
     min_cost := min_cost filters;
     max_cost := max_cost_;
     card_types := card_types filters;
     Search.unit_types := unit_types_;
     must_include := must_include filters;
     must_exclude := must_exclude filters;
     include_market := include_market_;
     market_access_only := market_access_only filters |}.

(** The inner loop of [_execute_searches]: the cards of one result are
    appended unless their name was seen. *)
Definition add_unique (acc : list Card * gset string) (found : list Card)
  : list Card * gset string :=
  fold_left (fun '(all_cards, seen_cards) card =>
               if decide (name card ∉ seen_cards)
               then (all_cards ++ [card], seen_cards ∪ {[name card]})
               else (all_cards, seen_cards))
            found acc.

(** The query loop: every query goes through [search] with the shared
    filters and the limit 1000. *)
Fixpoint run_queries (engine : SearchEngine) (base_filters : SearchFilters)
    (search_queries : list search_query) (acc : list Card * gset string)
  : py (list Card * gset string) :=
  match search_queries with
  | [] => mret acc
  | query_info :: rest =>
      result ← search engine (q_query query_info) (Some base_filters) 1000;
      run_queries engine base_filters rest (add_unique acc (cards result))
  end.

Definition _execute_searches (engine : SearchEngine)
    (search_queries : list search_query) (strategy : StrategyAnalysis)
    (additional_filters : option SearchFilters) : py (list Card) :=
  let base_filters := _create_base_filters strategy additional_filters in
  '(all_cards, seen_cards) ← run_queries engine base_filters search_queries ([], ∅);
  mret (fold_left (fun '(all_cards, seen_cards) card_name =>
                     match get_card_by_name engine card_name with
                     | Some card =>
                         if decide (name card ∉ seen_cards)
                         then (card :: all_cards, seen_cards ∪ {[name card]})
                         else (all_cards, seen_cards)
                     | None => (all_cards, seen_cards)
                     end)
                  (must_include_cards strategy) (all_cards, seen_cards)).1.

(** Binary64 constants of the relevance score. *)
Definition f0_1 : float := 0x1.999999999999ap-4%float.
Definition f0_2 : float := 0x1.999999999999ap-3%float.
Definition f0_5 : float := 0.5%float.
Definition f0_8 : float := 0x1.999999999999ap-1%float.
Definition f1_0 : float := 1%float.

Definition _calculate_relevance (card : Card) (strategy : StrategyAnalysis) : float :=
  let score := f0_5 in
  let card_text_lower := lower (card_text card) in
  let score :=
    fold_left (fun score mechanic =>
                 if contains mechanic card_text_lower then (score + f0_1)%float else score)
              (key_mechanics strategy) score in
  let score :=
    match tribal_focus strategy with
    | Some tribal =>
        if truthy tribal && bool_decide (tribal ∈ Models.unit_types card)
        then (score + f0_2)%float else score
    | None => score
    end in
  let score :=
    if String.eqb (archetype strategy) "aggro" && (cost card <=? 3)
    then (score + f0_1)%float
    else if String.eqb (archetype strategy) "control" && contains "draw" card_text_lower
    then (score + f0_1)%float
    else score in
  if PrimFloat.ltb f1_0 score then f1_0 else score.

(** [sorted(l, key=key)]: the stable sort, by insertion from the right. *)
Fixpoint insert_sorted {A} (key : A -> Z) (x : A) (l : list A) : list A :=
  match l with
  | [] => [x]
  | y :: l' => if key x <=? key y then x :: l else y :: insert_sorted key x l'
  end.
Definition sorted {A} (key : A -> Z) (l : list A) : list A :=
  foldr (insert_sorted key) [] l.

(** The four buckets of [_organize_card_pool]. *)
Record buckets := {
  b_must_include : list Card;
  core_cards : list Card;
  synergy_cards : list Card;
  support_cards : list Card;
}.

Definition classify (strategy : StrategyAnalysis) (b : buckets) (card : Card) : buckets :=
  if bool_decide (name card ∈ must_include_cards strategy) then
    {| b_must_include := b_must_include b ++ [card]; core_cards := core_cards b;
       synergy_cards := synergy_cards b; support_cards := support_cards b |}
  else if is_power card then
    {| b_must_include := b_must_include b; core_cards := core_cards b;
       synergy_cards := synergy_cards b; support_cards := support_cards b ++ [card] |}
  else
    let relevance := _calculate_relevance card strategy in
    if PrimFloat.leb f0_8 relevance then
      {| b_must_include := b_must_include b; core_cards := core_cards b ++ [card];
         synergy_cards := synergy_cards b; support_cards := support_cards b |}
    else if PrimFloat.leb f0_5 relevance then
      {| b_must_include := b_must_include b; core_cards := core_cards b;
         synergy_cards := synergy_cards b ++ [card]; support_cards := support_cards b |}
    else
      {| b_must_include := b_must_include b; core_cards := core_cards b;
         synergy_cards := synergy_cards b; support_cards := support_cards b ++ [card] |}.

(** The last loop of [_organize_card_pool]: first occurrence per name. *)
Definition remove_duplicates (organized : list Card) : list Card :=
  (fold_left (fun '(seen, final_pool) card =>
                if decide (name card ∉ seen)
                then (seen ∪ {[name card]}, final_pool ++ [card])
                else (seen, final_pool))
             organized ((∅ : gset string), [])).2.

Definition _organize_card_pool (cards : list Card) (strategy : StrategyAnalysis)
  : list Card :=
  let b := fold_left (classify strategy) cards
             {| b_must_include := []; core_cards := [];
                synergy_cards := []; support_cards := [] |} in
  let organized :=
    b_must_include b ++ sorted cost (core_cards b) ++
    sorted cost (synergy_cards b) ++ sorted cost (support_cards b) in
  remove_duplicates organized.

(** *** Pattern detection *)

Definition ARCHETYPE_PATTERNS : list (string * list string) :=
  [ ("aggro", ["aggro"; "aggressive"; "fast"; "rush"; "burn"; "face"; "beatdown"; "tempo"]);
    ("control", ["control"; "removal"; "board wipe"; "slow"; "grind"; "defensive"; "reactive"]);
    ("midrange", ["midrange"; "value"; "balanced"; "versatile"; "flexible"]);
    ("combo", ["combo"; "synergy"; "otk"; "engine"; "infinite"; "loop"]) ].

Definition FACTION_PATTERNS : list (string * list string) :=
  [ ("Fire", ["fire"; "burn"; "torch"; "flame"; "oni"; "grenadin"; "gun"]);
    ("Time", ["time"; "ramp"; "dinosaur"; "sentinel"; "sandstorm"; "amber"]);
    ("Justice", ["justice"; "armor"; "valkyrie"; "enforcer"; "law"; "order"]);
    ("Primal", ["primal"; "spell"; "wisdom"; "ice"; "yeti"; "unseen"; "lightning"]);
    ("Shadow", ["shadow"; "kill"; "death"; "void"; "reanimator"; "stonescar"; "umbren"]) ].

Definition MECHANIC_PATTERNS : list (string * list string) :=
  [ ("removal", ["removal"; "kill"; "destroy"; "vanquish"; "harsh rule"; "board wipe"]);
    ("card_draw", ["draw"; "card advantage"; "wisdom"; "strategize"; "selection"]);
    ("ramp", ["ramp"; "power"; "accelerate"; "seek power"; "influence"]);
    ("burn", ["burn"; "damage"; "torch"; "flame blast"; "direct damage"]);
    ("flying", ["flying"; "flyer"; "aerial"; "airborne"; "wings"]);
    ("weapons", ["weapon"; "relic weapon"; "sword"; "hammer"; "gun"]);
    ("void", ["void"; "graveyard"; "recursion"; "reanimator"; "death"]);
    ("tribal", ["tribal"; "synergy"; "lord"; "matters"]);
    ("sacrifice", ["sacrifice"; "sac"; "combust"; "devour"]);
    ("lifegain", ["lifegain"; "life"; "heal"; "lifesteal"]);
    ("market", ["market"; "merchant"; "smuggler"; "etchings"; "bargain"]) ].

Definition tribal_keywords : list string :=
  ["valkyrie"; "oni"; "yeti"; "grenadin"; "sentinel"; "dragon"].

(** [any(pattern in text for pattern in patterns)] *)
Definition any_in (patterns : list string) (text : string) : bool :=
  existsb (fun pattern => contains pattern text) patterns.

(** [s.capitalize()] *)
Definition capitalize (s : string) : string :=
  match s with
  | EmptyString => EmptyString
  | String c s' => String (upper_ascii c) (lower s')
  end.

(** [StrategyAnalysis()] *)
Definition default_analysis : StrategyAnalysis :=
  {| archetype := "midrange"; speed := "medium"; primary_faction := None;
     secondary_factions := []; key_mechanics := []; tribal_focus := None;
     must_include_cards := []; market_preference := true;
     preferred_win_conditions := []; confidence_score := f0_8;
     interpretation_notes := "" |}.

(** The first loop of [_detect_patterns]: the first archetype, in table
    order, one of whose patterns occurs; the loop leaves the default when
    none does. *)
Fixpoint detect_archetype (table : list (string * list string)) (input_lower : string)
    (current : string) : string :=
  match table with
  | [] => current
  | (archetype, patterns) :: rest =>
      if any_in patterns input_lower then archetype
      else detect_archetype rest input_lower current
  end.

(** The keys of a pattern table one of whose patterns occurs, in table
    order: [detected_factions], and the mechanics found. *)
Definition detected (table : list (string * list string)) (input_lower : string)
  : list string :=
  (filter (fun entry => any_in entry.2 input_lower) table).*1.

Definition _detect_patterns (user_input : string) : StrategyAnalysis :=
  let input_lower := lower user_input in
  let analysis := default_analysis in
  let archetype_ := detect_archetype ARCHETYPE_PATTERNS input_lower (archetype analysis) in
  let detected_factions := detected FACTION_PATTERNS input_lower in
  let primary := match detected_factions with
                 | [] => primary_faction analysis
                 | first :: _ => Some first
                 end in
  let secondary := match detected_factions with
                   | [] => secondary_factions analysis
                   | _ => take 2 (drop 1 detected_factions)
                   end in
  let mechanics := key_mechanics analysis ++ detected MECHANIC_PATTERNS input_lower in
  let '(tribal, mechanics) :=
    fold_left (fun '(focus, mechanics) tribal =>
                 if contains tribal input_lower then
                   (Some (capitalize tribal),
                    if bool_decide ("tribal" ∈ mechanics) then mechanics
                    else mechanics ++ ["tribal"])
                 else (focus, mechanics))
              tribal_keywords (tribal_focus analysis, mechanics) in
  let speed_ := if String.eqb archetype_ "aggro" then "fast"
                else if String.eqb archetype_ "control" then "slow"
                else "medium" in
  let market := if contains "no market" input_lower || contains "without market" input_lower
                then false else market_preference analysis in
  {| archetype := archetype_; speed := speed_; primary_faction := primary;
     secondary_factions := secondary; key_mechanics := mechanics;
     tribal_focus := tribal; must_include_cards := must_include_cards analysis;
     market_preference := market;
     preferred_win_conditions := preferred_win_conditions analysis;
     confidence_score := confidence_score analysis;
     interpretation_notes := interpretation_notes analysis |}.

(** *** Knowledge *)

(** [MECHANICAL_PACKAGES] of [knowledge/eternal_synergies.py], each package
    with its [core_mechanics], the one entry that the scout reads. *)
Definition MECHANICAL_PACKAGES : list (string * list string) :=
  [ ("aggressive_burn", ["direct damage spells"; "charge units"; "overwhelm"]);
    ("go_wide_tokens", ["token generation"; "unit buffs"; "mass pump effects"]);
    ("weapons_matter", ["weapon generation"; "weapon buffs"; "warcry"]);
    ("void_recursion", ["self-mill"; "void interaction"; "reanimation"]);
    ("spell_combo", ["spell cost reduction"; "spell copying"; "card draw"]);
    ("ramp_fatties", ["power acceleration"; "cost reduction"; "big units"]) ].

Definition keyword_mapping : list (string * string) :=
  [ ("aggro", "aggressive_burn"); ("burn", "aggressive_burn");
    ("tokens", "go_wide_tokens"); ("weapons", "weapons_matter");
    ("void", "void_recursion"); ("graveyard", "void_recursion");
    ("spell", "spell_combo"); ("combo", "spell_combo");
    ("ramp", "ramp_fatties"); ("control", "ramp_fatties") ].

Fixpoint package_get (table : list (string * list string)) (k : string)
  : option (list string) :=
  match table with
  | [] => None
  | (k', v) :: rest => if String.eqb k' k then Some v else package_get rest k
  end.

(** [get_package_for_strategy]: the package of the first keyword, in
    mapping order, that occurs in the strategy; [None] stands for the empty
    dictionary. *)
Fixpoint package_for (mapping : list (string * string)) (strategy_lower : string)
  : option (list string) :=
  match mapping with
  | [] => None
  | (keyword, package_name) :: rest =>
      if contains keyword strategy_lower
      then package_get MECHANICAL_PACKAGES package_name
      else package_for rest strategy_lower
  end.

Definition get_package_for_strategy (strategy : string) : option (list string) :=
  package_for keyword_mapping (lower strategy).

(** [if x not in l: l.append(x)] *)
Definition append_new (l : list string) (x : string) : list string :=
  if bool_decide (x ∈ l) then l else l ++ [x].

Section Enrich.

(** [get_skills_by_archetype] of [knowledge/eternal_skills.py], read from the
    skill tables. *)
Variable get_skills_by_archetype : string -> list string.

Definition _enrich_with_knowledge (strategy : StrategyAnalysis) : StrategyAnalysis :=
  let mechanics := key_mechanics strategy in
  let mechanics :=
    if truthy (archetype strategy) then
      let relevant_skills := get_skills_by_archetype (archetype strategy) in
      fold_left (fun mechanics skill => append_new mechanics (lower skill))
                (take 5 relevant_skills) mechanics
    else mechanics in
  let mechanics :=
    match get_package_for_strategy (archetype strategy) with
    | Some core_mechanics => fold_left append_new core_mechanics mechanics
    | None => mechanics
    end in
  {| archetype := archetype strategy; speed := speed strategy;
     primary_faction := primary_faction strategy;
     secondary_factions := secondary_factions strategy;
     key_mechanics := mechanics; tribal_focus := tribal_focus strategy;
     must_include_cards := must_include_cards strategy;
     market_preference := market_preference strategy;
     preferred_win_conditions := preferred_win_conditions strategy;
     confidence_score := confidence_score strategy;
     interpretation_notes := interpretation_notes strategy |}.

(** *** Queries *)

(** The last loop of [_create_search_queries]: the first entry per query
    text. *)
Definition unique_queries (queries : list search_query) : list search_query :=
  (fold_left (fun '(seen, unique) q =>
                if decide (q_query q ∉ seen)
                then (seen ∪ {[q_query q]}, unique ++ [q])
                else (seen, unique))
             queries ((∅ : gset string), [])).2.

Definition _create_search_queries (strategy : StrategyAnalysis) (original_input : string)
  : list search_query :=
  let queries := [ {| q_query := original_input; q_purpose := "original_input" |} ] in
  let queries :=
    match primary_faction strategy with
    | Some primary =>
        if truthy primary then
          let archetype_query := archetype strategy +:+ " " +:+ primary in
          let archetype_query :=
            match secondary_factions strategy with
            | [] => archetype_query
            | _ => archetype_query +:+ " " +:+ join " " (secondary_factions strategy)
            end in
          queries ++ [ {| q_query := archetype_query; q_purpose := "archetype_faction" |} ]
        else queries
    | None => queries
    end in
  let queries :=
    fold_left (fun queries mechanic =>
                 let mechanic_query :=
                   match primary_faction strategy with
                   | Some primary =>
                       if truthy primary then mechanic +:+ " " +:+ primary else mechanic
                   | None => mechanic
                   end in
                 queries ++ [ {| q_query := mechanic_query;
                                 q_purpose := "mechanic_" +:+ mechanic |} ])
              (take 3 (key_mechanics strategy)) queries in
  let queries :=
    match tribal_focus strategy with
    | Some tribal =>
        if truthy tribal then
          queries ++ [ {| q_query := tribal +:+ " tribal synergy";
                          q_purpose := "tribal_focus" |} ]
        else queries
    | None => queries
    end in
  let queries :=
    queries ++ map (fun win_con => {| q_query := win_con; q_purpose := "win_condition" |})
                   (preferred_win_conditions strategy) in
  let queries :=
    if String.eqb (archetype strategy) "aggro" then
      queries ++ [ {| q_query := "charge haste aggressive one drop";
                      q_purpose := "aggro_core" |} ]
    else if String.eqb (archetype strategy) "control" then
      queries ++ [ {| q_query := "board wipe removal draw"; q_purpose := "control_core" |} ]
    else if String.eqb (archetype strategy) "combo" then
      queries ++ [ {| q_query := "combo piece engine"; q_purpose := "combo_core" |} ]
    else queries in
  unique_queries queries.

(** *** The whole run *)

(** The [search_metadata] dictionary of a run, one field per key. *)
Record search_metadata := {
  meta_queries_executed : Z;
  meta_filters_applied : option SearchFilters;
  meta_user_input : string;
  meta_unique_cards : Z;
}.

(** [ScoutResult]; the clock field [execution_time] is left out. *)
Record ScoutResult := {
  strategy : StrategyAnalysis;
  card_pool : list Card;
  pool_size : Z;
  metadata : search_metadata;
}.

(** [analyze_and_scout].  [run] is the outcome of the model call inside
    [_analyze_strategy].  [_create_base_filters] changes the caller's filter
    record in place, so the record that the metadata holds is the changed
    one. *)
Definition analyze_and_scout (engine : SearchEngine) (run : py RunResponse)
    (user_input : string) (additional_filters : option SearchFilters)
  : py ScoutResult :=
  let strategy := refine_analysis run (_detect_patterns user_input) in
  let strategy := _enrich_with_knowledge strategy in
  let search_queries := _create_search_queries strategy user_input in
  card_pool ← _execute_searches engine search_queries strategy additional_filters;
  let final_pool := _organize_card_pool card_pool strategy in
  mret {| strategy := strategy;
          card_pool := final_pool;
          pool_size := Z.of_nat (length final_pool);
          metadata :=
            {| meta_queries_executed := Z.of_nat (length search_queries);
               meta_filters_applied :=
                 match additional_filters with
                 | Some _ => Some (_create_base_filters strategy additional_filters)
                 | None => None
                 end;
               meta_user_input := user_input;
               meta_unique_cards :=
                 Z.of_nat (size (list_to_set (name <$> final_pool) : gset string)) |} |}.

End Enrich.

End Scout.

(** ** The vocabulary of the specification *)

Module Spec.
Import Config Models Sheets Search Scout.

(** [p] occurs in [s]: the meaning of the substring test. *)
Definition occurs_in (p s : string) : Prop :=
  exists pre post, s = pre +:+ p +:+ post.

(** Two names match case-insensitively. *)
Definition same_name (a b : string) : Prop := lower a = lower b.

(** A card that costs at least [min_cost] and at most [max_cost], for the
    bounds that are set. *)
Definition cost_in_range (filters : SearchFilters) (c : Card) : Prop :=
  (forall m, min_cost filters = Some m -> m ≤ cost c) /\
  (forall m, max_cost filters = Some m -> cost c ≤ m).

(** The faction symbols that occur in the influence string of a card. *)
Definition card_faction_symbols (c : Card) : gset string :=
  list_to_set (filter (fun symbol => contains symbol (influence c) = true)
                      ["{F}"; "{T}"; "{J}"; "{P}"; "{S}"]).

(** The symbols of the factions named in a list. *)
Definition symbols_of_factions (factions : list string) : gset string :=
  list_to_set (omap (dict_get FACTION_SYMBOLS) factions).

(** The faction count respects the limit, when a nonzero limit is set. *)
Definition within_max_factions (limit : option Z) (count : nat) : Prop :=
  match limit with
  | Some m => m = 0 \/ Z.of_nat count ≤ m
  | None => True
  end.

#[export] Instance within_max_factions_dec limit count :
  Decision (within_max_factions limit count).
Proof. destruct limit; apply _. Defined.

(** The cards that the faction filter is to keep. *)
Definition passes_faction_filter (filters : SearchFilters) (c : Card) : Prop :=
  card_faction_symbols c ⊆ symbols_of_factions (items (allowed_factions filters)) /\
  within_max_factions (max_factions_per_card filters) (size (card_faction_symbols c)).

(** A name is in the card cache of the engine. *)
Definition in_cache (self : SearchEngine) (required : string) : Prop :=
  exists c, c ∈ all_cards self /\ same_name (name c) required.

(** A list holds a card of the given name. *)
Definition has_card_named (l : list Card) (required : string) : Prop :=
  exists c, c ∈ l /\ same_name (name c) required.

(** No must-exclude entry matches the name. *)
Definition not_excluded (filters : SearchFilters) (required : string) : Prop :=
  forall x, x ∈ items (must_exclude filters) -> ~ same_name required x.

(** The list that [search] cuts to [n_results]: the path's results after the
    must-include and the must-exclude steps. *)
Definition before_cut (self : SearchEngine) (filters : SearchFilters)
    (results : list Card) : list Card :=
  _apply_exclusions
    (_ensure_must_include self results (items (must_include filters)))
    (items (must_exclude filters)).

(** The text of the [DeckBuildable] cell: empty when the cell is missing,
    none when the cell is a number. *)
Definition flag_text (r : row) : option string :=
  match r !! "DeckBuildable" with
  | None => Some ""
  | Some (CStr s) => Some s
  | Some (CInt _) => None
  end.

(** The [DeckBuildable] cell uppercases to "TRUE". *)
Definition flagged_buildable (r : row) : Prop :=
  exists s, r !! "DeckBuildable" = Some (CStr s) /\ upper s = "TRUE".

(** The [Name] cell is missing or empty. *)
Definition name_empty (r : row) : Prop := get_truthy r "Name" = false.

(** The cards of all four buckets, in the order of the pool. *)
Definition bucket_cards (b : buckets) : list Card :=
  b_must_include b ++ core_cards b ++ synergy_cards b ++ support_cards b.

(** The collected cards and the seen names agree, and no name repeats. *)
Definition unique_names (acc : list Card * gset string) : Prop :=
  NoDup (name <$> acc.1) /\ forall n, n ∈ acc.2 <-> n ∈ name <$> acc.1.

(** *** The post-filter chain as one test per card *)

Definition min_cost_ok (filters : SearchFilters) (c : Card) : Prop :=
  match min_cost filters with
  | Some m => m ≤ cost c
  | None => True
  end.

Definition max_cost_ok (filters : SearchFilters) (c : Card) : Prop :=
  match max_cost filters with
  | Some m => cost c ≤ m
  | None => True
  end.

(** Some unit type of the card equals, up to case, a requested one. *)
Definition unit_type_ok (filters : SearchFilters) (c : Card) : Prop :=
  truthy_list (Search.unit_types filters) = true ->
  Exists (fun ut => lower ut ∈ lower <$> items (Search.unit_types filters))
         (Models.unit_types c).

Definition faction_ok (filters : SearchFilters) (c : Card) : Prop :=
  truthy_list (allowed_factions filters) = true -> passes_faction_filter filters c.

Definition post_filter_ok (filters : SearchFilters) (c : Card) : Prop :=
  min_cost_ok filters c /\ max_cost_ok filters c /\
  unit_type_ok filters c /\ faction_ok filters c.

#[export] Instance min_cost_ok_dec filters c : Decision (min_cost_ok filters c).
Proof. unfold min_cost_ok. destruct (min_cost filters); apply _. Defined.

#[export] Instance max_cost_ok_dec filters c : Decision (max_cost_ok filters c).
Proof. unfold max_cost_ok. destruct (max_cost filters); apply _. Defined.

#[export] Instance unit_type_ok_dec filters c : Decision (unit_type_ok filters c).
Proof. unfold unit_type_ok. apply _. Defined.

#[export] Instance faction_ok_dec filters c : Decision (faction_ok filters c).
Proof. unfold faction_ok, passes_faction_filter. apply _. Defined.

#[export] Instance post_filter_ok_dec filters c : Decision (post_filter_ok filters c).
Proof. unfold post_filter_ok. apply _. Defined.

(** Two filter sets that agree on every field the post-filter chain reads. *)
Definition same_post_fields (f g : SearchFilters) : Prop :=
  min_cost f = min_cost g /\ max_cost f = max_cost g /\
  Search.unit_types f = Search.unit_types g /\
  allowed_factions f = allowed_factions g /\
  max_factions_per_card f = max_factions_per_card g.

(** *** The sheet client *)

(** The cards that a list of rows parses to, in row order. *)
Definition parsed_cards (rows : list row) : list Card :=
  omap (fun r => match _parse_card_row r with
                 | Return (Some card) => Some card
                 | _ => None
                 end) rows.

(** The test that [search_cards] applies to one card. *)
Definition search_cards_ok (name card_type : option string) (cost_max : option Z)
    (factions : option (list string)) (rarity text_contains : option string)
    (c : Card) : Prop :=
  (arg_truthy name = true ->
   occurs_in (lower (default "" name)) (lower (Models.name c))) /\
  (arg_truthy card_type = true -> same_name (default "" card_type) (type c)) /\
  (forall m, cost_max = Some m -> cost c ≤ m) /\
  (truthy_list factions = true ->
   exists f, f ∈ items factions /\ occurs_in (symbol_or_self f) (influence c)) /\
  (arg_truthy rarity = true -> same_name (default "" rarity) (Models.rarity c)) /\
  (arg_truthy text_contains = true ->
   occurs_in (lower (default "" text_contains)) (lower (card_text c))).

(** *** The sections of the organised pool *)

Inductive section := InMustInclude | InCore | InSynergy | InSupport.

#[export] Instance section_eq_dec : EqDecision section.
Proof. solve_decision. Defined.

(** The section that [_organize_card_pool] puts a card in. *)
Definition section_of (strategy : StrategyAnalysis) (card : Card) : section :=
  if bool_decide (name card ∈ must_include_cards strategy) then InMustInclude
  else if is_power card then InSupport
  else if PrimFloat.leb f0_8 (_calculate_relevance card strategy) then InCore
  else if PrimFloat.leb f0_5 (_calculate_relevance card strategy) then InSynergy
  else InSupport.

(** The cards of one section, in the order of the input. *)
Definition section_cards (strategy : StrategyAnalysis) (sec : section)
    (cards : list Card) : list Card :=
  filter (fun c => section_of strategy c = sec) cards.

(** No card costs more than a later one. *)
Definition by_cost (l : list Card) : Prop :=
  StronglySorted (fun a b => cost a ≤ cost b) l.

(** The place of a section in the organised pool. *)
Definition section_rank (sec : section) : nat :=
  match sec with
  | InMustInclude => 0
  | InCore => 1
  | InSynergy => 2
  | InSupport => 3
  end.

(** A list is in bucket order when no card comes before a card of an
    earlier section. *)
Definition in_bucket_order (strategy : StrategyAnalysis) (l : list Card) : Prop :=
  StronglySorted (fun a b => (section_rank (section_of strategy a) <=
                              section_rank (section_of strategy b))%nat) l.

(** *** Decks *)

(** Every quantity of the deck is one that the [DeckCard] constructor
    accepts. *)
Definition valid_quantities (l : list Decks.DeckCard) : Prop :=
  Forall (fun dc => 1 ≤ Decks.quantity dc ≤ 4) l.

(** The total quantity of the deck cards that pass a test. *)
Fixpoint quantity_where (keep : Decks.DeckCard -> bool) (l : list Decks.DeckCard) : Z :=
  match l with
  | [] => 0
  | dc :: l' => (if keep dc then Decks.quantity dc else 0) + quantity_where keep l'
  end.

(** A text mentions a key of a pattern table when one of the key's patterns
    occurs in the lower-case form of the text. *)
Definition mentions (table : list (string * list string)) (key text : string) : Prop :=
  exists patterns p, (key, patterns) ∈ table /\ p ∈ patterns /\ occurs_in p (lower text).

(** The query text for a mechanic: the mechanic, followed by the primary
    faction when there is one. *)
Definition mechanic_query (strategy : StrategyAnalysis) (mechanic : string) : string :=
  match primary_faction strategy with
  | Some primary => if truthy primary then mechanic +:+ " " +:+ primary else mechanic
  | None => mechanic
  end.

(** The query text for the archetype and the factions. *)
Definition archetype_query (strategy : StrategyAnalysis) (primary : string) : string :=
  match secondary_factions strategy with
  | [] => Scout.archetype strategy +:+ " " +:+ primary
  | _ => (Scout.archetype strategy +:+ " " +:+ primary) +:+ " " +:+
         join " " (secondary_factions strategy)
  end.

(** The texts that the scout searches for. *)
Definition query_text (strategy : StrategyAnalysis) (original_input x : string) : Prop :=
  x = original_input \/
  (exists primary, primary_faction strategy = Some primary /\ primary <> "" /\
                   x = archetype_query strategy primary) \/
  (exists mechanic, mechanic ∈ take 3 (key_mechanics strategy) /\
                    x = mechanic_query strategy mechanic) \/
  (exists tribal, tribal_focus strategy = Some tribal /\ tribal <> "" /\
                  x = tribal +:+ " tribal synergy") \/
  x ∈ preferred_win_conditions strategy \/
  (Scout.archetype strategy = "aggro" /\ x = "charge haste aggressive one drop") \/
  (Scout.archetype strategy = "control" /\ x = "board wipe removal draw") \/
  (Scout.archetype strategy = "combo" /\ x = "combo piece engine").

(** *** Sentences of the specification as they are worded, each at one
        call *)

(** Must-include names that are cached are all among the returned cards. *)
Definition must_include_all_present (self : SearchEngine) (q : string)
    (filters : SearchFilters) (n_results : Z) : Prop :=
  forall r, search self q (Some filters) n_results = Return r ->
  forall x, x ∈ items (must_include filters) -> in_cache self x ->
            has_card_named (cards r) x.

(** An empty query takes the browse path. *)
Definition empty_query_browses (self : SearchEngine) (filters : SearchFilters)
    (n_results : Z) : Prop :=
  search_strategy self "" filters n_results =
  Return (_browse_with_filters self filters n_results, "Browsing com filtros", false).

(** Every returned card is within the cost bounds. *)
Definition all_within_cost (self : SearchEngine) (q : string)
    (filters : SearchFilters) (n_results : Z) : Prop :=
  forall r, search self q (Some filters) n_results = Return r ->
  forall c, c ∈ cards r -> cost_in_range filters c.

(** A card without faction symbols passes the faction filter. *)
Definition symbolless_card_passes (cards : list Card) (filters : SearchFilters)
    (c : Card) : Prop :=
  c ∈ cards -> card_faction_symbols c = ∅ -> c ∈ _filter_by_factions cards filters.

(** At most [n_results] cards are returned. *)
Definition at_most_n_results (self : SearchEngine) (q : string)
    (filters : option SearchFilters) (n_results : Z) : Prop :=
  forall r, search self q filters n_results = Return r ->
            Z.of_nat (length (cards r)) ≤ n_results.


(** A row that is not flagged buildable, or has no name, gives [None]. *)
Definition none_unless_flagged (r : row) : Prop :=
  ~ flagged_buildable r \/ name_empty r -> _parse_card_row r = Return None.

End Spec.

(** ** Sample data *)

Module Samples.
Import Models Sheets Search Scout.

Definition card (n : string) (c : Z) (i t txt : string) : Card :=
  {| name := n; cost := c; influence := i; type := t; card_text := txt;
     rarity := "Common"; deck_buildable := true; set_number := "1";
     attack := None; health := None; eternal_id := None; image_url := None;
     Models.unit_types := []; set_name := None |}.

Definition torch : Card := card "Torch" 1 "{F}" "Spell" "Deal 3 damage.".
Definition harsh_rule : Card := card "Harsh Rule" 5 "{J}{J}" "Spell" "Kill each unit.".
Definition fire_sigil : Card := card "Fire Sigil" 0 "{F}" "Power" "".
Definition seek_power : Card := card "Seek Power" 1 "" "Spell" "Draw a sigil.".
Definition merchant : Card :=
  card "Ixtun Merchant" 3 "{F}{P}" "Unit" "Summon: swap a card with one in your Market.".

(** An engine without a vector store. *)
Definition offline : SearchEngine :=
  {| chromadb_available := false;
     collection_query := fun _ _ _ => Raise StoreError;
     all_cards := [torch; harsh_rule; fire_sigil; seek_power; merchant] |}.

(** An engine whose vector store answers every query with two names. *)
Definition online : SearchEngine :=
  {| chromadb_available := true;
     collection_query := fun _ _ _ =>
       Return [ {[ "name" := "Harsh Rule" ]}; {[ "name" := "Torch" ]} ];
     all_cards := [torch; harsh_rule; fire_sigil; seek_power; merchant] |}.

Definition with_include (l : list string) (f : SearchFilters) : SearchFilters :=
  {| allowed_factions := allowed_factions f;
     max_factions_per_card := max_factions_per_card f;
     format := format f; max_rarity := max_rarity f;
     Search.archetype := Search.archetype f;
     min_cost := min_cost f; max_cost := max_cost f;
     card_types := card_types f; Search.unit_types := Search.unit_types f;
     must_include := Some l; must_exclude := must_exclude f;
     include_market := include_market f;
     market_access_only := market_access_only f |}.

Definition with_exclude (l : list string) (f : SearchFilters) : SearchFilters :=
  {| allowed_factions := allowed_factions f;
     max_factions_per_card := max_factions_per_card f;
     format := format f; max_rarity := max_rarity f;
     Search.archetype := Search.archetype f;
     min_cost := min_cost f; max_cost := max_cost f;
     card_types := card_types f; Search.unit_types := Search.unit_types f;
     must_include := must_include f; must_exclude := Some l;
     include_market := include_market f;
     market_access_only := market_access_only f |}.

Definition with_cost (lo hi : option Z) (f : SearchFilters) : SearchFilters :=
  {| allowed_factions := allowed_factions f;
     max_factions_per_card := max_factions_per_card f;
     format := format f; max_rarity := max_rarity f;
     Search.archetype := Search.archetype f;
     min_cost := lo; max_cost := hi;
     card_types := card_types f; Search.unit_types := Search.unit_types f;
     must_include := must_include f; must_exclude := must_exclude f;
     include_market := include_market f;
     market_access_only := market_access_only f |}.

Definition with_factions (l : list string) (limit : option Z) (f : SearchFilters)
  : SearchFilters :=
  {| allowed_factions := Some l;
     max_factions_per_card := limit;
     format := format f; max_rarity := max_rarity f;
     Search.archetype := Search.archetype f;
     min_cost := min_cost f; max_cost := max_cost f;
     card_types := card_types f; Search.unit_types := Search.unit_types f;
     must_include := must_include f; must_exclude := must_exclude f;
     include_market := include_market f;
     market_access_only := market_access_only f |}.

Definition aggro_fire : StrategyAnalysis :=
  {| Scout.archetype := "aggro"; speed := "fast"; primary_faction := Some "Fire";
     secondary_factions := []; key_mechanics := ["damage"; "deal"];
     tribal_focus := None; must_include_cards := ["Harsh Rule"];
     market_preference := true; preferred_win_conditions := [];
     confidence_score := f0_8; interpretation_notes := "" |}.

(** A control strategy whose mechanics all occur in the text of Harsh Rule. *)
Definition kill_control : StrategyAnalysis :=
  {| Scout.archetype := "control"; speed := "slow"; primary_faction := Some "Justice";
     secondary_factions := []; key_mechanics := ["kill"; "each"; "unit"; "kill each"];
     tribal_focus := None; must_include_cards := [];
     market_preference := true; preferred_win_conditions := [];
     confidence_score := f0_8; interpretation_notes := "" |}.

Definition torch_row : row :=
  {[ "DeckBuildable" := CStr "true"; "Name" := CStr " Torch "; "Cost" := CInt 1;
     "Type" := CStr "Spell"; "CardText" := CStr "Deal <b>3</b> damage.";
     "Influence" := CStr "{F}"; "SetNumber" := CInt 1 ]}.

Definition numeric_flag_row : row :=
  {[ "DeckBuildable" := CInt 1; "Name" := CStr "Torch"; "Cost" := CInt 1;
     "Type" := CStr "Spell" ]}.

Definition hidden_row : row :=
  {[ "DeckBuildable" := CStr "FALSE"; "Name" := CStr "Token"; "Cost" := CInt 0;
     "Type" := CStr "Unit" ]}.

Definition with_types (l : list string) (rar : option string) (f : SearchFilters)
  : SearchFilters :=
  {| allowed_factions := allowed_factions f;
     max_factions_per_card := max_factions_per_card f;
     format := format f; max_rarity := rar;
     Search.archetype := Search.archetype f;
     min_cost := min_cost f; max_cost := max_cost f;
     card_types := Some l; Search.unit_types := Search.unit_types f;
     must_include := must_include f; must_exclude := must_exclude f;
     include_market := include_market f;
     market_access_only := market_access_only f |}.

Definition burn_deck : Decks.Deck :=
  {| Decks.name := "Burn"; Decks.description := None;
     Decks.main_deck :=
       [ {| Decks.card := torch; Decks.quantity := 4 |};
         {| Decks.card := fire_sigil; Decks.quantity := 3 |};
         {| Decks.card := seek_power; Decks.quantity := 2 |};
         {| Decks.card := merchant; Decks.quantity := 4 |} ];
     Decks.market := None; Decks.format := "Throne"; Decks.archetype := Some "Aggro" |}.

End Samples.

(** ** Strings *)

Import Config Models Sheets Search Scout Spec.

Lemma append_cons (a : ascii) (p q : string) :
  String a p +:+ q = String a (p +:+ q).
Proof. reflexivity. Qed.

Lemma append_nil (q : string) : "" +:+ q = q.
Proof. reflexivity. Qed.

Lemma prefix_occurs (p s : string) :
  String.prefix p s = true <-> exists post, s = p +:+ post.
Proof.
  revert s. induction p as [|a p IH]; intros [|b s]; simpl.
  - split; [intros _; exists ""; reflexivity | reflexivity].
  - split; [intros _; exists (String b s); reflexivity | reflexivity].
  - split; [discriminate | intros [post H]; discriminate].
  - destruct (Ascii.ascii_dec a b) as [Heq|Hne].
    + subst b. rewrite IH. split; intros [post H]; exists post.
      * rewrite append_cons. now rewrite H.
      * rewrite append_cons in H. now inversion H.
    + split; [discriminate |].
      intros [post H]. rewrite append_cons in H. congruence.
Qed.

Lemma contains_nil (p : string) : contains p "" = String.prefix p "" || false.
Proof. reflexivity. Qed.

Lemma contains_cons (p : string) (b : ascii) (s : string) :
  contains p (String b s) = String.prefix p (String b s) || contains p s.
Proof. reflexivity. Qed.

Lemma contains_occurs (p s : string) : contains p s = true <-> occurs_in p s.
Proof.
  unfold occurs_in. induction s as [|b s IH].
  - rewrite contains_nil, orb_false_r, prefix_occurs. split.
    + intros [post H]. exists "", post. exact H.
    + intros (pre & post & H). destruct pre as [|a pre].
      * exists post. exact H.
      * rewrite append_cons in H. discriminate.
  - rewrite contains_cons, orb_true_iff, prefix_occurs, IH. split.
    + intros [[post H] | (pre & post & H)].
      * exists "", post. exact H.
      * exists (String b pre), post. rewrite append_cons. now rewrite H.
    + intros (pre & post & H). destruct pre as [|a pre].
      * left. exists post. exact H.
      * right. rewrite append_cons in H. inversion H; subst.
        exists pre, post. reflexivity.
Qed.

Lemma truthy_nonempty (s : string) : truthy s = true <-> s <> "".
Proof. destruct s; simpl; split; congruence. Qed.

(** ** Card flags *)

Lemma is_power_lower (c : Card) : is_power c = true <-> lower (type c) = "power".
Proof. unfold is_power. apply String.eqb_eq. Qed.

(** C7.  A card is a sigil exactly when its type is "power" up to case and
    its lowercased name holds "sigil"; every sigil is a power card. *)
Theorem is_sigil_iff (c : Card) :
  (is_sigil c = true <->
     same_name (type c) "power" /\ occurs_in "sigil" (lower (name c))) /\
  (is_sigil c = true -> is_power c = true).
Proof.
  unfold is_sigil, same_name. split.
  - rewrite andb_true_iff, is_power_lower, contains_occurs. reflexivity.
  - intros H. apply andb_true_iff in H. tauto.
Qed.

Lemma is_sigil_iff_witness :
  is_sigil Samples.fire_sigil = true /\ is_power Samples.fire_sigil = true.
Proof.
  split; [reflexivity |].
  apply (proj2 (is_sigil_iff Samples.fire_sigil)). reflexivity.
Defined.

(** C8.  A card grants market access exactly when its text is not empty and
    the lowercased text holds "your market", "from your market" or "in your
    market"; a card with empty text never does. *)
Theorem can_access_market_iff (c : Card) :
  (can_access_market c = true <->
     card_text c <> "" /\
     (occurs_in "your market" (lower (card_text c)) \/
      occurs_in "from your market" (lower (card_text c)) \/
      occurs_in "in your market" (lower (card_text c)))) /\
  (card_text c = "" -> can_access_market c = false).
Proof.
  unfold can_access_market. split.
  - destruct (truthy (card_text c)) eqn:Ht; simpl.
    + apply truthy_nonempty in Ht.
      rewrite orb_false_r, !orb_true_iff, !contains_occurs. tauto.
    + split; [discriminate |]. intros [Hne _].
      apply truthy_nonempty in Hne. congruence.
  - intros ->. reflexivity.
Qed.

Lemma can_access_market_iff_witness :
  can_access_market Samples.merchant = true /\
  can_access_market Samples.fire_sigil = false.
Proof.
  split.
  - apply (proj1 (can_access_market_iff Samples.merchant)). split; [discriminate |].
    left. apply contains_occurs. reflexivity.
  - apply (proj2 (can_access_market_iff Samples.fire_sigil)). reflexivity.
Defined.

(** ** The language-model step *)

(** C5.  Parsing the model's answer gives back the initial analysis, and so
    does the whole refinement step, whatever the model call yields. *)
Theorem parse_ai_response_identity :
  (forall response initial, _parse_ai_response response initial = initial) /\
  (forall run initial, refine_analysis run initial = initial).
Proof.
  split.
  - reflexivity.
  - intros [response | e] initial; reflexivity.
Qed.

#[local] Set Warnings "-clear-no-such-hyp".

(** ** Loops as list operations *)

(** A loop that appends the elements it keeps is a filter. *)
Lemma fold_left_keep {A} (P : A -> Prop) `{!forall x, Decision (P x)}
    (step : list A -> A -> list A) :
  (forall r x, step r x = if decide (P x) then r ++ [x] else r) ->
  forall l acc, fold_left step l acc = acc ++ filter P l.
Proof.
  intros Hstep l. induction l as [|x l IH]; intros acc; simpl.
  - now rewrite app_nil_r.
  - rewrite IH, Hstep, filter_cons. destruct (decide (P x)).
    + now rewrite <- app_assoc.
    + reflexivity.
Qed.

(** A loop that adds the elements it keeps to a set collects a filter. *)
Lemma fold_left_collect (keep : string -> bool) (l : list string) (acc : gset string) :
  fold_left (fun acc s => if keep s then acc ∪ {[s]} else acc) l acc =
  acc ∪ list_to_set (filter (fun s => keep s = true) l).
Proof.
  revert acc. induction l as [|x l IH]; intros acc; simpl.
  - set_solver.
  - rewrite IH, filter_cons. destruct (keep x) eqn:Hk.
    + rewrite decide_True by reflexivity. set_solver.
    + rewrite decide_False by discriminate. reflexivity.
Qed.

(** ** The faction filter *)

Lemma faction_symbol_truthy (faction symbol : string) :
  dict_get FACTION_SYMBOLS faction = Some symbol -> truthy symbol = true.
Proof.
  unfold FACTION_SYMBOLS. cbn -[String.eqb].
  repeat match goal with
         | |- context [String.eqb ?a ?b] => destruct (String.eqb a b)
         end; intros H; inversion H; reflexivity.
Qed.

Lemma omap_cons {A B} (f : A -> option B) (x : A) (l : list A) :
  omap f (x :: l) = match f x with
                    | Some y => y :: omap f l
                    | None => omap f l
                    end.
Proof. reflexivity. Qed.

Lemma allowed_symbols_loop (factions : list string) (acc : gset string) :
  fold_left (fun acc faction =>
               match dict_get FACTION_SYMBOLS faction with
               | Some symbol => if truthy symbol then acc ∪ {[symbol]} else acc
               | None => acc
               end) factions acc =
  acc ∪ symbols_of_factions factions.
Proof.
  unfold symbols_of_factions. revert acc.
  induction factions as [|x l IH]; intros acc.
  - cbn. set_solver.
  - cbn [fold_left]. rewrite IH, omap_cons.
    destruct (dict_get FACTION_SYMBOLS x) as [symbol|] eqn:Hget.
    + rewrite (faction_symbol_truthy _ _ Hget). set_solver.
    + reflexivity.
Qed.

Lemma card_factions_loop (c : Card) :
  fold_left (fun acc symbol =>
               if contains symbol (influence c) then acc ∪ {[symbol]} else acc)
            (dict_values FACTION_SYMBOLS) (∅ : gset string) =
  card_faction_symbols c.
Proof.
  rewrite (fold_left_collect (fun s => contains s (influence c))).
  unfold card_faction_symbols. change (dict_values FACTION_SYMBOLS)
    with ["{F}"; "{T}"; "{J}"; "{P}"; "{S}"]. set_solver.
Qed.

Lemma filter_by_factions_filter (cards : list Card) (filters : SearchFilters) :
  truthy_list (allowed_factions filters) = true ->
  _filter_by_factions cards filters = filter (passes_faction_filter filters) cards.
Proof.
  intros Ht. unfold _filter_by_factions. rewrite Ht. cbn [negb]. cbv zeta.
  rewrite (fold_left_keep (passes_faction_filter filters)); [reflexivity |].
  intros r x. cbv beta. rewrite card_factions_loop, allowed_symbols_loop.
  replace (∅ ∪ symbols_of_factions (items (allowed_factions filters)))
    with (symbols_of_factions (items (allowed_factions filters))) by set_solver.
  unfold passes_faction_filter, within_max_factions.
  destruct (decide (card_faction_symbols x ⊆ _)) as [Hsub|Hsub].
  - destruct (max_factions_per_card filters) as [m|].
    + destruct (m =? 0) eqn:Hz; simpl.
      * apply Z.eqb_eq in Hz. rewrite decide_True; [reflexivity | tauto].
      * apply Z.eqb_neq in Hz.
        destruct (Z.of_nat (size (card_faction_symbols x)) <=? m) eqn:Hle.
        -- apply Z.leb_le in Hle. rewrite decide_True; [reflexivity | tauto].
        -- apply Z.leb_gt in Hle. rewrite decide_False; [reflexivity |].
           intros [_ [?|?]]; lia.
    + rewrite decide_True; [reflexivity | tauto].
  - rewrite decide_False; [reflexivity | tauto].
Qed.

Lemma filter_by_factions_subseteq (cards : list Card) (filters : SearchFilters) (c : Card) :
  c ∈ _filter_by_factions cards filters -> c ∈ cards.
Proof.
  destruct (truthy_list (allowed_factions filters)) eqn:Ht.
  - rewrite filter_by_factions_filter by exact Ht.
    rewrite list_elem_of_filter. tauto.
  - unfold _filter_by_factions. rewrite Ht. simpl. tauto.
Qed.

(** C4.  With a non-empty [allowed_factions], the faction filter keeps
    exactly the cards whose faction symbols are symbols of allowed factions
    and whose symbol count is within a nonzero [max_factions_per_card]; in
    particular a card without faction symbols passes, for every limit that
    is unset or not negative, which covers the range 1 to 5 that the field
    is documented with. *)
Theorem filter_by_factions_exact (cards : list Card) (filters : SearchFilters) :
  truthy_list (allowed_factions filters) = true ->
  _filter_by_factions cards filters = filter (passes_faction_filter filters) cards /\
  (forall c, (forall m, max_factions_per_card filters = Some m -> 0 ≤ m) ->
             symbolless_card_passes cards filters c).
Proof.
  intros Ht. split; [now apply filter_by_factions_filter |].
  intros c Hmax Hin Hnone.
  rewrite filter_by_factions_filter by exact Ht.
  apply list_elem_of_filter. split; [|exact Hin].
  unfold passes_faction_filter, within_max_factions. rewrite Hnone. split.
  - set_solver.
  - destruct (max_factions_per_card filters) as [m|]; [|exact I].
    right. rewrite size_empty. simpl. now apply Hmax.
Qed.

Lemma filter_by_factions_exact_witness :
  _filter_by_factions (all_cards Samples.offline)
    (Samples.with_factions ["Fire"] (Some 1) default_filters) =
  [Samples.torch; Samples.fire_sigil; Samples.seek_power] /\
  Samples.seek_power ∈
    _filter_by_factions (all_cards Samples.offline)
      (Samples.with_factions ["Fire"] (Some 1) default_filters).
Proof.
  pose proof (filter_by_factions_exact (all_cards Samples.offline)
                (Samples.with_factions ["Fire"] (Some 1) default_filters)
                eq_refl) as [Heq Hpass].
  split.
  - rewrite Heq. vm_compute. reflexivity.
  - apply Hpass.
    + intros m Hm. inversion Hm. lia.
    + vm_compute. repeat constructor.
    + vm_compute. reflexivity.
Defined.

(** Below the range of the field the last part needs its hypothesis: under
    a negative limit, which no caller sets, a card without faction symbols
    is dropped. *)
Lemma symbolless_card_dropped :
  ~ symbolless_card_passes [Samples.seek_power]
      (Samples.with_factions ["Fire"] (Some (-1)) default_filters)
      Samples.seek_power.
Proof.
  intros H.
  assert (Hin : Samples.seek_power ∈ [Samples.seek_power]) by constructor.
  specialize (H Hin). 
  assert (Hnone : card_faction_symbols Samples.seek_power = ∅) by (vm_compute; reflexivity).
  specialize (H Hnone). vm_compute in H. inversion H.
Qed.

(** ** Slices *)

Lemma slice_to_subseteq {A} (n : Z) (l : list A) (x : A) :
  x ∈ slice_to n l -> x ∈ l.
Proof.
  unfold slice_to. destruct (0 <=? n); apply subseteq_take.
Qed.



Lemma slice_to_all {A} (n : Z) (l : list A) :
  Z.of_nat (length l) ≤ n -> slice_to n l = l.
Proof.
  intros Hn. unfold slice_to.
  destruct (0 <=? n) eqn:H; [|apply Z.leb_gt in H; lia].
  apply take_ge. lia.
Qed.

Lemma slice_to_app_l {A} (n : Z) (l k : list A) (x : A) :
  Z.of_nat (length l) ≤ n -> x ∈ l -> x ∈ slice_to n (l ++ k).
Proof.
  intros Hn Hx. unfold slice_to.
  destruct (0 <=? n) eqn:H; [|apply Z.leb_gt in H; lia].
  rewrite take_app_ge by lia. apply elem_of_app. left. exact Hx.
Qed.

(** ** The outcome of [search], step by step *)

Lemma filter_all {A} (P : A -> Prop) `{!forall x, Decision (P x)} (l : list A) :
  (forall x, x ∈ l -> P x) -> filter P l = l.
Proof.
  induction l as [|x l IH]; intros Hall; [reflexivity |].
  rewrite filter_cons_True by (apply Hall; constructor).
  f_equal. apply IH. intros y Hy. apply Hall. now constructor.
Qed.

Lemma ensure_when_set (self : SearchEngine) (o : option (list string)) (results : list Card) :
  (if truthy_list o then _ensure_must_include self results (items o) else results) =
  _ensure_must_include self results (items o).
Proof. destruct o as [[|x l]|]; reflexivity. Qed.

Lemma exclude_when_set (o : option (list string)) (results : list Card) :
  (if truthy_list o then _apply_exclusions results (items o) else results) =
  _apply_exclusions results (items o).
Proof.
  destruct o as [[|x l]|]; try reflexivity; unfold _apply_exclusions; simpl;
    symmetry; apply filter_all; intros c _; set_solver.
Qed.

Lemma search_inv (self : SearchEngine) (q : string) (filters : option SearchFilters)
    (n : Z) (r : SearchResult) :
  search self q filters n = Return r ->
  exists results interpretation used,
    search_strategy self q (default default_filters filters) n =
      Return (results, interpretation, used) /\
    cards r = slice_to n (before_cut self (default default_filters filters) results) /\
    total_found r =
      Z.of_nat (length (before_cut self (default default_filters filters) results)) /\
    query_interpretation r = interpretation /\
    used_chromadb r = used.
Proof.
  unfold search. cbv zeta.
  destruct (search_strategy self q (default default_filters filters) n)
    as [[[results interpretation] used]|e]; [|discriminate].
  intros H. cbn in H. injection H as <-.
  exists results, interpretation, used. cbn [cards total_found query_interpretation used_chromadb].
  rewrite ensure_when_set, exclude_when_set. unfold before_cut. auto.
Qed.




(** The bound on the number of cards needs a limit that is not negative: a
    negative limit cuts from the end of the list. *)
Lemma negative_limit_exceeded : ~ at_most_n_results Samples.offline "" None (-1).
Proof.
  intros H. specialize (H _ eq_refl). vm_compute in H. apply H. reflexivity.
Qed.

(** ** The name index *)

Lemma index_sound (l : list Card) (d : gmap string Card) (k : string) (c : Card) :
  fold_left (fun d card => <[lower (name card) := card]> d) l d !! k = Some c ->
  d !! k = Some c \/ (c ∈ l /\ lower (name c) = k).
Proof.
  revert d. induction l as [|x l IH]; intros d H; simpl in H.
  - now left.
  - apply IH in H as [H | [H1 H2]].
    + destruct (decide (lower (name x) = k)) as [Heq|Hne].
      * rewrite <- Heq, lookup_insert_eq in H. inversion H; subst.
        right. split; [constructor | reflexivity].
      * rewrite lookup_insert_ne in H by exact Hne. now left.
    + right. split; [now constructor | exact H2].
Qed.

Lemma index_keeps_keys (l : list Card) (d : gmap string Card) (k : string) :
  is_Some (d !! k) ->
  is_Some (fold_left (fun d card => <[lower (name card) := card]> d) l d !! k).
Proof.
  revert d. induction l as [|x l IH]; intros d H; simpl; [exact H |].
  apply IH. destruct (decide (lower (name x) = k)) as [Heq|Hne].
  - rewrite <- Heq, lookup_insert_eq. eauto.
  - now rewrite lookup_insert_ne.
Qed.

Lemma index_complete (l : list Card) (d : gmap string Card) (c : Card) :
  c ∈ l ->
  is_Some (fold_left (fun d card => <[lower (name card) := card]> d) l d
             !! lower (name c)).
Proof.
  revert d. induction l as [|x l IH]; intros d H.
  - inversion H.
  - simpl. apply elem_of_cons in H as [-> | H].
    + apply index_keeps_keys. rewrite lookup_insert_eq. eauto.
    + now apply IH.
Qed.

Lemma cards_by_name_sound (self : SearchEngine) (k : string) (c : Card) :
  cards_by_name self !! k = Some c -> c ∈ all_cards self /\ lower (name c) = k.
Proof.
  intros H. apply index_sound in H as [H | H]; [|exact H].
  rewrite lookup_empty in H. discriminate.
Qed.

Lemma cards_by_name_cached (self : SearchEngine) (x : string) :
  in_cache self x ->
  exists c, cards_by_name self !! lower x = Some c /\ same_name (name c) x.
Proof.
  intros (c0 & Hin & Hname). unfold same_name in *.
  destruct (index_complete (all_cards self) ∅ c0 Hin) as [c Hc].
  fold (cards_by_name self) in Hc. rewrite Hname in Hc.
  exists c. split; [exact Hc |]. now apply cards_by_name_sound in Hc.
Qed.

(** ** The post-filter chain *)

Lemma post_filters_sound (cards : list Card) (filters : SearchFilters) (c : Card) :
  c ∈ _apply_post_filters cards filters -> c ∈ cards /\ cost_in_range filters c.
Proof.
  unfold _apply_post_filters, cost_in_range. cbv zeta. intros H.
  destruct (truthy_list (allowed_factions filters));
    [apply filter_by_factions_subseteq in H |];
    (destruct (truthy_list (Search.unit_types filters));
       [apply list_elem_of_filter in H as [_ H] |]);
    destruct (max_cost filters) as [hi|], (min_cost filters) as [lo|];
    repeat (apply list_elem_of_filter in H; destruct H as [? H]);
    (split; [exact H |]); split; intros m Hm; inversion Hm; subst; assumption.
Qed.

Lemma strategy_results_in_range (self : SearchEngine) (q : string)
    (filters : SearchFilters) (n : Z) (results : list Card) (i : string) (u : bool) :
  search_strategy self q filters n = Return (results, i, u) ->
  forall c, c ∈ results -> cost_in_range filters c.
Proof.
  unfold search_strategy.
  destruct (negb (truthy q) && negb (truthy_list (must_include filters))).
  - intros H c Hc. injection H as <- _ _.
    apply slice_to_subseteq in Hc. now apply post_filters_sound in Hc.
  - destruct (chromadb_available self && truthy q).
    + unfold _semantic_search_with_filters.
      destruct (match max_rarity filters with
                | Some r => _
                | None => _
                end) as [w_rarity|e]; [|discriminate].
      cbn [mbind py_bind].
      destruct (collection_query self q _ _) as [metadatas|e]; [|discriminate].
      intros H c Hc. injection H as <- _ _.
      now apply post_filters_sound in Hc.
    + intros H c Hc. injection H as <- _ _.
      now apply post_filters_sound in Hc.
Qed.

(** ** Must-include and must-exclude *)

(** The must-include loop puts cards in front of the results: at most one
    per entry, each the cached card of an entry whose name is not in the
    set [S] of known names, and one for every such cached entry. *)
Lemma ensure_loop_shape (self : SearchEngine) (S : gset string)
    (must_include : list string) (acc : list Card) :
  exists inserted,
    fold_left (fun results required_name =>
                 let required_lower := lower required_name in
                 if decide (required_lower ∉ S) then
                   match cards_by_name self !! required_lower with
                   | Some card => card :: results
                   | None => results
                   end
                 else results)
              must_include acc = inserted ++ acc /\
    (length inserted <= length must_include)%nat /\
    (forall c, c ∈ inserted ->
       exists x, x ∈ must_include /\ cards_by_name self !! lower x = Some c) /\
    (forall x c, x ∈ must_include -> lower x ∉ S ->
       cards_by_name self !! lower x = Some c -> c ∈ inserted).
Proof.
  revert acc.
  match goal with
  | |- forall acc, exists ins, fold_left ?g _ _ = _ /\ _ => set (step := g)
  end.
  induction must_include as [|y l IH]; intros acc.
  - exists []. split; [reflexivity |]. split; [reflexivity |].
    split; intros; exfalso; eapply not_elem_of_nil; eauto.
  - change (fold_left step (y :: l) acc) with (fold_left step l (step acc y)).
    assert (Hstep : step acc y =
                    if decide (lower y ∉ S) then
                      match cards_by_name self !! lower y with
                      | Some card => card :: acc
                      | None => acc
                      end
                    else acc) by reflexivity.
    rewrite Hstep. clear Hstep.
    destruct (decide (lower y ∉ S)) as [Hy|Hy];
      [destruct (cards_by_name self !! lower y) as [cy|] eqn:Hcy |].
    + destruct (IH (cy :: acc)) as (ins & Heq & Hlen & Hfrom & Hall).
      exists (ins ++ [cy]). rewrite Heq, <- app_assoc.
      split; [reflexivity |]. split; [rewrite length_app; simpl; lia |]. split.
      * intros c Hc. apply elem_of_app in Hc as [Hc | Hc].
        -- destruct (Hfrom c Hc) as (x & Hx & Hlook).
           exists x. split; [now constructor | exact Hlook].
        -- apply list_elem_of_singleton in Hc as ->.
           exists y. split; [constructor | exact Hcy].
      * intros x c Hx Hno Hlook. apply elem_of_app.
        apply elem_of_cons in Hx as [-> | Hx].
        -- right. rewrite Hcy in Hlook. inversion Hlook. constructor.
        -- left. eapply Hall; eauto.
    + destruct (IH acc) as (ins & Heq & Hlen & Hfrom & Hall).
      exists ins. rewrite Heq.
      split; [reflexivity |]. split; [simpl; lia |]. split.
      * intros c Hc. destruct (Hfrom c Hc) as (x & Hx & Hlook).
        exists x. split; [now constructor | exact Hlook].
      * intros x c Hx Hno Hlook. apply elem_of_cons in Hx as [-> | Hx].
        -- rewrite Hcy in Hlook. discriminate.
        -- eapply Hall; eauto.
    + destruct (IH acc) as (ins & Heq & Hlen & Hfrom & Hall).
      exists ins. rewrite Heq.
      split; [reflexivity |]. split; [simpl; lia |]. split.
      * intros c Hc. destruct (Hfrom c Hc) as (x & Hx & Hlook).
        exists x. split; [now constructor | exact Hlook].
      * intros x c Hx Hno Hlook. apply elem_of_cons in Hx as [-> | Hx].
        -- contradiction.
        -- eapply Hall; eauto.
Qed.

Lemma ensure_must_include_shape (self : SearchEngine) (results : list Card)
    (must_include : list string) :
  exists inserted,
    _ensure_must_include self results must_include = inserted ++ results /\
    (length inserted <= length must_include)%nat /\
    (forall c, c ∈ inserted ->
       exists x, x ∈ must_include /\ cards_by_name self !! lower x = Some c) /\
    (forall x c, x ∈ must_include -> ~ has_card_named results x ->
       cards_by_name self !! lower x = Some c -> c ∈ inserted).
Proof.
  unfold _ensure_must_include. cbv zeta.
  destruct (ensure_loop_shape self
              (list_to_set ((fun c => lower (name c)) <$> results))
              must_include results) as (ins & Heq & Hlen & Hfrom & Hall).
  exists ins. split; [exact Heq |]. split; [exact Hlen |]. split; [exact Hfrom |].
  intros x c Hx Hno Hlook. apply (Hall x c Hx); [|exact Hlook].
  intros Hin. apply Hno. apply elem_of_list_to_set in Hin.
  apply list_elem_of_fmap in Hin as (c' & Hc' & Hin). now exists c'.
Qed.

Lemma apply_exclusions_elem (results : list Card) (must_exclude : list string) (c : Card) :
  c ∈ _apply_exclusions results must_exclude <->
  c ∈ results /\ forall x, x ∈ must_exclude -> ~ same_name (name c) x.
Proof.
  unfold _apply_exclusions, same_name. cbv zeta.
  rewrite list_elem_of_filter, not_elem_of_list_to_set. split.
  - intros [Hno Hin]. split; [exact Hin |]. intros x Hx Heq. apply Hno.
    rewrite Heq. now apply list_elem_of_fmap_2.
  - intros [Hin Hno]. split; [|exact Hin]. intros Hx.
    apply list_elem_of_fmap in Hx as (x & Heq & Hx). now apply (Hno x).
Qed.

Lemma apply_exclusions_app (l k : list Card) (must_exclude : list string) :
  _apply_exclusions (l ++ k) must_exclude =
  _apply_exclusions l must_exclude ++ _apply_exclusions k must_exclude.
Proof. unfold _apply_exclusions. apply filter_app. Qed.

Lemma apply_exclusions_length (l : list Card) (must_exclude : list string) :
  (length (_apply_exclusions l must_exclude) <= length l)%nat.
Proof. unfold _apply_exclusions. apply length_filter. Qed.

(** Whether a list holds a card of a given name can be decided. *)
Lemma classic_has (l : list Card) (x : string) :
  has_card_named l x \/ ~ has_card_named l x.
Proof.
  unfold has_card_named, same_name.
  destruct (decide (Exists (fun c => lower (name c) = lower x) l)) as [H|H].
  - left. apply Exists_exists in H as (c & Hc & Hn). eauto.
  - right. intros (c & Hc & Hn). apply H. apply Exists_exists. eauto.
Qed.

(** A required name that is cached and not excluded has a card in the list
    that [search] cuts. *)
Lemma before_cut_has_required (self : SearchEngine) (filters : SearchFilters)
    (results : list Card) (x : string) :
  x ∈ items (must_include filters) -> in_cache self x -> not_excluded filters x ->
  has_card_named (before_cut self filters results) x.
Proof.
  intros Hx Hcache Hex. unfold before_cut.
  destruct (ensure_must_include_shape self results (items (must_include filters)))
    as (ins & Heq & _ & _ & Hall).
  rewrite Heq.
  assert (Hkeep : forall c, same_name (name c) x -> c ∈ ins ++ results ->
            has_card_named (_apply_exclusions (ins ++ results)
                              (items (must_exclude filters))) x).
  { intros c Hname Hc. exists c. split; [|exact Hname].
    apply apply_exclusions_elem. split; [exact Hc |].
    intros y Hy Hsame. apply (Hex y Hy). unfold same_name in *. congruence. }
  destruct (classic_has results x) as [(c & Hc & Hname) | Hno].
  - apply (Hkeep c Hname). apply elem_of_app. now right.
  - destruct (cards_by_name_cached self x Hcache) as (c & Hlook & Hname).
    apply (Hkeep c Hname). apply elem_of_app. left. eapply Hall; eauto.
Qed.

(** C1, as the code has it.  No returned card matches a must-exclude entry.
    A must-include name that is cached and matches no must-exclude entry has
    a card among the returned ones whenever nothing is cut off
    ([total_found] within [n_results]), and also whenever the path's own
    results lacked it and [n_results] is at least the number of must-include
    entries. *)
Theorem must_include_and_exclude (self : SearchEngine) (q : string)
    (filters : SearchFilters) (n_results : Z) (r : SearchResult) :
  search self q (Some filters) n_results = Return r ->
  (forall c x, c ∈ cards r -> x ∈ items (must_exclude filters) ->
               ~ same_name (name c) x) /\
  (forall x, x ∈ items (must_include filters) -> in_cache self x ->
             not_excluded filters x ->
     (total_found r ≤ n_results -> has_card_named (cards r) x) /\
     (forall results i u,
        search_strategy self q filters n_results = Return (results, i, u) ->
        ~ has_card_named results x ->
        Z.of_nat (length (items (must_include filters))) ≤ n_results ->
        has_card_named (cards r) x)).
Proof.
  intros H. apply search_inv in H as (results & i & u & Hs & Hc & Ht & _).
  change (default default_filters (Some filters)) with filters in *. split.
  - intros c x Hin Hx. rewrite Hc in Hin. apply slice_to_subseteq in Hin.
    unfold before_cut in Hin. apply apply_exclusions_elem in Hin as [_ Hno].
    now apply Hno.
  - intros x Hx Hcache Hex. split.
    + intros Hall. rewrite Hc, slice_to_all by lia.
      now apply before_cut_has_required.
    + intros results' i' u' Hs' Hno Hlen. rewrite Hs in Hs'.
      injection Hs' as <- <- <-. rewrite Hc. unfold before_cut.
      destruct (ensure_must_include_shape self results (items (must_include filters)))
        as (ins & Heq & Hins & _ & Hall).
      rewrite Heq, apply_exclusions_app.
      destruct (cards_by_name_cached self x Hcache) as (c & Hlook & Hname).
      exists c. split; [|exact Hname]. apply slice_to_app_l.
      * pose proof (apply_exclusions_length ins (items (must_exclude filters))). lia.
      * apply apply_exclusions_elem. split; [eapply Hall; eauto |].
        intros y Hy Hsame. apply (Hex y Hy). unfold same_name in *. congruence.
Qed.

Lemma must_include_and_exclude_witness :
  exists r,
    search Samples.online "removal"
      (Some (Samples.with_exclude ["harsh rule"]
               (Samples.with_include ["Seek Power"] default_filters))) 2 = Return r /\
    has_card_named (cards r) "Seek Power" /\
    ~ has_card_named (cards r) "Harsh Rule".
Proof.
  eexists. split; [vm_compute; reflexivity |].
  pose proof (must_include_and_exclude Samples.online "removal"
                (Samples.with_exclude ["harsh rule"]
                   (Samples.with_include ["Seek Power"] default_filters)) 2 _ eq_refl)
    as [Hex Hin].
  split.
  - apply (Hin "Seek Power").
    + constructor.
    + exists Samples.seek_power. split; [|reflexivity].
      vm_compute. repeat constructor.
    + intros x Hx. apply list_elem_of_singleton in Hx as ->. vm_compute. discriminate.
    + vm_compute. discriminate.
  - intros (c & Hc & Hname). apply (Hex c "harsh rule" Hc); [constructor |].
    unfold same_name in *. rewrite Hname. reflexivity.
Defined.

(** C1 as worded fails: a must-include card is missing when it is also
    excluded, and when the limit is zero. *)
Lemma must_include_missing :
  ~ must_include_all_present Samples.offline "rule"
      (Samples.with_exclude ["torch"] (Samples.with_include ["Torch"] default_filters)) 10 /\
  ~ must_include_all_present Samples.offline "rule"
      (Samples.with_include ["Torch"] default_filters) 0.
Proof.
  assert (Hcache : in_cache Samples.offline "Torch").
  { exists Samples.torch. split; [constructor | reflexivity]. }
  split; intros H.
  - destruct (H _ eq_refl "Torch" ltac:(constructor) Hcache) as (c & Hc & Hname).
    vm_compute in Hc. apply list_elem_of_singleton in Hc. subst c.
    vm_compute in Hname. discriminate.
  - destruct (H _ eq_refl "Torch" ltac:(constructor) Hcache) as (c & Hc & _).
    vm_compute in Hc. inversion Hc.
Qed.

(** C3, as the code has it.  Every returned card is within the cost bounds
    that are set, or is the cached card of a must-include entry. *)
Theorem cost_bounds_or_must_include (self : SearchEngine) (q : string)
    (filters : SearchFilters) (n_results : Z) (r : SearchResult) :
  search self q (Some filters) n_results = Return r ->
  forall c, c ∈ cards r ->
    cost_in_range filters c \/
    exists x, x ∈ items (must_include filters) /\ get_card_by_name self x = Some c.
Proof.
  intros H c Hin. apply search_inv in H as (results & i & u & Hs & Hc & _).
  change (default default_filters (Some filters)) with filters in *.
  rewrite Hc in Hin. apply slice_to_subseteq in Hin. unfold before_cut in Hin.
  apply apply_exclusions_elem in Hin as [Hin _].
  destruct (ensure_must_include_shape self results (items (must_include filters)))
    as (ins & Heq & _ & Hfrom & _).
  rewrite Heq in Hin. apply elem_of_app in Hin as [Hin | Hin].
  - right. apply Hfrom, Hin.
  - left. eapply strategy_results_in_range; eauto.
Qed.

Lemma cost_bounds_or_must_include_witness :
  exists r,
    search Samples.offline ""
      (Some (Samples.with_cost (Some 1) (Some 3) default_filters)) 10 = Return r /\
    cards r = [Samples.torch; Samples.seek_power; Samples.merchant] /\
    forall c, c ∈ cards r -> 1 ≤ cost c /\ cost c ≤ 3.
Proof.
  eexists. split; [vm_compute; reflexivity |]. split; [vm_compute; reflexivity |].
  intros c Hc.
  destruct (cost_bounds_or_must_include Samples.offline ""
              (Samples.with_cost (Some 1) (Some 3) default_filters) 10 _ eq_refl c Hc)
    as [[Hlo Hhi] | (x & Hx & _)].
  - split; [now apply Hlo | now apply Hhi].
  - inversion Hx.
Defined.

(** C3 as worded fails: an inserted must-include card is outside the cost
    bounds. *)
Lemma cost_bound_broken :
  ~ all_within_cost Samples.offline "rule"
      (Samples.with_cost (Some 5) None
         (Samples.with_include ["Torch"] default_filters)) 10.
Proof.
  intros H.
  assert (Hc : Samples.torch ∈ [Samples.torch; Samples.harsh_rule]) by constructor.
  destruct (H _ eq_refl Samples.torch Hc) as [Hlo _].
  specialize (Hlo 5 eq_refl). vm_compute in Hlo. apply Hlo. reflexivity.
Qed.

(** C2, as the code has it.  An empty query browses only when no
    must-include entry is set, and otherwise takes the substring search; a
    non-empty query takes the vector search when the store is available and
    the substring search when it is not. *)
Theorem search_strategy_dispatch (self : SearchEngine) (q : string)
    (filters : SearchFilters) (n_results : Z) :
  (q = "" -> truthy_list (must_include filters) = false ->
   search_strategy self q filters n_results =
   Return (_browse_with_filters self filters n_results, "Browsing com filtros", false)) /\
  (q = "" -> truthy_list (must_include filters) = true ->
   search_strategy self q filters n_results =
   Return (_simple_search_with_filters self q filters n_results,
           "Busca simples: ''", false)) /\
  (q <> "" -> chromadb_available self = true ->
   search_strategy self q filters n_results =
   (results ← _semantic_search_with_filters self q filters n_results;
    mret (results, "Busca semântica: '" +:+ q +:+ "'", true))) /\
  (q <> "" -> chromadb_available self = false ->
   search_strategy self q filters n_results =
   Return (_simple_search_with_filters self q filters n_results,
           "Busca simples: '" +:+ q +:+ "'", false)).
Proof.
  unfold search_strategy. repeat split.
  - intros -> ->. reflexivity.
  - intros -> ->. cbn. destruct (chromadb_available self); reflexivity.
  - intros Hq ->. apply truthy_nonempty in Hq. rewrite Hq. reflexivity.
  - intros Hq ->. apply truthy_nonempty in Hq. rewrite Hq. reflexivity.
Qed.

Lemma search_strategy_dispatch_witness :
  search_strategy Samples.offline "" default_filters 2 =
    Return ([Samples.torch; Samples.harsh_rule], "Browsing com filtros", false) /\
  search_strategy Samples.offline ""
    (Samples.with_include ["Torch"] default_filters) 2 =
    Return (all_cards Samples.offline, "Busca simples: ''", false) /\
  search_strategy Samples.online "removal" default_filters 2 =
    Return ([Samples.harsh_rule; Samples.torch], "Busca semântica: 'removal'", true) /\
  search_strategy Samples.offline "rule" default_filters 2 =
    Return ([Samples.harsh_rule], "Busca simples: 'rule'", false).
Proof.
  split; [|split; [|split]].
  - rewrite (proj1 (search_strategy_dispatch Samples.offline "" default_filters 2))
      by reflexivity.
    vm_compute. reflexivity.
  - rewrite (proj1 (proj2 (search_strategy_dispatch Samples.offline ""
                             (Samples.with_include ["Torch"] default_filters) 2)))
      by reflexivity.
    vm_compute. reflexivity.
  - rewrite (proj1 (proj2 (proj2 (search_strategy_dispatch Samples.online "removal"
                                    default_filters 2))))
      by (discriminate || reflexivity).
    vm_compute. reflexivity.
  - rewrite (proj2 (proj2 (proj2 (search_strategy_dispatch Samples.offline "rule"
                                    default_filters 2))))
      by (discriminate || reflexivity).
    vm_compute. reflexivity.
Defined.

(** C2 as worded fails: an empty query with a must-include entry does not
    browse. *)
Lemma empty_query_not_browsing :
  ~ empty_query_browses Samples.offline
      (Samples.with_include ["Torch"] default_filters) 2.
Proof.
  unfold empty_query_browses. vm_compute. discriminate.
Qed.

(** ** The sheet client *)

Lemma bind_return {A B} (m : py A) (k : A -> py B) (b : B) :
  (m ≫= k) = Return b -> exists a, m = Return a /\ k a = Return b.
Proof. destruct m as [a|e]; [|discriminate]. intros H. now exists a. Qed.

Lemma build_card_deck_buildable (r : row) (c : Card) :
  build_card r = Return c -> deck_buildable c = true.
Proof.
  unfold build_card. intros H.
  repeat (apply bind_return in H as (? & _ & H)).
  injection H as <-. reflexivity.
Qed.

Lemma parse_card_row_some (r : row) (c : Card) :
  _parse_card_row r = Return (Some c) -> deck_buildable c = true.
Proof.
  unfold _parse_card_row. intros H. apply bind_return in H as (flag & _ & H).
  destruct (negb (String.eqb flag "TRUE")); [discriminate |].
  destruct (negb (get_truthy r "Name")); [discriminate |].
  destruct (build_card r) as [card|e] eqn:Hb; [|discriminate].
  injection H as <-. now apply build_card_deck_buildable in Hb.
Qed.

Lemma parse_card_row_none (r : row) (s : string) :
  flag_text r = Some s -> upper s <> "TRUE" \/ name_empty r ->
  _parse_card_row r = Return None.
Proof.
  unfold flag_text, _parse_card_row, get, name_empty. intros Hflag Hor.
  assert (Hup : cell_upper (default (CStr "") (r !! "DeckBuildable")) = Return (upper s)).
  { destruct (r !! "DeckBuildable") as [[t|n]|]; inversion Hflag; reflexivity. }
  rewrite Hup. cbn [mbind py_bind].
  destruct (String.eqb (upper s) "TRUE") eqn:He; [|reflexivity].
  apply String.eqb_eq in He. destruct Hor as [Hne | Hname]; [contradiction |].
  rewrite Hname. reflexivity.
Qed.

Lemma load_rows_buildable (rows : list row) (cache : list Card) :
  Forall (fun c => deck_buildable c = true) cache ->
  Forall (fun c => deck_buildable c = true) (load_rows rows cache).2.
Proof.
  revert cache. induction rows as [|r rows IH]; intros cache Hc; simpl; [exact Hc |].
  destruct (_parse_card_row r) as [[card|]|e] eqn:Hp; simpl.
  - apply IH. apply Forall_app. split; [exact Hc |].
    constructor; [|constructor]. now apply parse_card_row_some in Hp.
  - now apply IH.
  - exact Hc.
Qed.

Lemma get_all_cards_buildable (reply : sheet_reply) (self : GoogleSheetsClient) :
  Forall (fun c => deck_buildable c = true) (_cards_cache self) ->
  Forall (fun c => deck_buildable c = true) (_cards_cache (get_all_cards reply self).2).
Proof.
  intros Hc. unfold get_all_cards. cbn [snd].
  destruct (negb (_cache_loaded self)); [|exact Hc].
  unfold _load_all_cards. destruct reply as [[all_records|e]|]; try exact Hc.
  pose proof (load_rows_buildable all_records _ Hc) as Hl.
  destruct (load_rows all_records (_cards_cache self)) as [[u|e] cache]; exact Hl.
Qed.

Lemma reachable_buildable (self : GoogleSheetsClient) :
  reachable self -> Forall (fun c => deck_buildable c = true) (_cards_cache self).
Proof.
  induction 1 as [|reply self Hr IH].
  - constructor.
  - now apply get_all_cards_buildable.
Qed.

(** C10, as the code has it.  For a row whose [DeckBuildable] cell is text
    or missing, the parser returns [None] when that text does not uppercase
    to "TRUE" or the name is empty; every card it returns is deck buildable;
    so is every card of the cache and of [get_all_cards], on every client
    that a run can reach. *)
Theorem parse_card_row_deck_buildable :
  (forall r s, flag_text r = Some s -> upper s <> "TRUE" \/ name_empty r ->
               _parse_card_row r = Return None) /\
  (forall r c, _parse_card_row r = Return (Some c) -> deck_buildable c = true) /\
  (forall self reply, reachable self ->
     Forall (fun c => deck_buildable c = true) (_cards_cache self) /\
     Forall (fun c => deck_buildable c = true) (get_all_cards reply self).1).
Proof.
  split; [exact parse_card_row_none |]. split; [exact parse_card_row_some |].
  intros self reply Hr. split; [now apply reachable_buildable |].
  apply (reachable_buildable _ (reach_get reply self Hr)).
Qed.

Lemma parse_card_row_deck_buildable_witness :
  _parse_card_row Samples.hidden_row = Return None /\
  (exists c, _parse_card_row Samples.torch_row = Return (Some c) /\
             deck_buildable c = true) /\
  Forall (fun c => deck_buildable c = true)
    (get_all_cards (Some (Return [Samples.hidden_row; Samples.torch_row]))
                   client_init).1.
Proof.
  destruct parse_card_row_deck_buildable as (Hnone & Hsome & Hcache).
  split; [|split].
  - apply (Hnone Samples.hidden_row "FALSE"); [reflexivity |].
    left. vm_compute. discriminate.
  - eexists. split; [vm_compute; reflexivity |].
    eapply (Hsome Samples.torch_row). vm_compute. reflexivity.
  - apply (Hcache client_init), reach_init.
Defined.

(** C10 as worded fails: a row whose [DeckBuildable] cell is a number is
    not flagged buildable, yet the parser does not return [None] for it. *)
Lemma numeric_flag_not_none : ~ none_unless_flagged Samples.numeric_flag_row.
Proof.
  intros H. assert (Hp : _parse_card_row Samples.numeric_flag_row = Raise AttributeError)
    by (vm_compute; reflexivity).
  unfold none_unless_flagged in H. rewrite Hp in H.
  enough (Raise AttributeError = Return (None : option Card)) by discriminate.
  apply H. left. intros (s & Hs & _). vm_compute in Hs. discriminate.
Qed.

(** ** The scouted pool *)

Lemma insert_sorted_perm {A} (key : A -> Z) (x : A) (l : list A) :
  insert_sorted key x l ≡ₚ x :: l.
Proof.
  induction l as [|y l IH]; simpl; [reflexivity |].
  destruct (key x <=? key y); [reflexivity |].
  rewrite IH. apply Permutation_swap.
Qed.

Lemma sorted_perm {A} (key : A -> Z) (l : list A) : sorted key l ≡ₚ l.
Proof.
  unfold sorted. induction l as [|x l IH]; simpl; [reflexivity |].
  now rewrite insert_sorted_perm, IH.
Qed.

Lemma perm_move {A} (a b : list A) (c : A) : a ++ c :: b ≡ₚ (a ++ b) ++ [c].
Proof. now rewrite <- Permutation_middle, Permutation_cons_append. Qed.

Lemma classify_perm (strategy : StrategyAnalysis) (b : buckets) (c : Card) :
  bucket_cards (classify strategy b c) ≡ₚ bucket_cards b ++ [c].
Proof.
  unfold classify, bucket_cards.
  destruct b as [m core syn sup].
  cbn [b_must_include core_cards synergy_cards support_cards].
  destruct (bool_decide (name c ∈ must_include_cards strategy));
    [|destruct (is_power c);
      [|destruct (PrimFloat.leb f0_8 (_calculate_relevance c strategy));
        [|destruct (PrimFloat.leb f0_5 (_calculate_relevance c strategy))]]];
    cbn [b_must_include core_cards synergy_cards support_cards].
  - rewrite <- (app_assoc m). apply perm_move.
  - now rewrite !app_assoc.
  - rewrite <- (app_assoc core), !(app_assoc m core). apply perm_move.
  - rewrite <- (app_assoc syn), !(app_assoc core syn), !(app_assoc m (core ++ syn)).
    apply perm_move.
  - now rewrite !app_assoc.
Qed.

Lemma classify_fold_perm (strategy : StrategyAnalysis) (l : list Card) (b : buckets) :
  bucket_cards (fold_left (classify strategy) l b) ≡ₚ bucket_cards b ++ l.
Proof.
  revert b. induction l as [|c l IH]; intros b; simpl.
  - now rewrite app_nil_r.
  - rewrite IH, classify_perm, <- app_assoc. reflexivity.
Qed.

(** The pool before the duplicate pass is a rearrangement of the input. *)
Lemma organized_perm (cards : list Card) (strategy : StrategyAnalysis) (b : buckets) :
  b = fold_left (classify strategy) cards
        {| b_must_include := []; core_cards := [];
           synergy_cards := []; support_cards := [] |} ->
  b_must_include b ++ sorted cost (core_cards b) ++
  sorted cost (synergy_cards b) ++ sorted cost (support_cards b) ≡ₚ cards.
Proof.
  intros ->. rewrite !sorted_perm.
  exact (classify_fold_perm strategy cards
           {| b_must_include := []; core_cards := [];
              synergy_cards := []; support_cards := [] |}).
Qed.

(** One step of a first-occurrence loop, on the pair (cards, seen names). *)
Lemma unique_names_add (all : list Card) (seen : gset string) (c : Card) :
  unique_names (all, seen) -> name c ∉ seen ->
  unique_names (all ++ [c], seen ∪ {[name c]}).
Proof.
  unfold unique_names. cbn [fst snd]. intros [Hnd Hseen] Hc. split.
  - rewrite fmap_app. apply NoDup_app. split; [exact Hnd |]. split.
    + intros x Hx Hin. apply list_elem_of_singleton in Hin. subst x.
      apply Hc. now apply Hseen.
    + apply NoDup_singleton.
  - intros n. rewrite fmap_app, elem_of_app, elem_of_union, Hseen. simpl.
    rewrite list_elem_of_singleton, elem_of_singleton. reflexivity.
Qed.

Lemma unique_names_push (all : list Card) (seen : gset string) (c : Card) :
  unique_names (all, seen) -> name c ∉ seen ->
  unique_names (c :: all, seen ∪ {[name c]}).
Proof.
  unfold unique_names. cbn [fst snd]. intros [Hnd Hseen] Hc. split.
  - rewrite fmap_cons. apply NoDup_cons. split; [|exact Hnd].
    intros Hin. apply Hc. now apply Hseen.
  - intros n. rewrite fmap_cons, elem_of_cons, elem_of_union, Hseen, elem_of_singleton.
    tauto.
Qed.

Lemma add_unique_names (found : list Card) (acc : list Card * gset string) :
  unique_names acc -> unique_names (add_unique acc found).
Proof.
  unfold add_unique. revert acc.
  induction found as [|c l IH]; intros [all seen] H; simpl; [exact H |].
  apply IH. destruct (decide (name c ∉ seen)); [now apply unique_names_add | exact H].
Qed.

Lemma run_queries_names (engine : SearchEngine) (base_filters : SearchFilters)
    (qs : list search_query) (acc out : list Card * gset string) :
  unique_names acc -> run_queries engine base_filters qs acc = Return out ->
  unique_names out.
Proof.
  revert acc. induction qs as [|q qs IH]; intros acc Hacc H; simpl in H.
  - now injection H as <-.
  - apply bind_return in H as (result & _ & H).
    eapply IH; [|exact H]. now apply add_unique_names.
Qed.

Lemma execute_searches_names (engine : SearchEngine) (qs : list search_query)
    (strategy : StrategyAnalysis) (extra : option SearchFilters) (pool : list Card) :
  _execute_searches engine qs strategy extra = Return pool ->
  NoDup (name <$> pool).
Proof.
  unfold _execute_searches. cbv zeta. intros H.
  apply bind_return in H as ([all seen] & Hrun & H).
  apply run_queries_names in Hrun; [|split; [constructor | set_solver]].
  injection H as <-.
  enough (Hu : forall l acc, unique_names acc ->
            unique_names
              (fold_left (fun '(all_cards, seen_cards) card_name =>
                            match get_card_by_name engine card_name with
                            | Some card =>
                                if decide (name card ∉ seen_cards)
                                then (card :: all_cards, seen_cards ∪ {[name card]})
                                else (all_cards, seen_cards)
                            | None => (all_cards, seen_cards)
                            end) l acc)).
  { apply (Hu (must_include_cards strategy) (all, seen) Hrun). }
  induction l as [|x l IH]; intros [a s] Ha; simpl; [exact Ha |].
  apply IH. destruct (get_card_by_name engine x) as [card|]; [|exact Ha].
  destruct (decide (name card ∉ s)); [now apply unique_names_push | exact Ha].
Qed.

(** The duplicate pass: first occurrences only, so the names are distinct;
    a list with distinct names passes unchanged. *)
Lemma remove_duplicates_loop (l : list Card) (seen : gset string) (acc : list Card) :
  unique_names (acc, seen) ->
  let out := fold_left (fun '(seen, final_pool) card =>
                          if decide (name card ∉ seen)
                          then (seen ∪ {[name card]}, final_pool ++ [card])
                          else (seen, final_pool))
                       l (seen, acc) in
  unique_names (out.2, out.1) /\
  (NoDup (name <$> l) -> (forall c, c ∈ l -> name c ∉ seen) -> out.2 = acc ++ l).
Proof.
  revert seen acc. induction l as [|c l IH]; intros seen acc Hu; cbn [fold_left].
  - cbv zeta. cbn [fst snd]. split; [exact Hu |]. intros _ _. now rewrite app_nil_r.
  - destruct (decide (name c ∉ seen)) as [Hc|Hc].
    + destruct (IH (seen ∪ {[name c]}) (acc ++ [c]) (unique_names_add _ _ _ Hu Hc))
        as [Hu' Hid].
      split; [exact Hu' |]. intros Hnd Hfresh.
      rewrite fmap_cons in Hnd. apply NoDup_cons in Hnd as [Hnotin Hnd].
      cbv zeta in Hid. rewrite Hid, <- app_assoc; [reflexivity | exact Hnd |].
      intros d Hd Hin. apply elem_of_union in Hin as [Hin | Hin].
      * apply (Hfresh d); [now constructor | exact Hin].
      * apply elem_of_singleton in Hin. apply Hnotin. rewrite <- Hin.
        now apply list_elem_of_fmap_2.
    + destruct (IH seen acc Hu) as [Hu' _]. split; [exact Hu' |].
      intros _ Hfresh. exfalso. apply Hc, Hfresh. constructor.
Qed.

Lemma remove_duplicates_names (l : list Card) : NoDup (name <$> remove_duplicates l).
Proof.
  unfold remove_duplicates.
  destruct (remove_duplicates_loop l ∅ []) as [[Hnd _] _].
  - split; [constructor | set_solver].
  - exact Hnd.
Qed.

Lemma remove_duplicates_id (l : list Card) :
  NoDup (name <$> l) -> remove_duplicates l = l.
Proof.
  intros Hnd. unfold remove_duplicates.
  destruct (remove_duplicates_loop l ∅ []) as [_ Hid].
  - split; [constructor | set_solver].
  - apply Hid; [exact Hnd | set_solver].
Qed.


(** ** Further properties of the search engine *)

Lemma filter_twice {A} (P Q : A -> Prop) `{!forall x, Decision (P x)}
    `{!forall x, Decision (Q x)} (l : list A) :
  filter P (filter Q l) = filter (fun x => Q x /\ P x) l.
Proof.
  induction l as [|x l IH]; [reflexivity |].
  rewrite (filter_cons Q), (filter_cons (fun x => Q x /\ P x)).
  destruct (decide (Q x)) as [Hq|Hq].
  - rewrite filter_cons. destruct (decide (P x)) as [Hp|Hp].
    + rewrite decide_True by tauto. now rewrite IH.
    + rewrite decide_False by tauto. exact IH.
  - rewrite decide_False by tauto. exact IH.
Qed.

Lemma filter_ext_in {A} (P Q : A -> Prop) `{!forall x, Decision (P x)}
    `{!forall x, Decision (Q x)} (l : list A) :
  (forall x, x ∈ l -> P x <-> Q x) -> filter P l = filter Q l.
Proof.
  induction l as [|x l IH]; intros Hpq; [reflexivity |].
  rewrite !filter_cons.
  assert (Hx : P x <-> Q x) by (apply Hpq; constructor).
  assert (Hl : filter P l = filter Q l).
  { apply IH. intros y Hy. apply Hpq. now constructor. }
  destruct (decide (P x)), (decide (Q x)); try tauto; now rewrite Hl.
Qed.

Lemma post_filters_as_filter (cards : list Card) (filters : SearchFilters) :
  _apply_post_filters cards filters = filter (post_filter_ok filters) cards.
Proof.
  unfold _apply_post_filters. cbv zeta.
  assert (H1 : match min_cost filters with
               | Some m => filter (fun c => m ≤ cost c) cards
               | None => cards
               end = filter (min_cost_ok filters) cards).
  { destruct (min_cost filters) as [m|] eqn:Hm.
    - apply filter_ext_in. intros c _. unfold min_cost_ok. now rewrite Hm.
    - symmetry. apply filter_all. intros c _. unfold min_cost_ok. now rewrite Hm. }
  rewrite H1. clear H1.
  assert (H2 : forall l : list Card, match max_cost filters with
                         | Some m => filter (fun c => cost c ≤ m) l
                         | None => l
                         end = filter (max_cost_ok filters) l).
  { intros l. destruct (max_cost filters) as [m|] eqn:Hm.
    - apply filter_ext_in. intros c _. unfold max_cost_ok. now rewrite Hm.
    - symmetry. apply filter_all. intros c _. unfold max_cost_ok. now rewrite Hm. }
  rewrite H2. clear H2.
  assert (H3 : forall l : list Card,
             (if truthy_list (Search.unit_types filters)
              then filter (fun c => Exists (fun ut => lower ut ∈
                             lower <$> items (Search.unit_types filters))
                             (Models.unit_types c)) l
              else l) = filter (unit_type_ok filters) l).
  { intros l. destruct (truthy_list (Search.unit_types filters)) eqn:Ht.
    - apply filter_ext_in. intros c _. unfold unit_type_ok. rewrite Ht. tauto.
    - symmetry. apply filter_all. intros c _. unfold unit_type_ok. rewrite Ht.
      discriminate. }
  rewrite H3. clear H3.
  assert (H4 : forall l : list Card,
             (if truthy_list (allowed_factions filters)
              then _filter_by_factions l filters else l) =
             filter (faction_ok filters) l).
  { intros l. destruct (truthy_list (allowed_factions filters)) eqn:Ht.
    - rewrite filter_by_factions_filter by exact Ht. apply filter_ext_in.
      intros c _. unfold faction_ok. rewrite Ht. tauto.
    - symmetry. apply filter_all. intros c _. unfold faction_ok. rewrite Ht.
      discriminate. }
  rewrite H4. clear H4.
  rewrite !filter_twice. apply filter_ext_in. unfold post_filter_ok. tauto.
Qed.

(** The post-filter chain is one filter: a card is kept exactly when it
    passes the cost bounds, the unit-type test and the faction test, each
    only if set.  So the chain keeps the order of its input, and running it
    on its own output changes nothing. *)
Theorem apply_post_filters_exact (cards : list Card) (filters : SearchFilters) :
  _apply_post_filters cards filters = filter (post_filter_ok filters) cards /\
  sublist (_apply_post_filters cards filters) cards /\
  _apply_post_filters (_apply_post_filters cards filters) filters =
  _apply_post_filters cards filters.
Proof.
  rewrite !post_filters_as_filter. split; [reflexivity |]. split.
  - apply sublist_filter.
  - apply filter_all. intros c Hc. apply list_elem_of_filter in Hc. tauto.
Qed.

(** The chain reads the cost bounds, the unit types and the faction fields
    only: card types, rarity, market flags, format and archetype do not
    change what it keeps. *)
Lemma apply_post_filters_fields (cards : list Card) (f g : SearchFilters) :
  same_post_fields f g -> _apply_post_filters cards f = _apply_post_filters cards g.
Proof.
  intros (H1 & H2 & H3 & H4 & H5).
  unfold _apply_post_filters, _filter_by_factions. cbv zeta.
  rewrite H1, H2, H3, H4, H5. reflexivity.
Qed.

Lemma apply_post_filters_fields_witness :
  _apply_post_filters (all_cards Samples.offline)
    (Samples.with_types ["Unit"] (Some "Rare") default_filters) =
  all_cards Samples.offline.
Proof.
  rewrite (apply_post_filters_fields (all_cards Samples.offline)
             (Samples.with_types ["Unit"] (Some "Rare") default_filters)
             default_filters).
  - vm_compute. reflexivity.
  - repeat split.
Defined.

Lemma search_of_strategy (self : SearchEngine) (q : string)
    (filters : option SearchFilters) (n : Z) (results : list Card)
    (interpretation : string) (used : bool) :
  search_strategy self q (default default_filters filters) n =
    Return (results, interpretation, used) ->
  search self q filters n =
  Return {| cards := slice_to n (before_cut self (default default_filters filters) results);
            total_found :=
              Z.of_nat (length (before_cut self (default default_filters filters) results));
            query := q;
            query_interpretation := interpretation;
            filters_applied := default default_filters filters;
            used_chromadb := used |}.
Proof.
  intros H. unfold search. cbv zeta. rewrite H. cbn [mbind py_bind].
  rewrite ensure_when_set, exclude_when_set. reflexivity.
Qed.

Lemma strategy_without_store (self : SearchEngine) (q : string)
    (filters : SearchFilters) (n : Z) :
  chromadb_available self = false \/ q = "" ->
  exists results interpretation,
    search_strategy self q filters n = Return (results, interpretation, false).
Proof.
  intros H. unfold search_strategy.
  destruct (negb (truthy q) && negb (truthy_list (must_include filters))); [eauto |].
  assert (Hb : chromadb_available self && truthy q = false).
  { destruct H as [-> | ->]; [reflexivity | apply andb_false_r]. }
  rewrite Hb. eauto.
Qed.

(** Without the vector store, or with an empty query, [search] always
    returns a result, and reports that the store was not used. *)
Theorem search_without_store_returns (self : SearchEngine) (q : string)
    (filters : option SearchFilters) (n_results : Z) :
  chromadb_available self = false \/ q = "" ->
  exists r, search self q filters n_results = Return r /\ used_chromadb r = false.
Proof.
  intros H.
  destruct (strategy_without_store self q (default default_filters filters) n_results H)
    as (results & i & Hs).
  eexists. split; [apply (search_of_strategy _ _ _ _ _ _ _ Hs) | reflexivity].
Qed.

Lemma search_without_store_returns_witness :
  exists r, search Samples.offline "torch" None 10 = Return r /\
            used_chromadb r = false.
Proof.
  apply (search_without_store_returns Samples.offline "torch" None 10).
  left. reflexivity.
Defined.

(** A returned result echoes the query, carries the filters in force, and
    its [used_chromadb] flag tells exactly whether the query was non-empty
    with the store available. *)
Theorem search_result_flags (self : SearchEngine) (q : string)
    (filters : option SearchFilters) (n_results : Z) (r : SearchResult) :
  search self q filters n_results = Return r ->
  query r = q /\
  filters_applied r = default default_filters filters /\
  used_chromadb r = chromadb_available self && truthy q.
Proof.
  unfold search. cbv zeta. intros H.
  apply bind_return in H as ([[results i] u] & Hs & H).
  injection H as <-. cbn [query filters_applied used_chromadb].
  split; [reflexivity |]. split; [reflexivity |].
  unfold search_strategy in Hs.
  destruct (truthy q) eqn:Hq; cbn [negb andb] in Hs.
  - rewrite andb_true_r in *. destruct (chromadb_available self).
    + apply bind_return in Hs as (x & _ & Hs). now injection Hs as _ _ <-.
    + now injection Hs as _ _ <-.
  - rewrite andb_false_r in *.
    destruct (negb (truthy_list (must_include (default default_filters filters))));
      now injection Hs as _ _ <-.
Qed.

Lemma search_result_flags_witness :
  exists r, search Samples.online "removal" None 10 = Return r /\
            query r = "removal" /\ used_chromadb r = true.
Proof.
  eexists. split; [vm_compute; reflexivity |].
  destruct (search_result_flags Samples.online "removal" None 10 _ eq_refl)
    as (Hq & _ & Hu).
  split; [exact Hq | exact Hu].
Defined.

Lemma list_index_absent (x : string) (l : list string) :
  x ∉ l -> list_index x l = Raise ValueError.
Proof.
  induction l as [|y l IH]; intros Hx; simpl; [reflexivity |].
  destruct (String.eqb y x) eqn:He.
  - apply String.eqb_eq in He. subst y. exfalso. apply Hx. constructor.
  - rewrite IH; [reflexivity |]. intros Hin. apply Hx. now constructor.
Qed.

(** On the vector path a [max_rarity] outside the four known rarities makes
    [search] raise [ValueError], whatever the store would answer. *)
Theorem search_unknown_rarity_raises (self : SearchEngine) (q : string)
    (filters : SearchFilters) (n_results : Z) (rar : string) :
  q <> "" -> chromadb_available self = true ->
  max_rarity filters = Some rar -> rar <> "" -> rar ∉ rarities ->
  search self q (Some filters) n_results = Raise ValueError.
Proof.
  intros Hq Ha Hr Hne Hnot. apply truthy_nonempty in Hq. apply truthy_nonempty in Hne.
  unfold search. cbv zeta. change (default default_filters (Some filters)) with filters.
  unfold search_strategy. rewrite Hq, Ha. cbn [negb andb].
  unfold _semantic_search_with_filters. rewrite Hr, Hne.
  rewrite (list_index_absent rar rarities Hnot). reflexivity.
Qed.

Lemma search_unknown_rarity_raises_witness :
  search Samples.online "removal"
    (Some (Samples.with_types ["Unit"] (Some "Promo") default_filters)) 10 =
  Raise ValueError.
Proof.
  apply (search_unknown_rarity_raises Samples.online "removal" _ 10 "Promo").
  - discriminate.
  - reflexivity.
  - reflexivity.
  - discriminate.
  - vm_compute. intros H. repeat (inversion H as [|? ? ? H']; subst; clear H; rename H' into H).
Defined.

(** Without the vector store the answer does not depend on the fields that
    only the store's [where] clause reads: card types, maximum rarity and the
    market flags are not applied. *)
Theorem search_without_store_ignores (self : SearchEngine) (q : string)
    (f g : SearchFilters) (n_results : Z) :
  chromadb_available self = false ->
  same_post_fields f g ->
  must_include f = must_include g -> must_exclude f = must_exclude g ->
  exists r r',
    search self q (Some f) n_results = Return r /\
    search self q (Some g) n_results = Return r' /\
    cards r = cards r' /\ total_found r = total_found r' /\
    query_interpretation r = query_interpretation r'.
Proof.
  intros Ha Hsame Hin Hex.
  assert (Hs : exists results i,
             search_strategy self q f n_results = Return (results, i, false) /\
             search_strategy self q g n_results = Return (results, i, false)).
  { unfold search_strategy, _browse_with_filters, _simple_search_with_filters.
    cbv zeta. rewrite Ha, <- Hin, !(apply_post_filters_fields _ f g Hsame).
    cbn [andb]. destruct (negb (truthy q) && negb (truthy_list (must_include f))); eauto. }
  destruct Hs as (results & i & Hf & Hg).
  do 2 eexists.
  split; [apply (search_of_strategy self q (Some f) n_results _ _ _ Hf) |].
  split; [apply (search_of_strategy self q (Some g) n_results _ _ _ Hg) |].
  change (default default_filters (Some f)) with f.
  change (default default_filters (Some g)) with g.
  cbn [cards total_found query_interpretation].
  unfold before_cut. rewrite Hin, Hex. auto.
Qed.

Lemma search_without_store_ignores_witness :
  exists r,
    search Samples.offline ""
      (Some (Samples.with_types ["Unit"] (Some "Common") default_filters)) 10 = Return r /\
    cards r = all_cards Samples.offline.
Proof.
  destruct (search_without_store_ignores Samples.offline ""
              (Samples.with_types ["Unit"] (Some "Common") default_filters)
              default_filters 10 eq_refl)
    as (r & r' & Hr & Hr' & Hc & _); [repeat split | reflexivity | reflexivity |].
  exists r. split; [exact Hr |]. rewrite Hc.
  assert (H : search Samples.offline "" (Some default_filters) 10 =
              Return {| cards := all_cards Samples.offline; total_found := 5;
                        query := ""; query_interpretation := "Browsing com filtros";
                        filters_applied := default_filters; used_chromadb := false |})
    by (vm_compute; reflexivity).
  rewrite H in Hr'. now injection Hr' as <-.
Defined.

Lemma strategy_results_cached (self : SearchEngine) (q : string)
    (filters : SearchFilters) (n : Z) (results : list Card) (i : string) (u : bool) :
  search_strategy self q filters n = Return (results, i, u) ->
  forall c, c ∈ results -> c ∈ all_cards self.
Proof.
  unfold search_strategy.
  destruct (negb (truthy q) && negb (truthy_list (must_include filters))).
  - intros H c Hc. injection H as <- _ _.
    apply slice_to_subseteq in Hc. now apply post_filters_sound in Hc.
  - destruct (chromadb_available self && truthy q).
    + intros H c Hc. apply bind_return in H as (found & Hsem & H).
      injection H as <- _ _. unfold _semantic_search_with_filters in Hsem.
      apply bind_return in Hsem as (w & _ & Hsem).
      apply bind_return in Hsem as (metadatas & _ & Hsem).
      injection Hsem as <-. apply post_filters_sound in Hc as [Hc _].
      apply list_elem_of_omap in Hc as (md & _ & Hmd).
      destruct (md !! "name") as [card_name|]; [|discriminate].
      destruct (truthy card_name); [|discriminate].
      now apply cards_by_name_sound in Hmd.
    + intros H c Hc. injection H as <- _ _.
      apply post_filters_sound in Hc as [Hc _].
      apply list_elem_of_filter in Hc. tauto.
Qed.

(** Every returned card is a card of the cache: a store hit whose name is
    not cached is dropped, and nothing else is ever added. *)
Theorem search_cards_cached (self : SearchEngine) (q : string)
    (filters : option SearchFilters) (n_results : Z) (r : SearchResult) :
  search self q filters n_results = Return r ->
  forall c, c ∈ cards r -> c ∈ all_cards self.
Proof.
  intros H c Hc. apply search_inv in H as (results & i & u & Hs & Hcards & _).
  rewrite Hcards in Hc. apply slice_to_subseteq in Hc. unfold before_cut in Hc.
  apply apply_exclusions_elem in Hc as [Hc _].
  destruct (ensure_must_include_shape self results
              (items (must_include (default default_filters filters))))
    as (ins & Heq & _ & Hfrom & _).
  rewrite Heq in Hc. apply elem_of_app in Hc as [Hc | Hc].
  - destruct (Hfrom c Hc) as (x & _ & Hlook). now apply cards_by_name_sound in Hlook.
  - eapply strategy_results_cached; eauto.
Qed.

Lemma search_cards_cached_witness :
  exists r, search Samples.online "removal" None 10 = Return r /\
            forall c, c ∈ cards r -> c ∈ all_cards Samples.online.
Proof.
  eexists. split; [vm_compute; reflexivity |].
  exact (search_cards_cached Samples.online "removal" None 10 _ eq_refl).
Defined.

Lemma contains_empty (s : string) : contains "" s = true.
Proof. destruct s; reflexivity. Qed.

(** The substring path keeps exactly the cached cards whose lowercased name
    or text holds the lowercased query and that pass the post-filter chain;
    with an empty query that is every filtered card, so the browse path is
    its cut to [n_results]. *)
Theorem simple_search_exact (self : SearchEngine) (q : string)
    (filters : SearchFilters) (n_results : Z) :
  (forall c, c ∈ _simple_search_with_filters self q filters n_results <->
             c ∈ all_cards self /\
             (occurs_in (lower q) (lower (name c)) \/
              occurs_in (lower q) (lower (card_text c))) /\
             post_filter_ok filters c) /\
  _simple_search_with_filters self "" filters n_results =
    _apply_post_filters (all_cards self) filters /\
  _browse_with_filters self filters n_results =
    slice_to n_results (_simple_search_with_filters self "" filters n_results).
Proof.
  assert (He : _simple_search_with_filters self "" filters n_results =
               _apply_post_filters (all_cards self) filters).
  { unfold _simple_search_with_filters. cbv zeta. f_equal.
    apply filter_all. intros c _. change (lower "") with "".
    now rewrite contains_empty. }
  split; [|split; [exact He |]].
  - intros c. unfold _simple_search_with_filters. cbv zeta.
    rewrite post_filters_as_filter, !list_elem_of_filter.
    rewrite Is_true_true, orb_true_iff, !contains_occurs. tauto.
  - unfold _browse_with_filters. cbv zeta. now rewrite He.
Qed.

(** ** Lookup by name *)

Lemma index_last (l : list Card) (d : gmap string Card) (c : Card) :
  NoDup ((fun c => lower (name c)) <$> l) -> c ∈ l ->
  fold_left (fun d card => <[lower (name card) := card]> d) l d
    !! lower (name c) = Some c.
Proof.
  revert d. induction l as [|x l IH]; intros d Hnd Hc; [inversion Hc |].
  rewrite fmap_cons in Hnd. apply NoDup_cons in Hnd as [Hx Hnd].
  cbn [fold_left]. apply elem_of_cons in Hc as [-> | Hc].
  - destruct (fold_left (fun d card => <[lower (name card) := card]> d) l
                (<[lower (name x) := x]> d) !! lower (name x)) as [c'|] eqn:Hl.
    + apply index_sound in Hl as [Hl | [Hin Heq]].
      * now rewrite lookup_insert_eq in Hl.
      * exfalso. apply Hx. rewrite <- Heq.
        now apply (list_elem_of_fmap_2 (fun c => lower (name c))).
    + pose proof (index_keeps_keys l (<[lower (name x) := x]> d) (lower (name x))) as Hk.
      rewrite Hl in Hk. destruct Hk as [? Hk]; [|discriminate].
      rewrite lookup_insert_eq. eauto.
  - now apply IH.
Qed.

(** [get_card_by_name] ignores case.  What it finds is a cached card of that
    name; it finds nothing exactly when no cached card has the name; and when
    the cached names are distinct up to case, looking up the name of a
    cached card gives that card back. *)
Theorem get_card_by_name_spec (self : SearchEngine) :
  (forall x c, get_card_by_name self x = Some c ->
               c ∈ all_cards self /\ same_name (name c) x) /\
  (forall x, get_card_by_name self x = None <-> ~ in_cache self x) /\
  (forall x y, same_name x y -> get_card_by_name self x = get_card_by_name self y) /\
  (forall c, NoDup ((fun c => lower (name c)) <$> all_cards self) ->
             c ∈ all_cards self -> get_card_by_name self (name c) = Some c).
Proof.
  unfold get_card_by_name. split; [|split; [|split]].
  - intros x c H. now apply cards_by_name_sound in H.
  - intros x. split.
    + intros H Hc. apply cards_by_name_cached in Hc as (c & Hl & _). congruence.
    + intros H. destruct (cards_by_name self !! lower x) as [c|] eqn:Hl; [|reflexivity].
      exfalso. apply H. apply cards_by_name_sound in Hl as [Hin Hn]. now exists c.
  - intros x y Hxy. unfold same_name in Hxy. now rewrite Hxy.
  - intros c Hnd Hc. now apply index_last.
Qed.

Lemma get_card_by_name_spec_witness :
  get_card_by_name Samples.offline "HARSH rule" = Some Samples.harsh_rule /\
  get_card_by_name Samples.offline "Vara" = None.
Proof.
  destruct (get_card_by_name_spec Samples.offline) as (_ & Hnone & Hcase & Hback).
  split.
  - rewrite (Hcase "HARSH rule" (name Samples.harsh_rule)) by reflexivity.
    apply Hback.
    + vm_compute. repeat constructor; set_solver.
    + vm_compute. repeat constructor.
  - apply Hnone. intros (c & Hc & Hn). vm_compute in Hc, Hn.
    repeat (apply elem_of_cons in Hc as [-> | Hc]; [discriminate |]).
    inversion Hc.
Defined.

Lemma get_cards_by_names_loop (self : SearchEngine) (names : list string) (acc : list Card) :
  fold_left (fun cards name =>
               match get_card_by_name self name with
               | Some card => cards ++ [card]
               | None => cards
               end) names acc =
  acc ++ omap (get_card_by_name self) names.
Proof.
  revert acc. induction names as [|x l IH]; intros acc.
  - cbn. now rewrite app_nil_r.
  - cbn [fold_left]. rewrite IH, omap_cons.
    destruct (get_card_by_name self x); [now rewrite <- app_assoc | reflexivity].
Qed.

(** [get_cards_by_names] gives the cached cards of the requested names in
    request order and skips the names that are not cached: never more cards
    than names, and as many when every name is cached. *)
Theorem get_cards_by_names_spec (self : SearchEngine) (names : list string) :
  get_cards_by_names self names = omap (get_card_by_name self) names /\
  (length (get_cards_by_names self names) <= length names)%nat /\
  (Forall (in_cache self) names ->
   length (get_cards_by_names self names) = length names).
Proof.
  assert (He : get_cards_by_names self names = omap (get_card_by_name self) names).
  { unfold get_cards_by_names. now rewrite get_cards_by_names_loop. }
  rewrite He. clear He. split; [reflexivity |]. split.
  - induction names as [|x l IH]; [reflexivity |].
    rewrite omap_cons. destruct (get_card_by_name self x); cbn [length]; lia.
  - induction names as [|x l IH]; intros Hall; [reflexivity |].
    apply Forall_cons in Hall as [Hx Hall]. rewrite omap_cons.
    apply cards_by_name_cached in Hx as (c & Hl & _).
    unfold get_card_by_name at 1. rewrite Hl. simpl. now rewrite IH.
Qed.

Lemma get_cards_by_names_spec_witness :
  get_cards_by_names Samples.offline ["torch"; "Vara"; "Fire Sigil"] =
    [Samples.torch; Samples.fire_sigil] /\
  length (get_cards_by_names Samples.offline ["torch"; "Fire Sigil"]) = 2%nat.
Proof.
  split.
  - rewrite (proj1 (get_cards_by_names_spec Samples.offline _)). vm_compute. reflexivity.
  - apply (proj2 (proj2 (get_cards_by_names_spec Samples.offline ["torch"; "Fire Sigil"]))).
    repeat constructor.
    + exists Samples.torch. split; [repeat constructor | reflexivity].
    + exists Samples.fire_sigil. split; [vm_compute; repeat constructor | reflexivity].
Defined.

(** ** Further properties of the sheet client *)

Lemma try_except_returns {A} (m : py A) (a : A) :
  exists o, try_except m (fun _ => Return a) = Return o.
Proof. destruct m; simpl; eauto. Qed.

(** When the [DeckBuildable] cell is text or missing, [_parse_card_row]
    never raises: whatever is wrong with the other cells ends in [None]. *)
Theorem parse_card_row_returns (r : row) :
  is_Some (flag_text r) -> exists o, _parse_card_row r = Return o.
Proof.
  intros [s Hs]. unfold _parse_card_row, get.
  assert (Hup : cell_upper (default (CStr "") (r !! "DeckBuildable")) = Return (upper s)).
  { unfold flag_text in Hs.
    destruct (r !! "DeckBuildable") as [[t|n]|]; inversion Hs; reflexivity. }
  rewrite Hup. cbn [mbind py_bind].
  destruct (negb (String.eqb (upper s) "TRUE")); [eauto |].
  destruct (negb (get_truthy r "Name")); [eauto |].
  apply try_except_returns.
Qed.

Lemma parse_card_row_returns_witness :
  exists o, _parse_card_row (<["Cost" := CStr "two"]> Samples.torch_row) = Return o.
Proof.
  apply parse_card_row_returns. exists "true". vm_compute. reflexivity.
Defined.

Lemma load_rows_parsed (rows : list row) (cache : list Card) :
  Forall (fun r => is_Some (flag_text r)) rows ->
  load_rows rows cache = (Return (), cache ++ parsed_cards rows).
Proof.
  revert cache. induction rows as [|r rows IH]; intros cache Hall.
  - cbn. now rewrite app_nil_r.
  - apply Forall_cons in Hall as [Hr Hall]. cbn [load_rows].
    unfold parsed_cards. rewrite omap_cons. fold (parsed_cards rows).
    destruct (parse_card_row_returns r Hr) as [[card|] Hp]; rewrite Hp.
    + rewrite IH by exact Hall. now rewrite <- app_assoc.
    + now apply IH.
Qed.

Lemma load_rows_stops (good rest : list row) (bad : row) (cache : list Card) :
  Forall (fun r => is_Some (flag_text r)) good ->
  flag_text bad = None ->
  load_rows (good ++ bad :: rest) cache =
  (Raise AttributeError, cache ++ parsed_cards good).
Proof.
  intros Hgood Hbad. revert cache.
  induction good as [|r good IH]; intros cache.
  - cbn [app load_rows]. unfold _parse_card_row, get.
    unfold flag_text in Hbad.
    destruct (bad !! "DeckBuildable") as [[t|n]|]; try discriminate.
    cbn. now rewrite app_nil_r.
  - apply Forall_cons in Hgood as [Hr Hgood]. cbn [app load_rows].
    unfold parsed_cards. rewrite omap_cons. fold (parsed_cards good).
    destruct (parse_card_row_returns r Hr) as [[card|] Hp]; rewrite Hp.
    + rewrite IH by exact Hgood. now rewrite <- app_assoc.
    + now apply IH.
Qed.

(** Loading.  On a fresh client a sheet whose [DeckBuildable] cells are all
    text or missing loads as the cards its rows parse to, in row order.  Once
    loaded, [get_all_cards] leaves the client alone and answers from the
    cache.  When no connection is made or the sheet read raises, nothing
    changes and the next call tries again. *)
Theorem get_all_cards_loads :
  (forall rows, Forall (fun r => is_Some (flag_text r)) rows ->
     get_all_cards (Some (Return rows)) client_init =
     (parsed_cards rows,
      {| _cards_cache := parsed_cards rows; _cache_loaded := true |})) /\
  (forall reply self, _cache_loaded self = true ->
     get_all_cards reply self = (_cards_cache self, self)) /\
  (forall self e, _cache_loaded self = false ->
     get_all_cards None self = (_cards_cache self, self) /\
     get_all_cards (Some (Raise e)) self = (_cards_cache self, self)).
Proof.
  split; [|split].
  - intros rows Hall. unfold get_all_cards, _load_all_cards. cbn.
    now rewrite load_rows_parsed.
  - intros reply self Hl. unfold get_all_cards. now rewrite Hl.
  - intros self e Hl. unfold get_all_cards. rewrite Hl. cbn. auto.
Qed.

Lemma get_all_cards_loads_witness :
  (get_all_cards (Some (Return [Samples.hidden_row; Samples.torch_row])) client_init).1 =
    parsed_cards [Samples.hidden_row; Samples.torch_row] /\
  length (parsed_cards [Samples.hidden_row; Samples.torch_row]) = 1%nat.
Proof.
  split; [|vm_compute; reflexivity].
  rewrite (proj1 get_all_cards_loads); [reflexivity |].
  repeat constructor; eexists; vm_compute; reflexivity.
Defined.

(** A load that stops at a row with a numeric [DeckBuildable] cell keeps the
    cards read so far and leaves the client unloaded, so the next reader
    loads again on top of them: the cards before the bad row are then in the
    cache twice. *)
Theorem failed_load_then_retry (good rest : list row) (bad : row) :
  Forall (fun r => is_Some (flag_text r)) good ->
  flag_text bad = None ->
  let reply := Some (Return (good ++ bad :: rest)) in
  let self1 := (get_all_cards reply client_init).2 in
  _cards_cache self1 = parsed_cards good /\
  _cache_loaded self1 = false /\
  (get_all_cards reply self1).1 = parsed_cards good ++ parsed_cards good.
Proof.
  intros Hgood Hbad reply self1.
  assert (H1 : self1 = {| _cards_cache := parsed_cards good; _cache_loaded := false |}).
  { unfold self1, reply, get_all_cards, _load_all_cards. cbn.
    now rewrite (load_rows_stops good rest bad [] Hgood Hbad). }
  rewrite H1. cbn [_cards_cache _cache_loaded]. split; [reflexivity |].
  split; [reflexivity |].
  unfold reply, get_all_cards, _load_all_cards. cbn.
  now rewrite (load_rows_stops good rest bad _ Hgood Hbad).
Qed.

Lemma failed_load_then_retry_witness :
  (get_all_cards (Some (Return [Samples.torch_row; Samples.numeric_flag_row]))
     (get_all_cards (Some (Return [Samples.torch_row; Samples.numeric_flag_row]))
        client_init).2).1 =
  parsed_cards [Samples.torch_row] ++ parsed_cards [Samples.torch_row].
Proof.
  apply (failed_load_then_retry [Samples.torch_row] [] Samples.numeric_flag_row).
  - repeat constructor. eexists. vm_compute. reflexivity.
  - vm_compute. reflexivity.
Defined.

Lemma filter_if {A} (b : bool) (P : A -> Prop) `{!forall x, Decision (P x)}
    (l : list A) (x : A) :
  x ∈ (if b then filter P l else l) <-> x ∈ l /\ (b = true -> P x).
Proof.
  destruct b.
  - rewrite list_elem_of_filter. tauto.
  - split; [intros Hx; split; [exact Hx | discriminate] | tauto].
Qed.

Lemma filter_if_sublist {A} (b : bool) (P : A -> Prop) `{!forall x, Decision (P x)}
    (l : list A) :
  sublist (if b then filter P l else l) l.
Proof. destruct b; [apply sublist_filter | reflexivity]. Qed.

Lemma search_cards_in_elem (cache : list Card) (name card_type : option string)
    (cost_max : option Z) (factions : option (list string))
    (rarity text_contains : option string) (c : Card) :
  c ∈ search_cards_in cache name card_type cost_max factions rarity text_contains <->
  c ∈ cache /\
  search_cards_ok name card_type cost_max factions rarity text_contains c.
Proof.
  unfold search_cards_in, search_cards_ok, same_name. cbv zeta.
  rewrite !filter_if.
  assert (Hcost : forall l : list Card,
             c ∈ match cost_max with
                 | Some m => filter (fun c => cost c ≤ m) l
                 | None => l
                 end <-> c ∈ l /\ (forall m, cost_max = Some m -> cost c ≤ m)).
  { intros l. destruct cost_max as [m|].
    - rewrite list_elem_of_filter. split.
      + intros [H1 H2]. split; [exact H2 |]. intros m' Hm. now inversion Hm; subst.
      + intros [H1 H2]. split; [now apply H2 | exact H1].
    - split; [intros H; split; [exact H | discriminate] | tauto]. }
  rewrite Hcost, !filter_if. rewrite Exists_exists.
  rewrite !Is_true_true, !contains_occurs.
  split.
  - intros ((((((Hc & H1) & H2) & H3) & H4) & H5) & H6).
    repeat split; auto.
    intros Ht. destruct (H4 Ht) as (sym & Hin & Hocc).
    apply list_elem_of_fmap in Hin as (f & -> & Hf).
    exists f. split; [exact Hf |]. now apply contains_occurs, Is_true_true.
  - intros (Hc & H1 & H2 & H3 & H4 & H5 & H6).
    repeat split; auto.
    intros Ht. destruct (H4 Ht) as (f & Hf & Hocc).
    exists (symbol_or_self f). split.
    + now apply list_elem_of_fmap_2.
    + now apply Is_true_true, contains_occurs.
Qed.

(** [search_cards] keeps, in cache order, exactly the cards that pass every
    filter that is set; with no filter set it returns the whole cache.  A
    faction is given by name or directly by its symbol, with the same
    result. *)
Theorem search_cards_exact (cache : list Card) (name card_type : option string)
    (cost_max : option Z) (factions : option (list string))
    (rarity text_contains : option string) :
  (forall c,
     c ∈ search_cards_in cache name card_type cost_max factions rarity text_contains <->
     c ∈ cache /\
     search_cards_ok name card_type cost_max factions rarity text_contains c) /\
  sublist (search_cards_in cache name card_type cost_max factions rarity text_contains)
          cache /\
  search_cards_in cache None None None None None None = cache /\
  search_cards_in cache name card_type cost_max
    (Some (symbol_or_self <$> items factions)) rarity text_contains =
  search_cards_in cache name card_type cost_max
    (Some (items factions)) rarity text_contains.
Proof.
  split; [intros c; apply search_cards_in_elem |]. split; [|split; [reflexivity |]].
  - unfold search_cards_in. cbv zeta.
    repeat (etransitivity; [apply filter_if_sublist |]).
    etransitivity.
    { destruct cost_max; [apply sublist_filter | reflexivity]. }
    repeat (etransitivity; [apply filter_if_sublist |]). reflexivity.
  - unfold search_cards_in. cbv zeta.
    assert (Hidem : forall f, symbol_or_self (symbol_or_self f) = symbol_or_self f).
    { intros f.
      destruct (Config.dict_get faction_symbols f) as [sym|] eqn:Hget.
      - assert (Hf : symbol_or_self f = sym)
          by (unfold symbol_or_self; now rewrite Hget).
        rewrite Hf. unfold faction_symbols in Hget. cbn -[String.eqb] in Hget.
        repeat match type of Hget with
               | context [String.eqb ?a ?b] => destruct (String.eqb a b)
               end; inversion Hget; reflexivity.
      - assert (Hf : symbol_or_self f = f)
          by (unfold symbol_or_self; now rewrite Hget).
        now rewrite !Hf. }
    assert (Hmap : symbol_or_self <$> (symbol_or_self <$> items factions) =
                   symbol_or_self <$> items factions).
    { rewrite <- list_fmap_compose. apply list_fmap_ext. intros _ f _. apply Hidem. }
    assert (Ht : truthy_list (Some (symbol_or_self <$> items factions)) =
                 truthy_list (Some (items factions))).
    { destruct (items factions); reflexivity. }
    rewrite Ht. cbn [items default]. change (id ?x) with x. rewrite Hmap. reflexivity.
Qed.

Lemma first_named_spec (cache : list Card) (k : string) :
  match first_named cache k with
  | Some c => exists before after,
                cache = before ++ c :: after /\ lower (name c) = k /\
                forall d, d ∈ before -> lower (name d) <> k
  | None => forall d, d ∈ cache -> lower (name d) <> k
  end.
Proof.
  induction cache as [|x l IH]; cbn [first_named].
  - intros d Hd. inversion Hd.
  - destruct (String.eqb (lower (name x)) k) eqn:He.
    + apply String.eqb_eq in He. exists [], l. split; [reflexivity |].
      split; [exact He |]. intros d Hd. inversion Hd.
    + apply String.eqb_neq in He. destruct (first_named l k) as [c|].
      * destruct IH as (before & after & -> & Hk & Hno).
        exists (x :: before), after. split; [reflexivity |]. split; [exact Hk |].
        intros d Hd. apply elem_of_cons in Hd as [-> | Hd]; [exact He | now apply Hno].
      * intros d Hd. apply elem_of_cons in Hd as [-> | Hd]; [exact He | now apply IH].
Qed.

(** The client's [get_card_by_name] gives the first cached card whose name
    matches up to case, and [None] exactly when there is none.  On the same
    cards the engine's lookup finds a card exactly when the client's does,
    and the same card when the cached names are distinct up to case. *)
Theorem client_get_card_by_name_spec (self : SearchEngine) (x : string) :
  match first_named (all_cards self) (lower x) with
  | Some c => (exists before after,
                 all_cards self = before ++ c :: after /\ same_name (name c) x /\
                 forall d, d ∈ before -> ~ same_name (name d) x) /\
              is_Some (Search.get_card_by_name self x) /\
              (NoDup ((fun c => lower (name c)) <$> all_cards self) ->
               Search.get_card_by_name self x = Some c)
  | None => ~ in_cache self x /\ Search.get_card_by_name self x = None
  end.
Proof.
  pose proof (first_named_spec (all_cards self) (lower x)) as H.
  destruct (first_named (all_cards self) (lower x)) as [c|].
  - destruct H as (before & after & Heq & Hk & Hno).
    assert (Hin : c ∈ all_cards self).
    { rewrite Heq. apply elem_of_app. right. constructor. }
    split; [exists before, after; auto |]. split.
    + destruct (cards_by_name_cached self x) as (c' & Hl & _); [now exists c |].
      unfold Search.get_card_by_name. rewrite Hl. eauto.
    + intros Hnd. unfold Search.get_card_by_name. rewrite <- Hk.
      now apply index_last.
  - assert (Hno : ~ in_cache self x).
    { intros (c & Hc & Hn). now apply (H c Hc). }
    split; [exact Hno |]. unfold Search.get_card_by_name.
    destruct (cards_by_name self !! lower x) as [c|] eqn:Hl; [|reflexivity].
    exfalso. apply Hno. apply cards_by_name_sound in Hl as [Hin Hn]. now exists c.
Qed.

Lemma client_get_card_by_name_spec_witness :
  (Sheets.get_card_by_name None
     {| _cards_cache := all_cards Samples.offline; _cache_loaded := true |}
     "FIRE SIGIL").1 = Some Samples.fire_sigil /\
  Search.get_card_by_name Samples.offline "FIRE SIGIL" = Some Samples.fire_sigil.
Proof.
  split; [vm_compute; reflexivity |].
  pose proof (client_get_card_by_name_spec Samples.offline "FIRE SIGIL") as H.
  assert (Hf : first_named (all_cards Samples.offline) (lower "FIRE SIGIL") =
               Some Samples.fire_sigil) by (vm_compute; reflexivity).
  rewrite Hf in H. destruct H as (_ & _ & H). apply H.
  vm_compute. repeat constructor; set_solver.
Defined.

Lemma ensure_loaded_reachable (reply : sheet_reply) (self : GoogleSheetsClient) :
  reachable self -> reachable (ensure_loaded reply self).
Proof. intros H. exact (reach_get reply self H). Qed.

(** Every reader loads an unloaded client first and then answers from the
    cache, so on a client that a run can reach all cards that
    [search_cards], [get_card_by_name] and [get_market_access_cards] hand
    out are deck buildable; the market reader hands out exactly the cached
    cards that grant market access. *)
Theorem client_readers_buildable (reply : sheet_reply) (self : GoogleSheetsClient) :
  reachable self ->
  (forall name card_type cost_max factions rarity text_contains c,
     c ∈ (search_cards reply self name card_type cost_max factions rarity
            text_contains).1 -> deck_buildable c = true) /\
  (forall x c, (Sheets.get_card_by_name reply self x).1 = Some c ->
               deck_buildable c = true) /\
  (forall c, c ∈ (get_market_access_cards reply self).1 <->
             c ∈ (get_all_cards reply self).1 /\ can_access_market c = true) /\
  (forall c, c ∈ (get_market_access_cards reply self).1 -> deck_buildable c = true).
Proof.
  intros Hr. apply (ensure_loaded_reachable reply) in Hr.
  apply reachable_buildable in Hr. rewrite Forall_forall in Hr.
  split; [|split; [|split]].
  - intros name card_type cost_max factions rarity text_contains c Hc.
    cbn [fst search_cards] in Hc. apply search_cards_in_elem in Hc as [Hc _].
    now apply Hr.
  - intros x c Hc. cbn [fst Sheets.get_card_by_name] in Hc.
    pose proof (first_named_spec (_cards_cache (ensure_loaded reply self)) (lower x)) as H.
    rewrite Hc in H. destruct H as (before & after & Heq & _).
    apply Hr. rewrite Heq. apply elem_of_app. right. constructor.
  - intros c. cbn [fst get_market_access_cards get_all_cards].
    fold (ensure_loaded reply self).
    rewrite list_elem_of_filter, Is_true_true. tauto.
  - intros c Hc. cbn [fst get_market_access_cards] in Hc.
    apply list_elem_of_filter in Hc as [_ Hc]. now apply Hr.
Qed.

Lemma client_readers_buildable_witness :
  Forall (fun c => deck_buildable c = true)
    (search_cards (Some (Return [Samples.hidden_row; Samples.torch_row]))
       client_init (Some "tor") None (Some 3) (Some ["Fire"]) None None).1.
Proof.
  apply Forall_forall. intros c.
  apply (proj1 (client_readers_buildable
                  (Some (Return [Samples.hidden_row; Samples.torch_row]))
                  client_init reach_init)).
Defined.

(** ** Further properties of the card model *)

(** At most one of the type flags of a card holds. *)
Theorem type_flags_exclusive (c : Card) :
  (is_power c = true -> is_unit c = false /\ is_spell c = false) /\
  (is_unit c = true -> is_power c = false /\ is_spell c = false) /\
  (is_spell c = true -> is_power c = false /\ is_unit c = false).
Proof.
  unfold is_power, is_unit, is_spell.
  split; [|split]; intros Ht; apply String.eqb_eq in Ht; rewrite Ht;
    split; reflexivity.
Qed.

Lemma type_flags_exclusive_witness :
  is_unit Samples.fire_sigil = false /\ is_spell Samples.fire_sigil = false.
Proof.
  apply (proj1 (type_flags_exclusive Samples.fire_sigil)). reflexivity.
Defined.

Lemma occurs_in_weaken (a p s : string) : occurs_in (a +:+ p) s -> occurs_in p s.
Proof.
  intros (pre & post & ->). exists (pre +:+ a), post.
  clear. induction pre as [|x pre IH].
  - rewrite !append_nil. induction a as [|y a IHa]; [reflexivity |].
    rewrite !append_cons. now rewrite IHa.
  - rewrite !append_cons. now rewrite IH.
Qed.

(** The market test comes down to one pattern: a card grants market access
    exactly when its lowercased text holds "your market"; the two longer
    patterns and the test for empty text add nothing. *)
Theorem can_access_market_one_pattern (c : Card) :
  can_access_market c = contains "your market" (lower (card_text c)).
Proof.
  unfold can_access_market. destruct (card_text c) as [|a t] eqn:Ht; [reflexivity |].
  cbn [truthy negb existsb market_patterns]. rewrite orb_false_r.
  destruct (contains "your market" (lower (String a t))) eqn:Hc; [reflexivity |].
  cbn [orb].
  assert (Hno : forall p, contains (p +:+ "your market") (lower (String a t)) = false).
  { intros p. destruct (contains (p +:+ "your market") _) eqn:Hp; [|reflexivity].
    apply contains_occurs, occurs_in_weaken, contains_occurs in Hp. congruence. }
  pose proof (Hno "from ") as H1. pose proof (Hno "in ") as H2.
  change ("from " +:+ "your market") with "from your market" in H1.
  change ("in " +:+ "your market") with "in your market" in H2.
  rewrite H1, H2. reflexivity.
Qed.

(** ** Further properties of the scout *)

Lemma search_card_origin (self : SearchEngine) (q : string)
    (filters : SearchFilters) (n : Z) (r : SearchResult) (c : Card) :
  search self q (Some filters) n = Return r -> c ∈ cards r ->
  c ∈ all_cards self /\
  (cost_in_range filters c \/
   exists x, x ∈ items (must_include filters) /\ get_card_by_name self x = Some c).
Proof.
  intros H Hc. apply search_inv in H as (results & i & u & Hs & Hcards & _).
  change (default default_filters (Some filters)) with filters in *.
  rewrite Hcards in Hc. apply slice_to_subseteq in Hc. unfold before_cut in Hc.
  apply apply_exclusions_elem in Hc as [Hc _].
  destruct (ensure_must_include_shape self results (items (must_include filters)))
    as (ins & Heq & _ & Hfrom & _).
  rewrite Heq in Hc. apply elem_of_app in Hc as [Hc | Hc].
  - destruct (Hfrom c Hc) as (x & Hx & Hlook). split.
    + now apply cards_by_name_sound in Hlook.
    + right. now exists x.
  - split; [eapply strategy_results_cached; eauto |].
    left. eapply strategy_results_in_range; eauto.
Qed.

Lemma add_unique_from (found : list Card) (acc : list Card * gset string) (c : Card) :
  c ∈ (add_unique acc found).1 -> c ∈ acc.1 \/ c ∈ found.
Proof.
  unfold add_unique. revert acc.
  induction found as [|x l IH]; intros [all seen] H; simpl in H; [now left |].
  apply IH in H as [H | H]; [|right; now constructor].
  destruct (decide (name x ∉ seen)); cbn [fst] in H.
  - apply elem_of_app in H as [H | H]; [now left |].
    apply list_elem_of_singleton in H as ->. right. constructor.
  - now left.
Qed.

Lemma run_queries_from (engine : SearchEngine) (base_filters : SearchFilters)
    (qs : list search_query) (acc out : list Card * gset string) (P : Card -> Prop) :
  (forall q r c, search engine q (Some base_filters) 1000 = Return r ->
                 c ∈ cards r -> P c) ->
  (forall c, c ∈ acc.1 -> P c) ->
  run_queries engine base_filters qs acc = Return out ->
  forall c, c ∈ out.1 -> P c.
Proof.
  intros Hsearch. revert acc.
  induction qs as [|q qs IH]; intros acc Hacc H; simpl in H.
  - now injection H as <-.
  - apply bind_return in H as (result & Hr & H).
    eapply IH; [|exact H]. intros c Hc.
    apply add_unique_from in Hc as [Hc | Hc]; [now apply Hacc |].
    eapply Hsearch; eauto.
Qed.

(** The pool that the searches collect.  Every card of it is a cached card,
    and either lies within the cost bounds of the base filters or was asked
    for by name, in the filters' must-include list or in the strategy's.  The
    base filters keep a maximum cost that the caller set, and otherwise cap
    the cost at 5 for an aggro strategy and at 12 for a control strategy. *)
Theorem execute_searches_pool (engine : SearchEngine) (qs : list search_query)
    (strategy : StrategyAnalysis) (extra : option SearchFilters) (pool : list Card) :
  _execute_searches engine qs strategy extra = Return pool ->
  let base := _create_base_filters strategy extra in
  (forall c, c ∈ pool ->
     c ∈ all_cards engine /\
     (cost_in_range base c \/
      (exists x, x ∈ items (must_include base) /\ get_card_by_name engine x = Some c) \/
      (exists x, x ∈ must_include_cards strategy /\
                 get_card_by_name engine x = Some c))) /\
  max_cost base =
    match max_cost (default default_filters extra) with
    | Some m => Some m
    | None => if String.eqb (Scout.archetype strategy) "aggro" then Some 5
              else if String.eqb (Scout.archetype strategy) "control" then Some 12
              else None
    end.
Proof.
  intros H base. split; [|reflexivity].
  unfold _execute_searches in H. cbv zeta in H. fold base in H.
  apply bind_return in H as ([all seen] & Hrun & H). injection H as <-.
  set (P := fun c : Card =>
              c ∈ all_cards engine /\
              (cost_in_range base c \/
               (exists x, x ∈ items (must_include base) /\
                          get_card_by_name engine x = Some c) \/
               (exists x, x ∈ must_include_cards strategy /\
                          get_card_by_name engine x = Some c))).
  assert (Hall : forall c, c ∈ all -> P c).
  { apply (run_queries_from engine base qs ([], ∅) (all, seen) P); [| |exact Hrun].
    - intros q r c Hr Hc. destruct (search_card_origin _ _ _ _ _ _ Hr Hc) as [H1 H2].
      split; [exact H1 |]. tauto.
    - intros c Hc. inversion Hc. }
  clear Hrun.
  enough (Hfold : forall (l : list string) (acc : list Card * gset string),
            (forall x, x ∈ l -> x ∈ must_include_cards strategy) ->
            (forall c, c ∈ acc.1 -> P c) ->
            forall c, c ∈ (fold_left (fun '(all_cards, seen_cards) card_name =>
                             match get_card_by_name engine card_name with
                             | Some card =>
                                 if decide (name card ∉ seen_cards)
                                 then (card :: all_cards, seen_cards ∪ {[name card]})
                                 else (all_cards, seen_cards)
                             | None => (all_cards, seen_cards)
                             end) l acc).1 -> P c).
  { apply (Hfold (must_include_cards strategy) (all, seen)); [tauto | exact Hall]. }
  induction l as [|x l IH]; intros [a s] Hsub Ha c Hc; [now apply Ha |].
  cbn [fold_left] in Hc. eapply IH; [| |exact Hc].
  - intros y Hy. apply Hsub. now constructor.
  - intros d Hd. destruct (get_card_by_name engine x) as [card|] eqn:Hget;
      [|now apply Ha].
    destruct (decide (name card ∉ s)); [|now apply Ha].
    cbn [fst] in Hd. apply elem_of_cons in Hd as [-> | Hd]; [|now apply Ha].
    split.
    + unfold get_card_by_name in Hget. now apply cards_by_name_sound in Hget.
    + right. right. exists x. split; [apply Hsub; constructor | exact Hget].
Qed.

Lemma execute_searches_pool_witness :
  exists pool,
    _execute_searches Samples.offline
      [{| q_query := "torch"; q_purpose := "original_input" |}]
      Samples.aggro_fire None = Return pool /\
    Forall (fun c => c ∈ all_cards Samples.offline) pool /\
    max_cost (_create_base_filters Samples.aggro_fire None) = Some 5.
Proof.
  eexists. split; [vm_compute; reflexivity |].
  destruct (execute_searches_pool Samples.offline
              [{| q_query := "torch"; q_purpose := "original_input" |}]
              Samples.aggro_fire None _ eq_refl) as [H1 H2].
  split; [|rewrite H2; reflexivity].
  apply Forall_forall. intros c Hc. now apply H1.
Defined.

Lemma classify_section (strategy : StrategyAnalysis) (b : buckets) (c : Card) :
  classify strategy b c =
  match section_of strategy c with
  | InMustInclude =>
      {| b_must_include := b_must_include b ++ [c]; core_cards := core_cards b;
         synergy_cards := synergy_cards b; support_cards := support_cards b |}
  | InCore =>
      {| b_must_include := b_must_include b; core_cards := core_cards b ++ [c];
         synergy_cards := synergy_cards b; support_cards := support_cards b |}
  | InSynergy =>
      {| b_must_include := b_must_include b; core_cards := core_cards b;
         synergy_cards := synergy_cards b ++ [c]; support_cards := support_cards b |}
  | InSupport =>
      {| b_must_include := b_must_include b; core_cards := core_cards b;
         synergy_cards := synergy_cards b; support_cards := support_cards b ++ [c] |}
  end.
Proof.
  unfold classify, section_of.
  destruct (bool_decide (name c ∈ must_include_cards strategy)); [reflexivity |].
  destruct (is_power c); [reflexivity |].
  destruct (PrimFloat.leb f0_8 (_calculate_relevance c strategy)); [reflexivity |].
  destruct (PrimFloat.leb f0_5 (_calculate_relevance c strategy)); reflexivity.
Qed.

Lemma section_cards_cons (strategy : StrategyAnalysis) (sec : section)
    (c : Card) (l : list Card) :
  section_cards strategy sec (c :: l) =
  if decide (section_of strategy c = sec) then c :: section_cards strategy sec l
  else section_cards strategy sec l.
Proof. unfold section_cards. now rewrite filter_cons. Qed.

Lemma classify_fold_sections (strategy : StrategyAnalysis) (cards : list Card)
    (b : buckets) :
  let b' := fold_left (classify strategy) cards b in
  b_must_include b' = b_must_include b ++ section_cards strategy InMustInclude cards /\
  core_cards b' = core_cards b ++ section_cards strategy InCore cards /\
  synergy_cards b' = synergy_cards b ++ section_cards strategy InSynergy cards /\
  support_cards b' = support_cards b ++ section_cards strategy InSupport cards.
Proof.
  revert b. induction cards as [|c l IH]; intros b; cbn [fold_left].
  - cbv zeta. unfold section_cards. rewrite !filter_nil, !app_nil_r. auto.
  - cbv zeta. destruct (IH (classify strategy b c)) as (H1 & H2 & H3 & H4).
    rewrite H1, H2, H3, H4, classify_section, !section_cards_cons.
    destruct (section_of strategy c);
      cbn [b_must_include core_cards synergy_cards support_cards];
      repeat match goal with
             | |- context [decide (?a = ?b)] => destruct (decide (a = b)); try discriminate
             end;
      try congruence; rewrite <- ?app_assoc; auto.
Qed.

Lemma insert_sorted_hd {A} (key : A -> Z) (x y : A) (l : list A) :
  HdRel (fun a b => key a ≤ key b) y l -> key y ≤ key x ->
  HdRel (fun a b => key a ≤ key b) y (insert_sorted key x l).
Proof.
  intros Hl Hyx. destruct l as [|z l]; simpl; [now constructor |].
  destruct (key x <=? key z); constructor; [exact Hyx | now inversion Hl].
Qed.

Lemma sorted_sorted {A} (key : A -> Z) (l : list A) :
  StronglySorted (fun a b => key a ≤ key b) (sorted key l).
Proof.
  apply Sorted_StronglySorted; [intros a b c; lia |].
  unfold sorted. induction l as [|x l IH]; simpl; [constructor |].
  generalize dependent (foldr (insert_sorted key) [] l). clear l.
  intros l Hl. induction Hl as [|y l Hs IHs Hhd]; simpl; [repeat constructor |].
  destruct (key x <=? key y) eqn:Hc.
  - apply Z.leb_le in Hc. repeat constructor; assumption.
  - apply Z.leb_gt in Hc. constructor; [exact IHs |].
    apply insert_sorted_hd; [exact Hhd | lia].
Qed.

Lemma organize_closed_form (cards : list Card) (strategy : StrategyAnalysis) :
  NoDup (name <$> cards) ->
  _organize_card_pool cards strategy =
    section_cards strategy InMustInclude cards ++
    sorted cost (section_cards strategy InCore cards) ++
    sorted cost (section_cards strategy InSynergy cards) ++
    sorted cost (section_cards strategy InSupport cards).
Proof.
  intros Hnd. unfold _organize_card_pool. cbv zeta.
  pose proof (organized_perm cards strategy _ eq_refl) as Hp.
  rewrite remove_duplicates_id by now rewrite Hp.
  destruct (classify_fold_sections strategy cards
              {| b_must_include := []; core_cards := [];
                 synergy_cards := []; support_cards := [] |})
    as (H1 & H2 & H3 & H4).
  cbv zeta in H1, H2, H3, H4. rewrite H1, H2, H3, H4. reflexivity.
Qed.

Lemma sorted_app_ranked {A} (rank : A -> nat) (l k : list A) :
  StronglySorted (fun a b => (rank a <= rank b)%nat) l ->
  StronglySorted (fun a b => (rank a <= rank b)%nat) k ->
  (forall a b, a ∈ l -> b ∈ k -> (rank a <= rank b)%nat) ->
  StronglySorted (fun a b => (rank a <= rank b)%nat) (l ++ k).
Proof.
  intros Hl Hk Hlk. induction Hl as [|x l Hl IH Hx]; [exact Hk |].
  simpl. constructor.
  - apply IH. intros a b Ha Hb. apply Hlk; [now constructor | exact Hb].
  - apply Forall_app. split; [exact Hx |].
    apply Forall_forall. intros b Hb. apply Hlk; [constructor | exact Hb].
Qed.

Lemma one_section_ordered (strategy : StrategyAnalysis) (sec : section) (l : list Card) :
  (forall c, c ∈ l -> section_of strategy c = sec) -> in_bucket_order strategy l.
Proof.
  unfold in_bucket_order. induction l as [|x l IH]; intros Hall; constructor.
  - apply IH. intros c Hc. apply Hall. now constructor.
  - apply Forall_forall. intros b Hb.
    rewrite (Hall x) by constructor. rewrite (Hall b) by now constructor. lia.
Qed.

Lemma section_cards_section (strategy : StrategyAnalysis) (sec : section)
    (cards : list Card) (c : Card) :
  c ∈ section_cards strategy sec cards -> section_of strategy c = sec.
Proof. unfold section_cards. intros H. now apply list_elem_of_filter in H as [H _]. Qed.

Lemma sorted_section (strategy : StrategyAnalysis) (sec : section)
    (cards : list Card) (c : Card) :
  c ∈ sorted cost (section_cards strategy sec cards) -> section_of strategy c = sec.
Proof. rewrite sorted_perm. apply section_cards_section. Qed.

Lemma organize_bucket_order (cards : list Card) (strategy : StrategyAnalysis) :
  NoDup (name <$> cards) -> in_bucket_order strategy (_organize_card_pool cards strategy).
Proof.
  intros Hnd. rewrite (organize_closed_form cards strategy Hnd).
  unfold in_bucket_order.
  repeat apply sorted_app_ranked;
    try (eapply one_section_ordered; intros c Hc;
         first [ exact (section_cards_section _ _ _ _ Hc)
               | exact (sorted_section _ _ _ _ Hc) ]).
  - intros a b Ha Hb. apply sorted_section in Ha, Hb. rewrite Ha, Hb. simpl. lia.
  - intros a b Ha Hb. apply sorted_section in Ha. rewrite Ha.
    apply elem_of_app in Hb as [Hb | Hb]; apply sorted_section in Hb; rewrite Hb;
      simpl; lia.
  - intros a b Ha Hb. apply section_cards_section in Ha. rewrite Ha. simpl. lia.
Qed.

(** C6.  On cards with pairwise distinct names the organised pool is a
    permutation of the input, its names are again distinct, and it is in
    bucket order: the must-include cards come first, then the core, the
    synergy and the support cards, so that no card comes before a card of an
    earlier bucket.  The pool that the searches collect has distinct names,
    so the final scouted pool is such a reordering of it and holds no name
    twice. *)
Theorem organize_card_pool_permutation :
  (forall cards strategy, NoDup (name <$> cards) ->
     _organize_card_pool cards strategy ≡ₚ cards /\
     NoDup (name <$> _organize_card_pool cards strategy) /\
     in_bucket_order strategy (_organize_card_pool cards strategy) /\
     _organize_card_pool cards strategy =
       section_cards strategy InMustInclude cards ++
       sorted cost (section_cards strategy InCore cards) ++
       sorted cost (section_cards strategy InSynergy cards) ++
       sorted cost (section_cards strategy InSupport cards)) /\
  (forall engine search_queries strategy additional_filters pool,
     _execute_searches engine search_queries strategy additional_filters = Return pool ->
     NoDup (name <$> pool) /\
     _organize_card_pool pool strategy ≡ₚ pool /\
     NoDup (name <$> _organize_card_pool pool strategy) /\
     in_bucket_order strategy (_organize_card_pool pool strategy)).
Proof.
  assert (Hperm : forall cards strategy, NoDup (name <$> cards) ->
            _organize_card_pool cards strategy ≡ₚ cards).
  { intros cards strategy Hnd. unfold _organize_card_pool. cbv zeta.
    pose proof (organized_perm cards strategy _ eq_refl) as Hp.
    rewrite remove_duplicates_id; [exact Hp |]. now rewrite Hp. }
  split.
  - intros cards strategy Hnd. split; [now apply Hperm |].
    split; [apply remove_duplicates_names |].
    split; [now apply organize_bucket_order | now apply organize_closed_form].
  - intros engine qs strategy extra pool H.
    apply execute_searches_names in H. split; [exact H |].
    split; [now apply Hperm |].
    split; [apply remove_duplicates_names | now apply organize_bucket_order].
Qed.

Lemma organize_card_pool_permutation_witness :
  (_organize_card_pool (all_cards Samples.offline) Samples.kill_control =
     [Samples.harsh_rule; Samples.torch; Samples.seek_power;
      Samples.merchant; Samples.fire_sigil] /\
   section_of Samples.kill_control Samples.harsh_rule = InCore /\
   section_of Samples.kill_control Samples.torch = InSynergy /\
   _organize_card_pool (all_cards Samples.offline) Samples.kill_control
     ≡ₚ all_cards Samples.offline /\
   NoDup (name <$> _organize_card_pool (all_cards Samples.offline) Samples.kill_control) /\
   in_bucket_order Samples.kill_control
     (_organize_card_pool (all_cards Samples.offline) Samples.kill_control)) /\
  (exists pool,
     _execute_searches Samples.offline
       [{| q_query := "torch"; q_purpose := "original_input" |};
        {| q_query := "damage Fire"; q_purpose := "mechanic_damage" |};
        {| q_query := "deal"; q_purpose := "mechanic_deal" |}]
       Samples.aggro_fire None = Return pool /\
     pool = [Samples.harsh_rule; Samples.torch] /\
     NoDup (name <$> pool) /\
     _organize_card_pool pool Samples.aggro_fire ≡ₚ pool /\
     in_bucket_order Samples.aggro_fire (_organize_card_pool pool Samples.aggro_fire)).
Proof.
  destruct organize_card_pool_permutation as [Hpool Hscout]. split.
  - destruct (Hpool (all_cards Samples.offline) Samples.kill_control)
      as (Hperm & Hnd & Hord & Hform).
    { vm_compute. repeat constructor; set_solver. }
    split; [vm_compute; reflexivity |].
    split; [vm_compute; reflexivity |].
    split; [vm_compute; reflexivity |].
    split; [exact Hperm |]. split; [exact Hnd | exact Hord].
  - eexists. split; [vm_compute; reflexivity |]. split; [reflexivity |].
    destruct (Hscout Samples.offline
                [{| q_query := "torch"; q_purpose := "original_input" |};
                 {| q_query := "damage Fire"; q_purpose := "mechanic_damage" |};
                 {| q_query := "deal"; q_purpose := "mechanic_deal" |}]
                Samples.aggro_fire None _ eq_refl) as (Hnd & Hperm & _ & Hord).
    split; [exact Hnd |]. split; [exact Hperm | exact Hord].
Defined.

(** The organised pool in closed form.  On cards with distinct names the
    pool is the must-include cards in input order, then the core, the
    synergy and the support cards, each section in ascending order of cost;
    a card goes to the first section exactly when its name is listed, and a
    power card not listed goes to the last. *)
Theorem organize_card_pool_sections (cards : list Card) (strategy : StrategyAnalysis) :
  NoDup (name <$> cards) ->
  _organize_card_pool cards strategy =
    section_cards strategy InMustInclude cards ++
    sorted cost (section_cards strategy InCore cards) ++
    sorted cost (section_cards strategy InSynergy cards) ++
    sorted cost (section_cards strategy InSupport cards) /\
  by_cost (sorted cost (section_cards strategy InCore cards)) /\
  by_cost (sorted cost (section_cards strategy InSynergy cards)) /\
  by_cost (sorted cost (section_cards strategy InSupport cards)) /\
  (forall c, section_of strategy c = InMustInclude <->
             name c ∈ must_include_cards strategy) /\
  (forall c, name c ∉ must_include_cards strategy -> is_power c = true ->
             section_of strategy c = InSupport).
Proof.
  intros Hnd. split; [|split; [|split; [|split; [|split]]]];
    try apply sorted_sorted.
  - unfold _organize_card_pool. cbv zeta.
    pose proof (organized_perm cards strategy _ eq_refl) as Hp.
    rewrite remove_duplicates_id by now rewrite Hp.
    destruct (classify_fold_sections strategy cards
                {| b_must_include := []; core_cards := [];
                   synergy_cards := []; support_cards := [] |})
      as (H1 & H2 & H3 & H4).
    cbv zeta in H1, H2, H3, H4. rewrite H1, H2, H3, H4. reflexivity.
  - intros c. unfold section_of.
    destruct (bool_decide (name c ∈ must_include_cards strategy)) eqn:Hb.
    + apply bool_decide_eq_true in Hb. tauto.
    + apply bool_decide_eq_false in Hb. split; [|tauto].
      destruct (is_power c); [discriminate |].
      destruct (PrimFloat.leb f0_8 _); [discriminate |].
      destruct (PrimFloat.leb f0_5 _); discriminate.
  - intros c Hc Hp. unfold section_of.
    rewrite bool_decide_eq_false_2 by exact Hc. now rewrite Hp.
Qed.

Lemma organize_card_pool_sections_witness :
  _organize_card_pool (all_cards Samples.offline) Samples.aggro_fire =
    [Samples.harsh_rule] ++ [] ++
    [Samples.torch; Samples.seek_power; Samples.merchant] ++ [Samples.fire_sigil].
Proof.
  rewrite (proj1 (organize_card_pool_sections (all_cards Samples.offline)
                    Samples.aggro_fire
                    ltac:(vm_compute; repeat constructor; set_solver))).
  vm_compute. reflexivity.
Defined.

(** ** Decks *)

Lemma sum_quantity_where (keep : Decks.DeckCard -> bool) (l : list Decks.DeckCard) (acc : Z) :
  fold_left (fun acc dc => if keep dc then acc + Decks.quantity dc else acc) l acc =
  acc + quantity_where keep l.
Proof.
  revert acc. induction l as [|dc l IH]; intros acc; simpl; [lia |].
  rewrite IH. destruct (keep dc); lia.
Qed.

Lemma sum_quantity_eq (keep : Decks.DeckCard -> bool) (l : list Decks.DeckCard) :
  Decks.sum_quantity keep l = quantity_where keep l.
Proof. unfold Decks.sum_quantity. now rewrite sum_quantity_where. Qed.

Lemma type_flag_cases (c : Card) :
  (is_power c = true /\ is_unit c = false /\ is_spell c = false) \/
  (is_power c = false /\ is_unit c = true /\ is_spell c = false) \/
  (is_power c = false /\ is_unit c = false /\ is_spell c = true) \/
  (is_power c = false /\ is_unit c = false /\ is_spell c = false).
Proof.
  unfold is_power, is_unit, is_spell.
  destruct (String.eqb (lower (type c)) "power") eqn:Hp.
  - apply String.eqb_eq in Hp. rewrite Hp. auto.
  - destruct (String.eqb (lower (type c)) "unit") eqn:Hu.
    + apply String.eqb_eq in Hu. rewrite Hu. auto.
    + destruct (String.eqb (lower (type c)) "spell"); auto 6.
Qed.

Lemma quantity_where_bounds (l : list Decks.DeckCard) :
  valid_quantities l ->
  Z.of_nat (length l) ≤ quantity_where (fun _ => true) l ≤ 4 * Z.of_nat (length l) /\
  0 ≤ quantity_where (fun dc => is_power (Decks.card dc)) l /\
  quantity_where (fun dc => is_power (Decks.card dc)) l +
  quantity_where (fun dc => is_unit (Decks.card dc)) l +
  quantity_where (fun dc => is_spell (Decks.card dc)) l ≤
  quantity_where (fun _ => true) l.
Proof.
  induction 1 as [|dc l Hq Hl (IH1 & IH2 & IH3)]; simpl; [lia |].
  split; [lia |].
  destruct (type_flag_cases (Decks.card dc)) as [(-> & -> & ->) |
    [(-> & -> & ->) | [(-> & -> & ->) | (-> & -> & ->)]]]; lia.
Qed.

(** The deck counters, for quantities that the [DeckCard] constructor
    accepts: the total lies between the number of entries and four times
    that number; the power, unit and spell counts are disjoint parts of the
    total; and the deck has market access exactly when one of its cards
    grants it. *)
Theorem deck_counts (self : Decks.Deck) :
  valid_quantities (Decks.main_deck self) ->
  Z.of_nat (length (Decks.main_deck self)) ≤ Decks.total_cards self
    ≤ 4 * Z.of_nat (length (Decks.main_deck self)) /\
  0 ≤ Decks.power_count self /\
  Decks.power_count self + Decks.unit_count self + Decks.spell_count self
    ≤ Decks.total_cards self /\
  (Decks.has_market_access self = true <->
   exists dc, dc ∈ Decks.main_deck self /\ can_access_market (Decks.card dc) = true).
Proof.
  intros Hv. unfold Decks.total_cards, Decks.power_count, Decks.unit_count,
    Decks.spell_count.
  rewrite !sum_quantity_eq.
  destruct (quantity_where_bounds _ Hv) as (H1 & H2 & H3).
  split; [exact H1 |]. split; [exact H2 |]. split; [exact H3 |].
  unfold Decks.has_market_access. rewrite existsb_exists.
  split; intros (dc & Hin & Hm); exists dc; (split; [|exact Hm]);
    now apply list_elem_of_In.
Qed.

Lemma deck_counts_witness :
  Decks.total_cards Samples.burn_deck = 13 /\
  Decks.power_count Samples.burn_deck + Decks.unit_count Samples.burn_deck +
    Decks.spell_count Samples.burn_deck ≤ Decks.total_cards Samples.burn_deck /\
  Decks.has_market_access Samples.burn_deck = true.
Proof.
  split; [reflexivity |].
  destruct (deck_counts Samples.burn_deck) as (_ & _ & H & Hm).
  - repeat constructor; simpl; lia.
  - split; [exact H |]. apply Hm.
    exists {| Decks.card := Samples.merchant; Decks.quantity := 4 |}.
    split; [vm_compute; repeat constructor | reflexivity].
Defined.

Lemma curve_lookup (l : list Decks.DeckCard) (curve : gmap Z Z) (k : Z) :
  default 0 (fold_left (fun curve dc =>
               if negb (is_power (Decks.card dc)) then
                 <[cost (Decks.card dc) :=
                     default 0 (curve !! cost (Decks.card dc)) + Decks.quantity dc]> curve
               else curve) l curve !! k) =
  default 0 (curve !! k) +
  quantity_where (fun dc => negb (is_power (Decks.card dc)) &&
                            (cost (Decks.card dc) =? k)) l.
Proof.
  revert curve. induction l as [|dc l IH]; intros curve; simpl; [lia |].
  rewrite IH. destruct (is_power (Decks.card dc)); simpl; [lia |].
  destruct (cost (Decks.card dc) =? k) eqn:Hk.
  - apply Z.eqb_eq in Hk. rewrite Hk, lookup_insert_eq. simpl. lia.
  - apply Z.eqb_neq in Hk. rewrite lookup_insert_ne by exact Hk. lia.
Qed.

Lemma curve_keys (l : list Decks.DeckCard) (curve : gmap Z Z) (k : Z) :
  is_Some (fold_left (fun curve dc =>
             if negb (is_power (Decks.card dc)) then
               <[cost (Decks.card dc) :=
                   default 0 (curve !! cost (Decks.card dc)) + Decks.quantity dc]> curve
             else curve) l curve !! k) <->
  is_Some (curve !! k) \/
  exists dc, dc ∈ l /\ is_power (Decks.card dc) = false /\ cost (Decks.card dc) = k.
Proof.
  revert curve. induction l as [|dc l IH]; intros curve; simpl.
  - split; [now left | intros [H | (dc & Hdc & _)]; [exact H | inversion Hdc]].
  - rewrite IH. destruct (is_power (Decks.card dc)) eqn:Hp; simpl.
    + split; intros [H | (d & Hd & Hq & Hk)]; auto.
      * right. exists d. split; [now constructor | auto].
      * apply elem_of_cons in Hd as [-> | Hd]; [congruence |].
        right. now exists d.
    + destruct (decide (cost (Decks.card dc) = k)) as [Hk|Hk].
      * rewrite Hk, lookup_insert_eq. split; intros _.
        -- right. exists dc. split; [constructor | auto].
        -- left. eauto.
      * rewrite lookup_insert_ne by exact Hk.
        split; intros [H | (d & Hd & Hq & Hk')]; auto.
        -- right. exists d. split; [now constructor | auto].
        -- apply elem_of_cons in Hd as [-> | Hd]; [congruence |].
           right. now exists d.
Qed.

Lemma insert_item_perm (x : Z * Z) (l : list (Z * Z)) : Decks.insert_item x l ≡ₚ x :: l.
Proof.
  induction l as [|y l IH]; simpl; [reflexivity |].
  destruct (x.1 <=? y.1); [reflexivity |]. rewrite IH. apply Permutation_swap.
Qed.

Lemma sort_items_perm (l : list (Z * Z)) : foldr Decks.insert_item [] l ≡ₚ l.
Proof.
  induction l as [|x l IH]; simpl; [reflexivity |].
  now rewrite insert_item_perm, IH.
Qed.

Lemma insert_item_sorted (x : Z * Z) (l : list (Z * Z)) :
  Decks.insert_item x l = insert_sorted fst x l.
Proof. induction l as [|y l IH]; simpl; [reflexivity |]. now rewrite IH. Qed.

Lemma sort_items_sorted (l : list (Z * Z)) :
  foldr Decks.insert_item [] l = sorted fst l.
Proof.
  unfold sorted. induction l as [|x l IH]; simpl; [reflexivity |].
  now rewrite IH, insert_item_sorted.
Qed.

Lemma strictly_sorted (l : list (Z * Z)) :
  StronglySorted (fun a b => a.1 ≤ b.1) l -> NoDup (l.*1) ->
  StronglySorted (fun a b => a.1 < b.1) l.
Proof.
  induction 1 as [|x l Hs IH Hall]; intros Hnd; [constructor |].
  rewrite fmap_cons in Hnd. apply NoDup_cons in Hnd as [Hx Hnd].
  constructor; [now apply IH |].
  rewrite Forall_forall in *. intros y Hy.
  assert (x.1 <> y.1).
  { intros He. apply Hx. rewrite He. now apply list_elem_of_fmap_2. }
  specialize (Hall y Hy). lia.
Qed.

(** The mana curve.  [get_curve] lists each cost of a non-power card once,
    in strictly ascending order, with the total quantity of the non-power
    cards of that cost; costs that no non-power card has are absent. *)
Theorem get_curve_spec (self : Decks.Deck) :
  StronglySorted (fun a b => a.1 < b.1) (Decks.get_curve self) /\
  (forall k v, (k, v) ∈ Decks.get_curve self ->
     v = quantity_where (fun dc => negb (is_power (Decks.card dc)) &&
                                   (cost (Decks.card dc) =? k))
           (Decks.main_deck self)) /\
  (forall k, k ∈ (Decks.get_curve self).*1 <->
     exists dc, dc ∈ Decks.main_deck self /\ is_power (Decks.card dc) = false /\
                cost (Decks.card dc) = k).
Proof.
  unfold Decks.get_curve.
  pose proof (sort_items_perm (map_to_list (Decks.curve_dict self))) as Hp.
  split; [|split].
  - apply strictly_sorted.
    + rewrite sort_items_sorted. apply sorted_sorted.
    + rewrite Hp. apply NoDup_fst_map_to_list.
  - intros k v Hin. rewrite Hp in Hin. apply elem_of_map_to_list in Hin.
    pose proof (curve_lookup (Decks.main_deck self) ∅ k) as Hl.
    unfold Decks.curve_dict in Hin. rewrite Hin, lookup_empty in Hl.
    simpl in Hl. exact Hl.
  - intros k. rewrite Hp.
    pose proof (curve_keys (Decks.main_deck self) ∅ k) as Hk.
    rewrite lookup_empty in Hk. unfold Decks.curve_dict.
    rewrite list_elem_of_fmap. split.
    + intros ([k' v] & -> & Hin). apply elem_of_map_to_list in Hin.
      cbn [fst] in *.
      destruct (proj1 Hk (ex_intro _ v Hin)) as [[? H] | H]; [discriminate | exact H].
    + intros H. destruct (proj2 Hk (or_intror H)) as [v Hv].
      exists (k, v). split; [reflexivity |]. now apply elem_of_map_to_list.
Qed.

Lemma deckcard_init_valid (c : Card) (q : Z) (dc : Decks.DeckCard) :
  Decks.DeckCard_init c q = Return dc ->
  Decks.card dc = c /\ Decks.quantity dc = q /\ 1 ≤ q ≤ 4.
Proof.
  unfold Decks.DeckCard_init.
  destruct (1 <=? q) eqn:H1, (q <=? 4) eqn:H2; try discriminate.
  intros H. injection H as <-. apply Z.leb_le in H1, H2. simpl.
  split; [reflexivity |]. split; [reflexivity | lia].
Qed.

(** ** The pattern pass of the scout *)

Lemma any_in_occurs (patterns : list string) (s : string) :
  any_in patterns s = true <-> exists p, p ∈ patterns /\ occurs_in p s.
Proof.
  unfold any_in. rewrite existsb_exists. split.
  - intros (p & Hp & Hc). exists p. split; [now apply list_elem_of_In |].
    now apply contains_occurs.
  - intros (p & Hp & Hc). exists p. split; [now apply list_elem_of_In |].
    now apply contains_occurs.
Qed.

Lemma detected_cons (k : string) (ps : list string) (t : list (string * list string))
    (s : string) :
  detected ((k, ps) :: t) s = if any_in ps s then k :: detected t s else detected t s.
Proof.
  unfold detected. rewrite filter_cons. cbn [snd].
  destruct (decide (any_in ps s)) as [Hd|Hd].
  - apply Is_true_true in Hd. now rewrite Hd.
  - apply Is_true_false in Hd. now rewrite Hd.
Qed.

Lemma detected_nil (s : string) : detected [] s = [].
Proof. reflexivity. Qed.

Lemma detected_sublist (t : list (string * list string)) (s : string) :
  sublist (detected t s) (t.*1).
Proof.
  induction t as [|[k ps] t IH]; [constructor |].
  rewrite detected_cons, fmap_cons. cbn [fst].
  destruct (any_in ps s); [now apply sublist_skip | now apply sublist_cons].
Qed.

Lemma detected_mentions (t : list (string * list string)) (s k : string) :
  k ∈ detected t s <-> exists ps p, (k, ps) ∈ t /\ p ∈ ps /\ occurs_in p s.
Proof.
  induction t as [|[k' ps'] t IH].
  - split; [intros H; inversion H | intros (ps & p & H & _); inversion H].
  - rewrite detected_cons. split.
    + destruct (any_in ps' s) eqn:Ha.
      * intros H. apply elem_of_cons in H as [-> | H].
        -- apply any_in_occurs in Ha as (p & Hp & Ho).
           exists ps', p. split; [constructor | auto].
        -- apply IH in H as (ps & p & Hin & Hp & Ho).
           exists ps, p. split; [now constructor | auto].
      * intros H. apply IH in H as (ps & p & Hin & Hp & Ho).
        exists ps, p. split; [now constructor | auto].
    + intros (ps & p & Hin & Hp & Ho).
      apply elem_of_cons in Hin as [Heq | Hin].
      * injection Heq as -> ->.
        assert (Ha : any_in ps' s = true) by (apply any_in_occurs; eauto).
        rewrite Ha. constructor.
      * assert (Hk : k ∈ detected t s) by (apply IH; eauto).
        destruct (any_in ps' s); [now constructor | exact Hk].
Qed.

Lemma detect_archetype_head (t : list (string * list string)) (s cur : string) :
  detect_archetype t s cur = default cur (head (detected t s)).
Proof.
  induction t as [|[k ps] t IH]; [reflexivity |].
  rewrite detected_cons. simpl. destruct (any_in ps s); [reflexivity | exact IH].
Qed.

Lemma append_new_elem (l : list string) (x y : string) :
  y ∈ append_new l x <-> y ∈ l \/ y = x.
Proof.
  unfold append_new. destruct (bool_decide (x ∈ l)) eqn:H.
  - apply bool_decide_eq_true in H. split; [now left | intros [Hy | ->]; auto].
  - rewrite elem_of_app, list_elem_of_singleton. reflexivity.
Qed.

Lemma append_new_NoDup (l : list string) (x : string) :
  NoDup l -> NoDup (append_new l x).
Proof.
  intros Hnd. unfold append_new. destruct (bool_decide (x ∈ l)) eqn:H; [exact Hnd |].
  apply bool_decide_eq_false in H. apply NoDup_app. split; [exact Hnd |].
  split; [|apply NoDup_singleton].
  intros y Hy Hin. apply list_elem_of_singleton in Hin. now subst y.
Qed.

Lemma append_new_twice (l : list string) (x : string) :
  append_new (append_new l x) x = append_new l x.
Proof.
  unfold append_new at 1.
  rewrite bool_decide_eq_true_2; [reflexivity |].
  apply append_new_elem. now right.
Qed.

Lemma append_new_prefix (l : list string) (x : string) :
  exists added, append_new l x = l ++ added /\ forall y, y ∈ added -> y = x.
Proof.
  unfold append_new. destruct (bool_decide (x ∈ l)).
  - exists []. split; [now rewrite app_nil_r | intros y Hy; inversion Hy].
  - exists [x]. split; [reflexivity |]. intros y Hy.
    now apply list_elem_of_singleton in Hy.
Qed.

(** The tribal loop: the focus is the last keyword of the list that
    occurs, and one occurrence is enough to add the mechanic once. *)
Lemma tribal_loop (keywords : list string) (s : string) (focus : option string)
    (mechanics : list string) :
  fold_left (fun '(focus, mechanics) tribal =>
               if contains tribal s then
                 (Some (capitalize tribal),
                  if bool_decide ("tribal" ∈ mechanics) then mechanics
                  else mechanics ++ ["tribal"])
               else (focus, mechanics))
            keywords (focus, mechanics) =
  (match last (filter (fun t => contains t s) keywords) with
   | Some t => Some (capitalize t)
   | None => focus
   end,
   match filter (fun t => contains t s) keywords with
   | [] => mechanics
   | _ => append_new mechanics "tribal"
   end).
Proof.
  revert focus mechanics. induction keywords as [|t l IH]; intros focus mechanics;
    [reflexivity |].
  cbn [fold_left]. rewrite filter_cons.
  destruct (decide (contains t s)) as [Ht|Ht].
  - apply Is_true_true in Ht. rewrite Ht.
    change (if bool_decide ("tribal" ∈ mechanics) then mechanics
            else mechanics ++ ["tribal"]) with (append_new mechanics "tribal").
    rewrite IH. destruct (filter (fun t => contains t s) l) as [|t' l'] eqn:Hf.
    + reflexivity.
    + rewrite append_new_twice. f_equal.
      change (last (t :: t' :: l')) with (last (t' :: l')).
      destruct (last (t' :: l')) eqn:Hl; [reflexivity |].
      apply last_None in Hl. discriminate.
  - apply Is_true_false in Ht. rewrite Ht. apply IH.
Qed.

Lemma detect_patterns_fields (user_input : string) :
  _detect_patterns user_input =
  let s := lower user_input in
  let factions := detected FACTION_PATTERNS s in
  let found := filter (fun t => contains t s) tribal_keywords in
  let archetype_ := default "midrange" (head (detected ARCHETYPE_PATTERNS s)) in
  {| Scout.archetype := archetype_;
     speed := if String.eqb archetype_ "aggro" then "fast"
              else if String.eqb archetype_ "control" then "slow" else "medium";
     primary_faction := head factions;
     secondary_factions := take 2 (drop 1 factions);
     key_mechanics := match found with
                      | [] => detected MECHANIC_PATTERNS s
                      | _ => append_new (detected MECHANIC_PATTERNS s) "tribal"
                      end;
     tribal_focus := capitalize <$> last found;
     must_include_cards := [];
     market_preference :=
       negb (contains "no market" s || contains "without market" s);
     preferred_win_conditions := [];
     confidence_score := f0_8;
     interpretation_notes := "" |}.
Proof.
  unfold _detect_patterns. cbv zeta. rewrite tribal_loop, detect_archetype_head.
  change (key_mechanics default_analysis ++ detected MECHANIC_PATTERNS (lower user_input))
    with (detected MECHANIC_PATTERNS (lower user_input)).
  change (tribal_focus default_analysis) with (@None string).
  f_equal.
  now destruct (detected FACTION_PATTERNS (lower user_input)).
Qed.

Lemma pattern_keys_NoDup :
  NoDup (ARCHETYPE_PATTERNS.*1) /\ NoDup (FACTION_PATTERNS.*1) /\
  NoDup (MECHANIC_PATTERNS.*1).
Proof.
  split; [|split]; apply (bool_decide_unpack _); vm_compute; exact I.
Qed.

(** What the pattern pass can return, for every text.  The archetype is one
    of the four known ones, the first in table order one of whose patterns
    occurs, and decides the speed; the factions are table keys in table
    order, one primary and at most two secondary ones; the mechanics are
    distinct table keys; the tribal focus is the last tribal keyword that
    occurs, and comes with the [tribal] mechanic; the market is dropped
    exactly on one of the two phrases; and no card name and no win condition
    is ever read from the text. *)
Theorem detect_patterns_shape (user_input : string) :
  let a := _detect_patterns user_input in
  let s := lower user_input in
  Scout.archetype a = default "midrange" (head (detected ARCHETYPE_PATTERNS s)) /\
  Scout.archetype a ∈ ["aggro"; "control"; "midrange"; "combo"] /\
  (speed a = "fast" <-> Scout.archetype a = "aggro") /\
  (speed a = "slow" <-> Scout.archetype a = "control") /\
  sublist (option_list (primary_faction a) ++ secondary_factions a)
          ["Fire"; "Time"; "Justice"; "Primal"; "Shadow"] /\
  (length (secondary_factions a) <= 2)%nat /\
  (primary_faction a = None -> secondary_factions a = []) /\
  NoDup (key_mechanics a) /\
  (forall m, m ∈ key_mechanics a -> m ∈ MECHANIC_PATTERNS.*1) /\
  tribal_focus a =
    capitalize <$> last (filter (fun t => contains t s) tribal_keywords) /\
  (tribal_focus a <> None -> "tribal" ∈ key_mechanics a) /\
  (market_preference a = false <->
   occurs_in "no market" s \/ occurs_in "without market" s) /\
  must_include_cards a = [] /\ preferred_win_conditions a = [].
Proof.
  intros a s. subst a. rewrite detect_patterns_fields. cbv zeta. fold s.
  cbn [Scout.archetype speed primary_faction secondary_factions key_mechanics
       tribal_focus must_include_cards market_preference preferred_win_conditions].
  destruct pattern_keys_NoDup as (Hka & Hkf & Hkm).
  split; [reflexivity |].
  assert (Harch : default "midrange" (head (detected ARCHETYPE_PATTERNS s))
                  ∈ ["aggro"; "control"; "midrange"; "combo"]).
  { destruct (head (detected ARCHETYPE_PATTERNS s)) as [x|] eqn:Hh; simpl.
    - apply head_Some_elem_of in Hh.
      pose proof (elem_of_sublist _ _ _ Hh (detected_sublist _ _)) as Hx.
      vm_compute in Hx. set_solver.
    - set_solver. }
  split; [exact Harch |].
  set (arch := default "midrange" (head (detected ARCHETYPE_PATTERNS s))) in *.
  split; [|split].
  - destruct (String.eqb arch "aggro") eqn:He.
    + apply String.eqb_eq in He. tauto.
    + apply String.eqb_neq in He.
      destruct (String.eqb arch "control"); split; (discriminate || tauto).
  - destruct (String.eqb arch "aggro") eqn:He.
    + apply String.eqb_eq in He. rewrite He. split; discriminate.
    + destruct (String.eqb arch "control") eqn:Hc.
      * apply String.eqb_eq in Hc. tauto.
      * apply String.eqb_neq in Hc. split; (discriminate || tauto).
  - pose proof (detected_sublist FACTION_PATTERNS s) as Hsub.
    change (FACTION_PATTERNS.*1) with ["Fire"; "Time"; "Justice"; "Primal"; "Shadow"]
      in Hsub.
    set (d := detected FACTION_PATTERNS s) in *.
    split; [|split; [|split]].
    + etransitivity; [|exact Hsub]. destruct d as [|x d]; [constructor |].
      simpl. apply sublist_skip. rewrite drop_0. apply sublist_take.
    + rewrite length_take. lia.
    + destruct d; [reflexivity | discriminate].
    + set (found := filter (fun t => contains t s) tribal_keywords).
      pose proof (detected_sublist MECHANIC_PATTERNS s) as Hm.
      assert (Hnd : NoDup (detected MECHANIC_PATTERNS s))
        by (eapply sublist_NoDup; eauto).
      assert (Hin : forall m, m ∈ detected MECHANIC_PATTERNS s ->
                              m ∈ MECHANIC_PATTERNS.*1)
        by (intros m Hmm; eapply elem_of_sublist; eauto).
      assert (Htribal : "tribal" ∈ MECHANIC_PATTERNS.*1)
        by (apply (bool_decide_unpack _); vm_compute; exact I).
      split; [|split; [|split; [|split; [|split]]]].
      * destruct found; [exact Hnd | now apply append_new_NoDup].
      * intros m Hmm. destruct found; [now apply Hin |].
        apply append_new_elem in Hmm as [Hmm | ->]; [now apply Hin | exact Htribal].
      * reflexivity.
      * destruct found as [|t l] eqn:Hf; [intros H; now elim H |].
        intros _. apply append_new_elem. now right.
      * rewrite negb_false_iff, orb_true_iff, !contains_occurs. reflexivity.
      * split; reflexivity.
Qed.

Lemma not_mentioned (t : list (string * list string)) (k text : string) (ps : list string) :
  (k, ps) ∈ t -> ~ mentions t k text -> any_in ps (lower text) = false.
Proof.
  intros Hin Hno. destruct (any_in ps (lower text)) eqn:Ha; [|reflexivity].
  apply any_in_occurs in Ha as (p & Hp & Ho). exfalso. apply Hno.
  exists ps, p. auto.
Qed.

Lemma tribal_found (s : string) :
  filter (fun t => contains t s) tribal_keywords <> [] <->
  exists t, t ∈ tribal_keywords /\ occurs_in t s.
Proof.
  split.
  - destruct (filter (fun t => contains t s) tribal_keywords) as [|t l] eqn:Hf;
      [intros H; now elim H |].
    intros _. assert (Ht : t ∈ filter (fun t => contains t s) tribal_keywords)
      by (rewrite Hf; constructor).
    apply list_elem_of_filter in Ht as [Hc Ht]. exists t. split; [exact Ht |].
    apply contains_occurs. now apply Is_true_true.
  - intros (t & Ht & Ho) Hf.
    assert (Hin : t ∈ filter (fun t => contains t s) tribal_keywords).
    { apply list_elem_of_filter. split; [|exact Ht].
      apply Is_true_true. now apply contains_occurs. }
    rewrite Hf in Hin. inversion Hin.
Qed.

(** Detection is by substring of the lower-case text.  Every detected
    faction is mentioned; there is no primary faction exactly when no
    faction is mentioned; the primary faction is the mentioned faction that
    comes first in the table, whatever the order of the words in the text;
    and the mechanics are exactly the mentioned ones, with [tribal] added
    when a tribal keyword occurs. *)
Theorem detect_patterns_mentions (user_input : string) :
  let a := _detect_patterns user_input in
  (forall f, f ∈ option_list (primary_faction a) ++ secondary_factions a ->
             mentions FACTION_PATTERNS f user_input) /\
  (primary_faction a = None <->
   forall f, ~ mentions FACTION_PATTERNS f user_input) /\
  (forall f g, primary_faction a = Some f ->
               mentions FACTION_PATTERNS g user_input ->
               g = f \/ sublist [f; g] ["Fire"; "Time"; "Justice"; "Primal"; "Shadow"]) /\
  (forall m, m ∈ key_mechanics a <->
             mentions MECHANIC_PATTERNS m user_input \/
             (m = "tribal" /\
              exists t, t ∈ tribal_keywords /\ occurs_in t (lower user_input))).
Proof.
  intros a. subst a. rewrite detect_patterns_fields. cbv zeta.
  cbn [primary_faction secondary_factions key_mechanics].
  set (s := lower user_input).
  pose proof (detected_sublist FACTION_PATTERNS s) as Hsub.
  change (FACTION_PATTERNS.*1) with ["Fire"; "Time"; "Justice"; "Primal"; "Shadow"]
    in Hsub.
  assert (Hd : forall f, f ∈ detected FACTION_PATTERNS s <->
                         mentions FACTION_PATTERNS f user_input)
    by (intros f; apply detected_mentions).
  set (d := detected FACTION_PATTERNS s) in *.
  split; [|split; [|split]].
  - intros f Hf. apply Hd. destruct d as [|x d]; [inversion Hf |].
    simpl in Hf. rewrite drop_0 in Hf.
    apply elem_of_cons in Hf as [-> | Hf]; [constructor |].
    constructor. eapply elem_of_sublist; [exact Hf | apply sublist_take].
  - split.
    + intros Hn f Hf. apply Hd in Hf. destruct d; [inversion Hf | discriminate].
    + intros Hn. destruct d as [|x d]; [reflexivity |].
      exfalso. apply (Hn x), Hd. constructor.
  - intros f g Hf Hg. apply Hd in Hg. destruct d as [|x d]; [discriminate |].
    injection Hf as ->. apply elem_of_cons in Hg as [-> | Hg]; [now left |].
    right. etransitivity; [|exact Hsub].
    apply sublist_skip. now apply singleton_sublist_l.
  - intros m. rewrite <- (tribal_found s).
    assert (Hm : m ∈ detected MECHANIC_PATTERNS s <->
                 mentions MECHANIC_PATTERNS m user_input)
      by apply detected_mentions.
    rewrite <- Hm. clear Hm.
    destruct (filter (fun t => contains t s) tribal_keywords) as [|t l].
    + split; [now left | intros [H | [_ H]]; [exact H | now elim H]].
    + rewrite append_new_elem. split.
      * intros [H | ->]; [now left | right; split; [reflexivity | discriminate]].
      * intros [H | [-> _]]; [now left | now right].
Qed.

(** A request for Justice is read as a request for Justice and Primal: the
    Primal pattern [ice] occurs in [justice].  When no Fire or Time pattern
    occurs beside it, Justice is the primary faction, Primal the first
    secondary one, and the base filters built without filters of the
    caller allow both. *)
Theorem justice_request_allows_primal (user_input : string) :
  occurs_in "justice" (lower user_input) ->
  ~ mentions FACTION_PATTERNS "Fire" user_input ->
  ~ mentions FACTION_PATTERNS "Time" user_input ->
  let a := _detect_patterns user_input in
  primary_faction a = Some "Justice" /\
  head (secondary_factions a) = Some "Primal" /\
  exists rest,
    allowed_factions (_create_base_filters a None) = Some ("Justice" :: "Primal" :: rest).
Proof.
  intros Hj Hfire Htime a.
  assert (Hd : exists rest, detected FACTION_PATTERNS (lower user_input) =
                            "Justice" :: "Primal" :: rest).
  { unfold FACTION_PATTERNS. rewrite !detected_cons, detected_nil.
    rewrite (not_mentioned FACTION_PATTERNS "Fire" user_input _
               ltac:(repeat constructor) Hfire).
    rewrite (not_mentioned FACTION_PATTERNS "Time" user_input _
               ltac:(do 1 constructor; repeat constructor) Htime).
    assert (H1 : any_in ["justice"; "armor"; "valkyrie"; "enforcer"; "law"; "order"]
                   (lower user_input) = true).
    { apply any_in_occurs. exists "justice". split; [constructor | exact Hj]. }
    assert (H2 : any_in ["primal"; "spell"; "wisdom"; "ice"; "yeti"; "unseen"; "lightning"]
                   (lower user_input) = true).
    { apply any_in_occurs. exists "ice". split; [repeat constructor |].
      apply (occurs_in_weaken "just" "ice"). exact Hj. }
    rewrite H1, H2. eauto. }
  destruct Hd as [rest Hd]. subst a. rewrite detect_patterns_fields. cbv zeta.
  unfold _create_base_filters.
  cbn [primary_faction secondary_factions market_preference tribal_focus Scout.archetype
       allowed_factions]. rewrite Hd.
  split; [reflexivity |]. split; [reflexivity |].
  exists (take 1 rest). reflexivity.
Qed.

Lemma justice_request_allows_primal_witness :
  primary_faction (_detect_patterns "Justice midrange") = Some "Justice" /\
  head (secondary_factions (_detect_patterns "Justice midrange")) = Some "Primal" /\
  exists rest,
    allowed_factions (_create_base_filters (_detect_patterns "Justice midrange") None) =
    Some ("Justice" :: "Primal" :: rest).
Proof.
  apply (justice_request_allows_primal "Justice midrange").
  - apply contains_occurs. reflexivity.
  - intros H. apply detected_mentions in H. revert H.
    apply (bool_decide_unpack _). vm_compute. exact I.
  - intros H. apply detected_mentions in H. revert H.
    apply (bool_decide_unpack _). vm_compute. exact I.
Defined.

(** ** The search queries of the scout *)

Lemma unique_queries_loop (qs : list search_query) (seen : gset string)
    (unique : list search_query) :
  (forall x, x ∈ seen <-> x ∈ q_query <$> unique) -> NoDup (q_query <$> unique) ->
  let out := fold_left (fun '(seen, unique) q =>
                          if decide (q_query q ∉ seen)
                          then (seen ∪ {[q_query q]}, unique ++ [q])
                          else (seen, unique))
                       qs (seen, unique) in
  NoDup (q_query <$> out.2) /\
  (exists added, out.2 = unique ++ added /\ sublist added qs) /\
  (forall x, x ∈ q_query <$> out.2 <-> x ∈ q_query <$> unique \/ x ∈ q_query <$> qs) /\
  (forall pre q post, qs = pre ++ q :: post -> q_query q ∉ seen ->
                      q_query q ∉ q_query <$> pre -> q ∈ out.2).
Proof.
  revert seen unique. induction qs as [|q0 qs IH]; intros seen unique Hseen Hnd;
    cbn [fold_left]; cbv zeta.
  - cbn [snd]. split; [exact Hnd |]. split; [|split].
    + exists []. split; [now rewrite app_nil_r | constructor].
    + intros x. rewrite fmap_nil. split; [now left | intros [H | H]; [exact H | inversion H]].
    + intros [|? ?] q post Hq; discriminate.
  - destruct (decide (q_query q0 ∉ seen)) as [Hq0|Hq0].
    + assert (Hseen' : forall x, x ∈ seen ∪ {[q_query q0]} <->
                                 x ∈ q_query <$> unique ++ [q0]).
      { intros x. rewrite fmap_app, elem_of_app, elem_of_union, Hseen. simpl.
        rewrite list_elem_of_singleton, elem_of_singleton. reflexivity. }
      assert (Hnd' : NoDup (q_query <$> unique ++ [q0])).
      { rewrite fmap_app. apply NoDup_app. split; [exact Hnd |].
        split; [|apply NoDup_singleton]. intros x Hx Hin.
        apply list_elem_of_singleton in Hin. subst x. apply Hq0. now apply Hseen. }
      destruct (IH _ _ Hseen' Hnd') as (H1 & (added & H2 & H2') & H3 & H4).
      cbv zeta in H1, H2, H3, H4.
      split; [exact H1 |]. split; [|split].
      * exists (q0 :: added). split; [now rewrite H2, <- app_assoc |].
        now apply sublist_skip.
      * intros x. rewrite H3, fmap_app, elem_of_app, (fmap_cons _ q0 qs), elem_of_cons.
        change (q_query <$> [q0]) with [q_query q0].
        rewrite list_elem_of_singleton. tauto.
      * intros pre q post Hq Hfresh Hpre. destruct pre as [|p pre].
        -- injection Hq as <- _. rewrite H2. apply elem_of_app. left.
           apply elem_of_app. right. constructor.
        -- injection Hq as <- Hq. rewrite fmap_cons, not_elem_of_cons in Hpre.
           destruct Hpre as [Hne Hpre].
           apply (H4 pre q post Hq); [|exact Hpre].
           rewrite elem_of_union, elem_of_singleton. tauto.
    + destruct (IH _ _ Hseen Hnd) as (H1 & (added & H2 & H2') & H3 & H4).
      cbv zeta in H1, H2, H3, H4.
      split; [exact H1 |]. split; [|split].
      * exists added. split; [exact H2 | now apply sublist_cons].
      * intros x. rewrite H3, fmap_cons, elem_of_cons.
        split; [tauto |]. intros [H | [-> | H]]; auto.
        left. apply Hseen. now apply dec_stable.
      * intros pre q post Hq Hfresh Hpre. destruct pre as [|p pre].
        -- injection Hq as <- _. contradiction.
        -- injection Hq as <- Hq. rewrite fmap_cons, not_elem_of_cons in Hpre.
           destruct Hpre as [Hne Hpre]. now apply (H4 pre q post Hq).
Qed.

Lemma unique_queries_spec (qs : list search_query) :
  NoDup (q_query <$> unique_queries qs) /\
  sublist (unique_queries qs) qs /\
  (forall x, x ∈ q_query <$> unique_queries qs <-> x ∈ q_query <$> qs) /\
  (forall pre q post, qs = pre ++ q :: post -> q_query q ∉ q_query <$> pre ->
                      q ∈ unique_queries qs) /\
  head (unique_queries qs) = head qs.
Proof.
  unfold unique_queries.
  destruct (unique_queries_loop qs ∅ []) as (H1 & (added & H2 & H2') & H3 & H4).
  - intros x. rewrite fmap_nil. set_solver.
  - constructor.
  - cbv zeta in *. split; [exact H1 |]. split; [now rewrite H2 |].
    split; [|split].
    + intros x. rewrite H3, fmap_nil. set_solver.
    + intros pre q post Hq Hpre. apply (H4 pre q post Hq); [set_solver | exact Hpre].
    + destruct qs as [|q qs]; [reflexivity |].
      clear. cbn [fold_left]. rewrite decide_True by set_solver.
      destruct (unique_queries_loop qs (∅ ∪ {[q_query q]}) ([] ++ [q]))
        as (_ & (added & -> & _) & _).
      * intros x. simpl. rewrite list_elem_of_singleton. set_solver.
      * apply NoDup_singleton.
      * reflexivity.
Qed.

Lemma fold_left_snoc {A B} (f : B -> A) (l : list B) (acc : list A) :
  fold_left (fun acc x => acc ++ [f x]) l acc = acc ++ map f l.
Proof.
  revert acc. induction l as [|x l IH]; intros acc; simpl; [now rewrite app_nil_r |].
  now rewrite IH, <- app_assoc.
Qed.

(** The list of queries before the duplicate pass, piece by piece. *)
Lemma create_search_queries_raw (strategy : StrategyAnalysis) (original_input : string) :
  _create_search_queries strategy original_input =
  unique_queries
    ([ {| q_query := original_input; q_purpose := "original_input" |} ] ++
     match primary_faction strategy with
     | Some primary =>
         if truthy primary
         then [ {| q_query := archetype_query strategy primary;
                   q_purpose := "archetype_faction" |} ]
         else []
     | None => []
     end ++
     map (fun mechanic => {| q_query := mechanic_query strategy mechanic;
                             q_purpose := "mechanic_" +:+ mechanic |})
         (take 3 (key_mechanics strategy)) ++
     match tribal_focus strategy with
     | Some tribal =>
         if truthy tribal
         then [ {| q_query := tribal +:+ " tribal synergy"; q_purpose := "tribal_focus" |} ]
         else []
     | None => []
     end ++
     map (fun win_con => {| q_query := win_con; q_purpose := "win_condition" |})
         (preferred_win_conditions strategy) ++
     (if String.eqb (Scout.archetype strategy) "aggro"
      then [ {| q_query := "charge haste aggressive one drop"; q_purpose := "aggro_core" |} ]
      else if String.eqb (Scout.archetype strategy) "control"
      then [ {| q_query := "board wipe removal draw"; q_purpose := "control_core" |} ]
      else if String.eqb (Scout.archetype strategy) "combo"
      then [ {| q_query := "combo piece engine"; q_purpose := "combo_core" |} ]
      else [])).
Proof.
  unfold _create_search_queries. cbv zeta. f_equal.
  rewrite (fold_left_snoc
             (fun mechanic => {| q_query := mechanic_query strategy mechanic;
                                 q_purpose := "mechanic_" +:+ mechanic |})).
  unfold archetype_query.
  destruct (primary_faction strategy) as [p|]; [destruct (truthy p) |];
    (destruct (tribal_focus strategy) as [t|]; [destruct (truthy t) |]);
    destruct (secondary_factions strategy);
    destruct (String.eqb (Scout.archetype strategy) "aggro");
    destruct (String.eqb (Scout.archetype strategy) "control");
    destruct (String.eqb (Scout.archetype strategy) "combo");
    rewrite ?app_nil_r, <- ?app_assoc; reflexivity.
Qed.

(** The queries that the scout builds.  The request itself always comes
    first; no text is asked twice; there are at most seven queries beside
    those for the win conditions; and the texts are exactly: the request,
    the archetype with the factions, one text for each of the first three
    mechanics, the tribal text, the win conditions, and the fixed text of
    an aggro, control or combo archetype. *)
Theorem create_search_queries_spec (strategy : StrategyAnalysis)
    (original_input : string) :
  let qs := _create_search_queries strategy original_input in
  head qs = Some {| q_query := original_input; q_purpose := "original_input" |} /\
  NoDup (q_query <$> qs) /\
  (length qs <= 7 + length (preferred_win_conditions strategy))%nat /\
  (forall x, x ∈ q_query <$> qs <-> query_text strategy original_input x).
Proof.
  intros qs. subst qs. rewrite create_search_queries_raw.
  match goal with |- context [unique_queries ?r] => set (raw := r) end.
  destruct (unique_queries_spec raw) as (Hnd & Hsub & Htexts & _ & Hhead).
  split; [rewrite Hhead; reflexivity |]. split; [exact Hnd |]. split.
  - apply sublist_length in Hsub. etransitivity; [exact Hsub |].
    subst raw. rewrite !length_app, !length_map, length_take. cbn [length].
    destruct (primary_faction strategy) as [p|]; [destruct (truthy p) |];
      (destruct (tribal_focus strategy) as [t|]; [destruct (truthy t) |]);
      destruct (String.eqb (Scout.archetype strategy) "aggro");
      destruct (String.eqb (Scout.archetype strategy) "control");
      destruct (String.eqb (Scout.archetype strategy) "combo");
      cbn [length]; lia.
  - intros x. rewrite Htexts. subst raw. unfold query_text.
    rewrite !fmap_app, !elem_of_app.
    change (q_query <$> [ {| q_query := original_input; q_purpose := "original_input" |} ])
      with [original_input].
    rewrite list_elem_of_singleton.
    apply or_iff_compat_l.
    assert (H1 : x ∈ q_query <$>
                   match primary_faction strategy with
                   | Some primary =>
                       if truthy primary
                       then [ {| q_query := archetype_query strategy primary;
                                 q_purpose := "archetype_faction" |} ]
                       else []
                   | None => []
                   end <->
                 exists primary, primary_faction strategy = Some primary /\
                                 primary <> "" /\ x = archetype_query strategy primary).
    { destruct (primary_faction strategy) as [p|].
      - destruct (truthy p) eqn:Hp.
        + apply truthy_nonempty in Hp. simpl. rewrite list_elem_of_singleton. split.
          * intros ->. eauto.
          * intros (p' & Heq & _ & ->). now injection Heq as ->.
        + split; [intros H; inversion H |].
          intros (p' & Heq & Hne & _). injection Heq as ->.
          apply truthy_nonempty in Hne. congruence.
      - split; [intros H; inversion H | intros (p' & Heq & _); discriminate]. }
    assert (H2 : x ∈ q_query <$>
                   map (fun mechanic => {| q_query := mechanic_query strategy mechanic;
                                           q_purpose := "mechanic_" +:+ mechanic |})
                       (take 3 (key_mechanics strategy)) <->
                 exists mechanic, mechanic ∈ take 3 (key_mechanics strategy) /\
                                  x = mechanic_query strategy mechanic).
    { rewrite list_elem_of_fmap. split.
      - intros (q & -> & Hq). apply list_elem_of_fmap in Hq as (m & -> & Hm). eauto.
      - intros (m & Hm & ->). eexists. split; [|apply list_elem_of_fmap; eauto].
        reflexivity. }
    assert (H3 : x ∈ q_query <$>
                   match tribal_focus strategy with
                   | Some tribal =>
                       if truthy tribal
                       then [ {| q_query := tribal +:+ " tribal synergy";
                                 q_purpose := "tribal_focus" |} ]
                       else []
                   | None => []
                   end <->
                 exists tribal, tribal_focus strategy = Some tribal /\ tribal <> "" /\
                                x = tribal +:+ " tribal synergy").
    { destruct (tribal_focus strategy) as [t|].
      - destruct (truthy t) eqn:Ht.
        + apply truthy_nonempty in Ht. simpl. rewrite list_elem_of_singleton. split.
          * intros ->. eauto.
          * intros (t' & Heq & _ & ->). now injection Heq as ->.
        + split; [intros H; inversion H |].
          intros (t' & Heq & Hne & _). injection Heq as ->.
          apply truthy_nonempty in Hne. congruence.
      - split; [intros H; inversion H | intros (t' & Heq & _); discriminate]. }
    assert (H4 : x ∈ q_query <$>
                   map (fun win_con => {| q_query := win_con;
                                          q_purpose := "win_condition" |})
                       (preferred_win_conditions strategy) <->
                 x ∈ preferred_win_conditions strategy).
    { rewrite list_elem_of_fmap. split.
      - intros (q & -> & Hq). now apply list_elem_of_fmap in Hq as (w & -> & Hw).
      - intros Hw. eexists. split; [|apply list_elem_of_fmap; eauto]. reflexivity. }
    rewrite H1, H2, H3, H4. do 4 apply or_iff_compat_l.
    destruct (String.eqb (Scout.archetype strategy) "aggro") eqn:Ha.
    { apply String.eqb_eq in Ha. rewrite Ha. simpl. rewrite list_elem_of_singleton.
      split; [intros ->; now left |].
      intros [[_ ->] | [[Hc _] | [Hc _]]]; [reflexivity | discriminate | discriminate]. }
    apply String.eqb_neq in Ha.
    destruct (String.eqb (Scout.archetype strategy) "control") eqn:Hc.
    { apply String.eqb_eq in Hc. rewrite Hc. simpl. rewrite list_elem_of_singleton.
      split; [intros ->; right; now left |].
      intros [[Hx _] | [[_ ->] | [Hx _]]]; [discriminate | reflexivity | discriminate]. }
    apply String.eqb_neq in Hc.
    destruct (String.eqb (Scout.archetype strategy) "combo") eqn:Ho.
    { apply String.eqb_eq in Ho. rewrite Ho. simpl. rewrite list_elem_of_singleton.
      split; [intros ->; right; now right |].
      intros [[Hx _] | [[Hx _] | [_ ->]]]; [discriminate | discriminate | reflexivity]. }
    apply String.eqb_neq in Ho.
    split; [intros H; inversion H | tauto].
Qed.

(** ** The knowledge pass of the scout *)

Lemma append_new_fold (xs l : list string) :
  (exists added, fold_left append_new xs l = l ++ added /\
                 forall y, y ∈ added -> y ∈ xs) /\
  (NoDup l -> NoDup (fold_left append_new xs l)) /\
  (forall y, y ∈ fold_left append_new xs l <-> y ∈ l \/ y ∈ xs).
Proof.
  revert l. induction xs as [|x xs IH]; intros l; cbn [fold_left].
  - split; [|split].
    + exists []. split; [now rewrite app_nil_r | intros y Hy; inversion Hy].
    + auto.
    + intros y. split; [now left | intros [H | H]; [exact H | inversion H]].
  - destruct (IH (append_new l x)) as ((added & Heq & Hadded) & Hnd & Hin).
    destruct (append_new_prefix l x) as (a0 & Ha0 & Hx).
    split; [|split].
    + exists (a0 ++ added). split; [now rewrite Heq, Ha0, app_assoc |].
      intros y Hy. apply elem_of_app in Hy as [Hy | Hy].
      * rewrite (Hx y Hy). constructor.
      * constructor. now apply Hadded.
    + intros Hl. now apply Hnd, append_new_NoDup.
    + intros y. rewrite Hin, append_new_elem, elem_of_cons. tauto.
Qed.

Lemma fold_left_lower (l mechanics : list string) :
  fold_left (fun mechanics skill => append_new mechanics (lower skill)) l mechanics =
  fold_left append_new (lower <$> l) mechanics.
Proof.
  revert mechanics. induction l as [|x l IH]; intros mechanics; [reflexivity |].
  simpl. apply IH.
Qed.

Lemma package_for_some (mapping : list (string * string)) (s : string)
    (core : list string) :
  package_for mapping s = Some core ->
  exists keyword package_name,
    (keyword, package_name) ∈ mapping /\ occurs_in keyword s /\
    package_get MECHANICAL_PACKAGES package_name = Some core.
Proof.
  induction mapping as [|[k n] mapping IH]; [discriminate |]. simpl.
  destruct (contains k s) eqn:Hk.
  - intros H. exists k, n. split; [constructor |]. split; [|exact H].
    now apply contains_occurs.
  - intros H. destruct (IH H) as (k' & n' & Hin & Ho & Hg).
    exists k', n'. split; [now constructor | auto].
Qed.

Lemma package_for_none (mapping : list (string * string)) (s : string) :
  (forall keyword package_name, (keyword, package_name) ∈ mapping ->
     package_get MECHANICAL_PACKAGES package_name <> None) ->
  (package_for mapping s = None <->
   forall keyword package_name, (keyword, package_name) ∈ mapping ->
                                ~ occurs_in keyword s).
Proof.
  induction mapping as [|[k n] mapping IH]; intros Hall.
  - split; [intros _ k n H; inversion H | reflexivity].
  - simpl. destruct (contains k s) eqn:Hk.
    + split.
      * intros H. exfalso. apply (Hall k n); [constructor | exact H].
      * intros H. exfalso. apply (H k n); [constructor |]. now apply contains_occurs.
    + rewrite IH by (intros k' n' Hin; apply (Hall k' n'); now constructor).
      split.
      * intros H k' n' Hin. apply elem_of_cons in Hin as [Heq | Hin]; [|now apply (H k' n')].
        injection Heq as -> ->. intros Ho. apply contains_occurs in Ho. congruence.
      * intros H k' n' Hin. apply (H k' n'). now constructor.
Qed.

Lemma package_get_elem (table : list (string * list string)) (k : string)
    (core : list string) :
  package_get table k = Some core -> (k, core) ∈ table.
Proof.
  induction table as [|[k' v] table IH]; [discriminate |]. simpl.
  destruct (String.eqb k' k) eqn:He.
  - apply String.eqb_eq in He. subst k'. intros H. injection H as ->. constructor.
  - intros H. constructor. now apply IH.
Qed.

(** The synergy package of a strategy text.  A package is returned exactly
    when one of the ten keywords occurs in the lower-case text; it is then
    the package of such a keyword; and the keyword [aggro] goes before all
    others, so that a text that names aggro gets the burn package whatever
    else it names. *)
Theorem get_package_for_strategy_spec (strategy : string) :
  (forall core, get_package_for_strategy strategy = Some core ->
     exists keyword package_name,
       (keyword, package_name) ∈ keyword_mapping /\
       occurs_in keyword (lower strategy) /\
       (package_name, core) ∈ MECHANICAL_PACKAGES) /\
  (get_package_for_strategy strategy = None <->
   forall keyword package_name, (keyword, package_name) ∈ keyword_mapping ->
                                ~ occurs_in keyword (lower strategy)) /\
  (occurs_in "aggro" (lower strategy) ->
   get_package_for_strategy strategy =
   Some ["direct damage spells"; "charge units"; "overwhelm"]).
Proof.
  unfold get_package_for_strategy. split; [|split].
  - intros core H. apply package_for_some in H as (k & n & Hin & Ho & Hg).
    exists k, n. split; [exact Hin |]. split; [exact Ho |]. now apply package_get_elem.
  - apply package_for_none. intros k n Hin.
    unfold keyword_mapping in Hin.
    repeat (apply elem_of_cons in Hin as [Hin | Hin];
            [injection Hin as -> ->; discriminate |]).
    inversion Hin.
  - intros H. apply contains_occurs in H. unfold keyword_mapping. simpl.
    rewrite H. reflexivity.
Qed.

(** The knowledge pass only appends to the mechanics.  The mechanics found
    before stay at the front in their order; what is appended comes from the
    first five skills of the archetype, in lower case, or from the core
    mechanics of the synergy package, and all of these end up in the list;
    distinct mechanics stay distinct; every other field is unchanged; and
    when three mechanics were already found, the queries are the same as
    without the knowledge pass. *)
Theorem enrich_with_knowledge_spec (get_skills_by_archetype : string -> list string)
    (strategy : StrategyAnalysis) :
  let enriched := _enrich_with_knowledge get_skills_by_archetype strategy in
  let learnt :=
    (if truthy (Scout.archetype strategy)
     then lower <$> take 5 (get_skills_by_archetype (Scout.archetype strategy))
     else []) ++
    default [] (get_package_for_strategy (Scout.archetype strategy)) in
  (exists added, key_mechanics enriched = key_mechanics strategy ++ added /\
                 forall y, y ∈ added -> y ∈ learnt) /\
  (forall y, y ∈ key_mechanics enriched <-> y ∈ key_mechanics strategy \/ y ∈ learnt) /\
  (NoDup (key_mechanics strategy) -> NoDup (key_mechanics enriched)) /\
  ((3 <= length (key_mechanics strategy))%nat ->
   forall original_input,
     _create_search_queries enriched original_input =
     _create_search_queries strategy original_input) /\
  Scout.archetype enriched = Scout.archetype strategy /\
  speed enriched = speed strategy /\
  primary_faction enriched = primary_faction strategy /\
  secondary_factions enriched = secondary_factions strategy /\
  tribal_focus enriched = tribal_focus strategy /\
  must_include_cards enriched = must_include_cards strategy /\
  market_preference enriched = market_preference strategy /\
  preferred_win_conditions enriched = preferred_win_conditions strategy.
Proof.
  intros enriched learnt.
  set (skills := if truthy (Scout.archetype strategy)
                 then lower <$> take 5 (get_skills_by_archetype (Scout.archetype strategy))
                 else []) in *.
  set (core := default [] (get_package_for_strategy (Scout.archetype strategy))) in *.
  assert (Hkey : key_mechanics enriched =
                 fold_left append_new core
                   (fold_left append_new skills (key_mechanics strategy))).
  { subst enriched skills core. unfold _enrich_with_knowledge. cbv zeta.
    cbn [key_mechanics]. rewrite fold_left_lower.
    destruct (truthy (Scout.archetype strategy));
      destruct (get_package_for_strategy (Scout.archetype strategy)); reflexivity. }
  destruct (append_new_fold skills (key_mechanics strategy))
    as ((a1 & He1 & Ha1) & Hn1 & Hi1).
  destruct (append_new_fold core (fold_left append_new skills (key_mechanics strategy)))
    as ((a2 & He2 & Ha2) & Hn2 & Hi2).
  assert (Hprefix : key_mechanics enriched = key_mechanics strategy ++ (a1 ++ a2))
    by now rewrite Hkey, He2, He1, app_assoc.
  split; [|split; [|split; [|split]]].
  - exists (a1 ++ a2). split; [exact Hprefix |].
    intros y Hy. subst learnt. rewrite elem_of_app.
    apply elem_of_app in Hy as [Hy | Hy]; [left; now apply Ha1 | right; now apply Ha2].
  - intros y. subst learnt. rewrite Hkey, Hi2, Hi1, elem_of_app. tauto.
  - intros Hnd. rewrite Hkey. now apply Hn2, Hn1.
  - intros Hlen input. rewrite !create_search_queries_raw.
    unfold archetype_query, mechanic_query. rewrite Hprefix.
    rewrite (take_app_le _ _ 3 Hlen). reflexivity.
  - repeat split; reflexivity.
Qed.

(** ** The whole run of the scout *)

Lemma run_queries_offline (engine : SearchEngine) (base_filters : SearchFilters)
    (qs : list search_query) (acc : list Card * gset string) :
  chromadb_available engine = false ->
  exists out, run_queries engine base_filters qs acc = Return out.
Proof.
  intros Hoff. revert acc. induction qs as [|q qs IH]; intros acc; simpl; [eauto |].
  destruct (strategy_without_store engine (q_query q) base_filters 1000 (or_introl Hoff))
    as (results & i & Hs).
  rewrite (search_of_strategy engine (q_query q) (Some base_filters) 1000 _ _ _ Hs).
  cbn [mbind py_bind]. apply IH.
Qed.

Lemma organize_distinct (pool : list Card) (strategy : StrategyAnalysis) :
  NoDup (name <$> pool) -> _organize_card_pool pool strategy ≡ₚ pool.
Proof.
  intros Hnd. unfold _organize_card_pool. cbv zeta.
  pose proof (organized_perm pool strategy _ eq_refl) as Hp.
  rewrite remove_duplicates_id; [exact Hp |]. now rewrite Hp.
Qed.

Lemma scouted_strategy (get_skills_by_archetype : string -> list string)
    (run : py RunResponse) (user_input : string) :
  must_include_cards
    (_enrich_with_knowledge get_skills_by_archetype
       (refine_analysis run (_detect_patterns user_input))) = [] /\
  preferred_win_conditions
    (_enrich_with_knowledge get_skills_by_archetype
       (refine_analysis run (_detect_patterns user_input))) = [] /\
  refine_analysis run (_detect_patterns user_input) = _detect_patterns user_input.
Proof.
  assert (H : refine_analysis run (_detect_patterns user_input) =
              _detect_patterns user_input) by now destruct run.
  rewrite H, detect_patterns_fields. repeat split.
Qed.

(** One run of the scout.  Without the vector store the run always returns.
    Whenever it returns, the strategy is the enriched pattern analysis of the
    request, whatever the model answered; between one and seven queries were
    executed; the pool holds no card name twice, so the pool size and the
    count of unique cards agree; every card of the pool is a cached card
    that lies within the cost bounds of the base filters or is a
    must-include card of the caller's filters; and the filters reported in
    the metadata are the base filters, not the ones the caller passed. *)
Theorem analyze_and_scout_spec (get_skills_by_archetype : string -> list string)
    (engine : SearchEngine) (run : py RunResponse) (user_input : string)
    (additional_filters : option SearchFilters) :
  (chromadb_available engine = false ->
   exists r, analyze_and_scout get_skills_by_archetype engine run user_input
               additional_filters = Return r) /\
  (forall r,
     analyze_and_scout get_skills_by_archetype engine run user_input
       additional_filters = Return r ->
     let base := _create_base_filters (strategy r) additional_filters in
     strategy r = _enrich_with_knowledge get_skills_by_archetype
                    (_detect_patterns user_input) /\
     1 ≤ meta_queries_executed (metadata r) ≤ 7 /\
     NoDup (name <$> card_pool r) /\
     pool_size r = Z.of_nat (length (card_pool r)) /\
     meta_unique_cards (metadata r) = pool_size r /\
     (forall c, c ∈ card_pool r ->
        c ∈ all_cards engine /\
        (cost_in_range base c \/
         exists x, x ∈ items (must_include base) /\ get_card_by_name engine x = Some c)) /\
     meta_filters_applied (metadata r) =
       match additional_filters with Some _ => Some base | None => None end).
Proof.
  destruct (scouted_strategy get_skills_by_archetype run user_input)
    as (Hmust & Hwin & Hrefine).
  unfold analyze_and_scout. cbv zeta.
  set (st := _enrich_with_knowledge get_skills_by_archetype
               (refine_analysis run (_detect_patterns user_input))) in *.
  set (qs := _create_search_queries st user_input).
  assert (Hpool : forall pool,
            _execute_searches engine qs st additional_filters = Return pool ->
            exists seen,
              run_queries engine (_create_base_filters st additional_filters) qs ([], ∅) =
              Return (pool, seen)).
  { intros pool H. unfold _execute_searches in H. cbv zeta in H.
    apply bind_return in H as ([all seen] & Hrun & H). rewrite Hmust in H.
    injection H as <-. eauto. }
  split.
  - intros Hoff.
    destruct (run_queries_offline engine (_create_base_filters st additional_filters)
                qs ([], ∅) Hoff) as ([all seen] & Hrun).
    unfold _execute_searches. cbv zeta. rewrite Hrun. cbn [mbind py_bind].
    eauto.
  - intros r H. apply bind_return in H as (pool & Hexec & H). injection H as <-.
    cbn [strategy card_pool pool_size metadata meta_queries_executed meta_unique_cards
         meta_filters_applied]. cbv zeta.
    destruct (Hpool pool Hexec) as (seen & Hrun).
    assert (Hu : unique_names (pool, seen)).
    { eapply run_queries_names; [|exact Hrun]. split; [constructor | set_solver]. }
    destruct Hu as [Hnames _].
    cbn [fst] in Hnames.
    pose proof (organize_distinct pool st Hnames) as Hperm.
    assert (Hnd : NoDup (name <$> _organize_card_pool pool st)) by now rewrite Hperm.
    split; [subst st; now rewrite Hrefine |].
    split.
    { destruct (create_search_queries_spec st user_input) as (Hhead & _ & Hlen & _).
      fold qs in Hhead, Hlen. rewrite Hwin in Hlen. cbn [length] in Hlen.
      destruct qs; [discriminate |]. cbn [length] in *. lia. }
    split; [exact Hnd |]. split; [reflexivity |].
    split.
    { rewrite size_list_to_set by exact Hnd. now rewrite length_fmap. }
    split; [|reflexivity].
    intros c Hc. rewrite Hperm in Hc.
    apply (run_queries_from engine (_create_base_filters st additional_filters) qs
             ([], ∅) (pool, seen)
             (fun c => c ∈ all_cards engine /\
                       (cost_in_range (_create_base_filters st additional_filters) c \/
                        exists x, x ∈ items (must_include
                                               (_create_base_filters st additional_filters)) /\
                                  get_card_by_name engine x = Some c)));
      [| |exact Hrun |exact Hc].
    + intros q res d Hres Hd. exact (search_card_origin _ _ _ _ _ _ Hres Hd).
    + intros d Hd. inversion Hd.
Qed.

Lemma analyze_and_scout_spec_witness :
  exists r,
    analyze_and_scout (fun _ => []) Samples.offline (Raise StoreError) "torch" None =
      Return r /\
    name <$> card_pool r = ["Torch"] /\
    pool_size r = 1 /\
    meta_unique_cards (metadata r) = 1 /\
    meta_queries_executed (metadata r) = 3.
Proof.
  destruct (analyze_and_scout_spec (fun _ => []) Samples.offline (Raise StoreError)
              "torch" None) as [Hret Hspec].
  destruct (Hret eq_refl) as [r Hr]. exists r. split; [exact Hr |].
  destruct (Hspec r Hr) as (_ & _ & _ & Hsize & Huniq & _).
  vm_compute in Hr. injection Hr as <-.
  split; [reflexivity |]. split; [reflexivity |]. split; reflexivity.
Defined.

(** ** The base filters of the scout *)

(** The base filters of a run.  What the caller chose wins: allowed
    factions, unit types and a maximum cost that are set are kept, and the
    fields that the strategy never touches are passed on.  Only the market
    switch is overruled, by a strategy without market.  Building the base
    filters again from the result changes nothing; but since the result is
    the caller's own record, a record that is used for a second run with
    another strategy still carries the factions and the cost cap of the
    first. *)
Theorem create_base_filters_spec (strategy : StrategyAnalysis)
    (additional_filters : option SearchFilters) :
  let filters := default default_filters additional_filters in
  let base := _create_base_filters strategy additional_filters in
  (truthy_list (allowed_factions filters) = true ->
   allowed_factions base = allowed_factions filters) /\
  (truthy_list (Search.unit_types filters) = true ->
   Search.unit_types base = Search.unit_types filters) /\
  (forall m, max_cost filters = Some m -> max_cost base = Some m) /\
  include_market base = market_preference strategy && include_market filters /\
  (min_cost base = min_cost filters /\ must_include base = must_include filters /\
   must_exclude base = must_exclude filters /\ card_types base = card_types filters /\
   max_rarity base = max_rarity filters /\
   max_factions_per_card base = max_factions_per_card filters) /\
  _create_base_filters strategy (Some base) = base /\
  (forall later,
     (truthy_list (allowed_factions base) = true ->
      allowed_factions (_create_base_filters later (Some base)) = allowed_factions base) /\
     (forall m, max_cost base = Some m ->
                max_cost (_create_base_filters later (Some base)) = Some m)).
Proof.
  intros filters base. subst base.
  assert (Hdef : default default_filters additional_filters = filters) by reflexivity.
  clearbody filters. unfold _create_base_filters. rewrite Hdef. clear Hdef.
  cbn [default allowed_factions Search.unit_types max_cost include_market min_cost
       must_include must_exclude card_types max_rarity max_factions_per_card].
  split; [intros ->; reflexivity |].
  split; [intros ->; now rewrite andb_false_r |].
  split; [intros m ->; reflexivity |].
  split; [now destruct (market_preference strategy) |].
  split; [repeat split |].
  split.
  - unfold id.
    cbn [allowed_factions Search.unit_types max_cost include_market min_cost
         must_include must_exclude card_types max_rarity max_factions_per_card
         format Search.archetype market_access_only].
    f_equal.
    + destruct (allowed_factions filters) as [[|x l]|];
        destruct (primary_faction strategy) as [p|]; cbn; try reflexivity;
        destruct (truthy p) eqn:Hp; cbn; rewrite ?Hp; reflexivity.
    + destruct (max_cost filters); [reflexivity |].
      destruct (String.eqb (Scout.archetype strategy) "aggro") eqn:Ha; [reflexivity |].
      destruct (String.eqb (Scout.archetype strategy) "control") eqn:Hc; reflexivity.
    + destruct (Search.unit_types filters) as [[|x l]|];
        destruct (tribal_focus strategy) as [t|]; cbn; try reflexivity;
        destruct (truthy t) eqn:Ht; cbn; rewrite ?Ht; reflexivity.
    + destruct (market_preference strategy); reflexivity.
  - intros later. unfold id.
    cbn [allowed_factions Search.unit_types max_cost include_market min_cost
         must_include must_exclude card_types max_rarity max_factions_per_card
         format Search.archetype market_access_only].
    split.
    + intros Hb. rewrite Hb. reflexivity.
    + intros m Hm. rewrite Hm. reflexivity.
Qed.

(** ** Faction counts of a deck *)

Lemma factions_inner (table : list (string * string)) (infl : string) (q : Z)
    (factions : gmap string Z) (k : string) :
  NoDup (table.*2) ->
  let hit := existsb (fun '(symbol, name) => String.eqb name k && contains symbol infl)
                     table in
  let out := fold_left (fun factions '(symbol, name) =>
                          if contains symbol infl then
                            <[name := default 0 (factions !! name) + q]> factions
                          else factions)
                       table factions in
  default 0 (out !! k) = default 0 (factions !! k) + (if hit then q else 0) /\
  (is_Some (out !! k) <-> is_Some (factions !! k) \/ hit = true).
Proof.
  revert factions. induction table as [|[s n] table IH]; intros factions Hnd; cbv zeta.
  - simpl. split; [lia |]. split; [now left | intros [H | H]; [exact H | discriminate]].
  - rewrite fmap_cons in Hnd. apply NoDup_cons in Hnd as [Hn Hnd]. cbn [snd] in Hn.
    cbn [fold_left existsb].
    assert (Hrest : String.eqb n k = true ->
                    existsb (fun '(symbol, name) =>
                               String.eqb name k && contains symbol infl) table = false).
    { intros He. apply String.eqb_eq in He. subst k.
      destruct (existsb _ table) eqn:Hex; [|reflexivity].
      apply existsb_exists in Hex as ([s' n'] & Hin & Hb).
      apply andb_true_iff in Hb as [Hb _]. apply String.eqb_eq in Hb. subst n'.
      exfalso. apply Hn. apply list_elem_of_fmap. exists (s', n).
      split; [reflexivity | now apply list_elem_of_In]. }
    destruct (contains s infl) eqn:Hc.
    + destruct (IH (<[n := default 0 (factions !! n) + q]> factions) Hnd) as [H1 H2].
      cbv zeta in H1, H2. rewrite H1, H2.
      destruct (String.eqb n k) eqn:He.
      * rewrite (Hrest eq_refl). apply String.eqb_eq in He. subst k.
        rewrite lookup_insert_eq. cbn. split; [lia |].
        split; [now right | eauto].
      * apply String.eqb_neq in He. rewrite lookup_insert_ne by exact He.
        cbn [andb orb]. split; reflexivity.
    + destruct (IH factions Hnd) as [H1 H2]. cbv zeta in H1, H2. rewrite H1, H2.
      rewrite andb_false_r. cbn [orb]. split; reflexivity.
Qed.

Lemma factions_outer (l : list Decks.DeckCard) (factions : gmap string Z) (k : string) :
  let hit dc := existsb (fun '(symbol, name) =>
                           String.eqb name k &&
                           contains symbol (influence (Decks.card dc)))
                        Decks.faction_symbols in
  let out := fold_left (fun factions dc =>
               fold_left (fun factions '(symbol, name) =>
                            if contains symbol (influence (Decks.card dc)) then
                              <[name := default 0 (factions !! name) + Decks.quantity dc]>
                                factions
                            else factions)
                         Decks.faction_symbols factions)
               l factions in
  default 0 (out !! k) = default 0 (factions !! k) + quantity_where hit l /\
  (is_Some (out !! k) <->
   is_Some (factions !! k) \/ exists dc, dc ∈ l /\ hit dc = true).
Proof.
  cbv zeta. revert factions. induction l as [|dc l IH]; intros factions.
  - simpl. split; [lia |].
    split; [now left | intros [H | (dc & Hdc & _)]; [exact H | inversion Hdc]].
  - cbn [fold_left quantity_where].
    assert (Hnd : NoDup (Decks.faction_symbols.*2))
      by (apply (bool_decide_unpack _); vm_compute; exact I).
    destruct (factions_inner Decks.faction_symbols (influence (Decks.card dc))
                (Decks.quantity dc) factions k Hnd) as [H1 H2].
    cbv zeta in H1, H2.
    destruct (IH (fold_left (fun factions '(symbol, name) =>
                    if contains symbol (influence (Decks.card dc)) then
                      <[name := default 0 (factions !! name) + Decks.quantity dc]> factions
                    else factions) Decks.faction_symbols factions)) as [H3 H4].
    rewrite H3, H4, H1, H2. split.
    + destruct (existsb _ Decks.faction_symbols); lia.
    + split.
      * intros [[H | H] | (d & Hd & Hh)]; [now left | |].
        -- right. exists dc. split; [constructor | exact H].
        -- right. exists d. split; [now constructor | exact Hh].
      * intros [H | (d & Hd & Hh)]; [now left; left |].
        apply elem_of_cons in Hd as [-> | Hd]; [left; now right |].
        right. now exists d.
Qed.

Lemma faction_hit (symbol fname infl : string) :
  (symbol, fname) ∈ Decks.faction_symbols ->
  existsb (fun '(s, n) => String.eqb n fname && contains s infl) Decks.faction_symbols =
  contains symbol infl.
Proof.
  intros Hin. unfold Decks.faction_symbols in *.
  repeat (apply elem_of_cons in Hin as [Hin | Hin];
          [injection Hin as -> ->; cbn [existsb String.eqb Ascii.eqb Bool.eqb andb orb];
           now rewrite ?orb_false_r |]).
  inversion Hin.
Qed.

Lemma faction_miss (k infl : string) :
  k ∉ Decks.faction_symbols.*2 ->
  existsb (fun '(s, n) => String.eqb n k && contains s infl) Decks.faction_symbols = false.
Proof.
  intros Hk. destruct (existsb _ Decks.faction_symbols) eqn:Hex; [|reflexivity].
  apply existsb_exists in Hex as ([s n] & Hin & Hb).
  apply andb_true_iff in Hb as [Hb _]. apply String.eqb_eq in Hb. subst n.
  exfalso. apply Hk. apply list_elem_of_fmap. exists (s, k).
  split; [reflexivity | now apply list_elem_of_In].
Qed.

Lemma quantity_where_ext (f g : Decks.DeckCard -> bool) (l : list Decks.DeckCard) :
  (forall dc, f dc = g dc) -> quantity_where f l = quantity_where g l.
Proof.
  intros H. induction l as [|dc l IH]; simpl; [reflexivity |]. now rewrite H, IH.
Qed.

Lemma quantity_where_le (f : Decks.DeckCard -> bool) (l : list Decks.DeckCard) :
  valid_quantities l -> 0 ≤ quantity_where f l ≤ quantity_where (fun _ => true) l.
Proof.
  induction 1 as [|dc l Hq Hl IH]; simpl; [lia |]. destruct (f dc); lia.
Qed.

(** The faction counts of a deck.  The entry of a faction is the total
    quantity of the deck cards whose influence shows the symbol of the
    faction; a faction has an entry exactly when some card shows its symbol;
    no other key occurs; and with quantities that the [DeckCard] constructor
    accepts no count exceeds the size of the deck, although a card of
    several factions counts for each of them. *)
Theorem get_factions_spec (self : Decks.Deck) :
  (forall symbol fname, (symbol, fname) ∈ Decks.faction_symbols ->
     default 0 (Decks.get_factions self !! fname) =
       quantity_where (fun dc => contains symbol (influence (Decks.card dc)))
                      (Decks.main_deck self) /\
     (is_Some (Decks.get_factions self !! fname) <->
      exists dc, dc ∈ Decks.main_deck self /\
                 contains symbol (influence (Decks.card dc)) = true)) /\
  (forall k, is_Some (Decks.get_factions self !! k) ->
             k ∈ ["Fire"; "Time"; "Justice"; "Primal"; "Shadow"]) /\
  (valid_quantities (Decks.main_deck self) ->
   forall k v, Decks.get_factions self !! k = Some v ->
               1 ≤ v ≤ Decks.total_cards self).
Proof.
  unfold Decks.get_factions. split; [|split].
  - intros symbol fname Hin.
    destruct (factions_outer (Decks.main_deck self) ∅ fname) as [H1 H2].
    cbv zeta in H1, H2. rewrite H1, H2, lookup_empty. cbn [default]. split.
    + rewrite Z.add_0_l. apply quantity_where_ext. intros dc.
      now apply faction_hit.
    + split.
      * intros [[? H] | (dc & Hdc & Hh)]; [discriminate |].
        exists dc. split; [exact Hdc |]. now rewrite <- (faction_hit symbol fname).
      * intros (dc & Hdc & Hh). right. exists dc. split; [exact Hdc |].
        now rewrite (faction_hit symbol fname).
  - intros k Hk.
    destruct (factions_outer (Decks.main_deck self) ∅ k) as [_ H2].
    cbv zeta in H2. apply H2 in Hk as [[? Hk] | (dc & _ & Hh)];
      [rewrite lookup_empty in Hk; discriminate |].
    destruct (decide (k ∈ Decks.faction_symbols.*2)) as [Hin | Hout]; [exact Hin |].
    rewrite (faction_miss k _ Hout) in Hh. discriminate.
  - intros Hv k v Hk.
    destruct (factions_outer (Decks.main_deck self) ∅ k) as [H1 H2].
    cbv zeta in H1, H2. rewrite Hk, lookup_empty in H1. cbn [default] in H1.
    unfold id in H1.
    unfold Decks.total_cards. rewrite sum_quantity_eq.
    pose proof (quantity_where_le
                  (fun dc => existsb (fun '(s, n) =>
                                        String.eqb n k &&
                                        contains s (influence (Decks.card dc)))
                                     Decks.faction_symbols)
                  (Decks.main_deck self) Hv) as Hle.
    split; [|lia].
    assert (Hs : is_Some (fold_left (fun factions dc =>
               fold_left (fun factions '(symbol, name) =>
                            if contains symbol (influence (Decks.card dc)) then
                              <[name := default 0 (factions !! name) + Decks.quantity dc]>
                                factions
                            else factions)
                         Decks.faction_symbols factions)
               (Decks.main_deck self) ∅ !! k)) by (rewrite Hk; eauto).
    apply H2 in Hs as [[? Hs] | (dc & Hdc & Hh)];
      [rewrite lookup_empty in Hs; discriminate |].
    rewrite H1. clear -Hv Hdc Hh.
    induction Hv as [|d l Hq Hl IH]; [inversion Hdc |].
    cbn [quantity_where].
    pose proof (quantity_where_le
                  (fun dc => existsb (fun '(s, n) =>
                                        String.eqb n k &&
                                        contains s (influence (Decks.card dc)))
                                     Decks.faction_symbols) l Hl) as Hle.
    apply elem_of_cons in Hdc as [<- | Hdc].
    + rewrite Hh. lia.
    + specialize (IH Hdc). clear Hle Hh.
      match goal with |- context [if ?b then _ else _] => destruct b end; lia.
Qed.

Lemma get_factions_spec_witness :
  Decks.get_factions Samples.burn_deck !! "Fire" = Some 11 /\
  1 ≤ 11 ≤ Decks.total_cards Samples.burn_deck.
Proof.
  assert (H : Decks.get_factions Samples.burn_deck !! "Fire" = Some 11)
    by (vm_compute; reflexivity).
  split; [exact H |].
  destruct (get_factions_spec Samples.burn_deck) as (_ & _ & Hle).
  apply (Hle ltac:(repeat constructor; simpl; lia) "Fire" 11 H).
Defined.
